(** * Auto-dialer backend (backend/server.js): dispatch, balance and policy

    A shallow embedding of the Express/Mongoose handlers of
    [backend/server.js] and of the helper [isTextFlagged], followed by the
    properties stated about them.

    Conventions of the embedding.
    - A MongoDB collection addressed by [_id] is a [gmap] from ObjectIds to
      documents; the contact collection is a list in insertion (natural)
      order, because [find(...).limit(n)] depends on that order.
    - A JavaScript [Number] holding a count is a [Z].  A balance is a
      rational [Q] in the handlers of the first part: exact arithmetic, in
      which the rounding of doubles, NaN and the infinities are not
      represented; it serves the properties that depend only on which way a
      comparison of balances goes.  The two handlers that compute with a
      balance are embedded a second time in the module [Double], where a
      [Number] is the IEEE 754 binary64 [float] the program holds; the
      properties about the amounts stored are stated there.  A classifier
      score is a [float].
    - A JavaScript string is a [string]; its characters are read as code
      units below 256 (Latin-1).
    - A handler is a function from the database (and the request) to the new
      database and the HTTP response.  An exception caught by the handler's
      [try/catch] is the response 500. *)

From Stdlib Require Import QArith Lqa ZArith Ascii String Qround Floats.
From stdpp Require Import base list gmap strings sorting.

Local Open Scope string_scope.
Local Open Scope Z_scope.
Local Open Scope list_scope.

(** ** JavaScript string primitives *)

Module Js.

Definition chars (s : string) : list ascii := list_ascii_of_string s.
Definition str (l : list ascii) : string := string_of_list_ascii l.

Definition code (c : ascii) : N := N_of_ascii c.

Definition inRange (lo hi : N) (c : ascii) : bool :=
  ((lo <=? code c) && (code c <=? hi))%N.

Definition isDigit (c : ascii) : bool := inRange 48 57 c.
Definition isUpperAscii (c : ascii) : bool := inRange 65 90 c.
Definition isLowerAscii (c : ascii) : bool := inRange 97 122 c.

(** WhiteSpace and LineTerminator code units below 256: TAB, LF, VT, FF,
    CR, SP and NBSP.  They are what [trim] strips and what [parseInt]
    skips. *)
Definition isStrWhiteSpace (c : ascii) : bool :=
  inRange 9 13 c || (code c =? 32)%N || (code c =? 160)%N.

(** [String.prototype.toLowerCase], one code unit at a time: A-Z and the
    Latin-1 capitals U+00C0-U+00DE except the multiplication sign U+00D7. *)
Definition lowerChar (c : ascii) : ascii :=
  if isUpperAscii c || (inRange 192 222 c && negb (code c =? 215)%N)
  then ascii_of_N (code c + 32) else c.

(** Canonicalize of a case-insensitive, non-unicode RegExp: the upper-case
    mapping when it is a single code unit that does not move a non-ASCII
    character into ASCII.  Below 256 this folds a-z and U+00E0-U+00FE
    except the division sign U+00F7; U+00B5, U+00DF and U+00FF map outside
    Latin-1 or to several characters and stay distinct from every other
    code unit below 256. *)
Definition canonicalize (c : ascii) : ascii :=
  if isLowerAscii c || (inRange 224 254 c && negb (code c =? 247)%N)
  then ascii_of_N (code c - 32) else c.

Definition toLowerCase (s : list ascii) : list ascii := map lowerChar s.

Fixpoint dropWhile {A} (p : A -> bool) (l : list A) : list A :=
  match l with
  | [] => []
  | x :: l' => if p x then dropWhile p l' else l
  end.

(** [String.prototype.trim] *)
Definition trim (s : list ascii) : list ascii :=
  reverse (dropWhile isStrWhiteSpace (reverse (dropWhile isStrWhiteSpace s))).

(** [s.split(sep)] for a one-character separator: the segments between
    separators, always at least one. *)
Fixpoint split (sep : ascii) (s : list ascii) : list (list ascii) :=
  match s with
  | [] => [[]]
  | c :: s' =>
      if Ascii.eqb c sep then [] :: split sep s'
      else match split sep s' with
           | seg :: segs => (c :: seg) :: segs
           | [] => [[c]]
           end
  end.

Definition digitValue (c : ascii) : Z := Z.of_N (code c) - 48.

Fixpoint readDigits (s : list ascii) (acc : Z) : Z :=
  match s with
  | c :: s' => if isDigit c then readDigits s' (10 * acc + digitValue c) else acc
  | [] => acc
  end.

(** [parseInt(s, 10)]: skip leading white space, read an optional sign,
    then the longest prefix of decimal digits; [None] is NaN (no digit). *)
Definition parseInt (s : string) : option Z :=
  let body := dropWhile isStrWhiteSpace (chars s) in
  let '(sign, digits) :=
    match body with
    | "-"%char :: r => (-1, r)
    | "+"%char :: r => (1, r)
    | _ => (1, body)
    end in
  match digits with
  | c :: _ => if isDigit c then Some (sign * readDigits digits 0) else None
  | [] => None
  end.

(** [n || d] on a number: NaN and 0 are falsy. *)
Definition orDefault (n : option Z) (d : Z) : Z :=
  match n with
  | Some v => if v =? 0 then d else v
  | None => d
  end.

End Js.

(** ** Database schemas and models *)

Definition ObjectId := N.
Definition Date := N.

(** The result of [bcrypt.hash]; the salt is not modelled. *)
Inductive PasswordHash := Bcrypt (plain : string).

Record User := mkUser {
  username : string;
  password : PasswordHash;
  role : string;             (* enum: 'user' | 'admin', default 'user' *)
  balance : Q;               (* default 0.0 *)
  userCreatedAt : Date
}.

Inductive ContactStatus := new | called | answered | unanswered.

Record Contact := mkContact {
  contactId : ObjectId;
  contactName : string;
  phoneNumber : string;
  status : ContactStatus;    (* default 'new' *)
  callNotes : string;
  campaign : ObjectId
}.

Record Campaign := mkCampaign {
  campaignName : string;
  user : ObjectId;
  fromNumber : string;
  ttsMessage : string;
  callsPerMinute : Z;        (* default 5, min 1, max 100 *)
  batchDelaySeconds : Z;     (* default 60, min 0 *)
  customBlocklist : list string;
  isActive : bool;           (* default false *)
  contacts : list ObjectId;
  campaignCreatedAt : Date;
  lastBatchFetchTime : option Date
}.

(** The collections.  [settings] is the document of [SystemSettings] with
    [singletonKey = 'main'], reduced to its [fromNumberBlocklist]. *)
Record Db := mkDb {
  users : gmap ObjectId User;
  campaigns : gmap ObjectId Campaign;
  contactDocs : list Contact;
  settings : option (list string)
}.

#[global] Instance ContactStatus_eq_dec : EqDecision ContactStatus.
Proof. solve_decision. Defined.

Definition setBalance (b : Q) (u : User) : User :=
  mkUser (username u) (password u) (role u) b (userCreatedAt u).

Definition setIsActive (a : bool) (c : Campaign) : Campaign :=
  mkCampaign (campaignName c) (user c) (fromNumber c) (ttsMessage c)
    (callsPerMinute c) (batchDelaySeconds c) (customBlocklist c) a
    (contacts c) (campaignCreatedAt c) (lastBatchFetchTime c).

Definition setCallsPerMinute (n : Z) (c : Campaign) : Campaign :=
  mkCampaign (campaignName c) (user c) (fromNumber c) (ttsMessage c)
    n (batchDelaySeconds c) (customBlocklist c) (isActive c)
    (contacts c) (campaignCreatedAt c) (lastBatchFetchTime c).

Definition setLastBatchFetchTime (t : Date) (c : Campaign) : Campaign :=
  mkCampaign (campaignName c) (user c) (fromNumber c) (ttsMessage c)
    (callsPerMinute c) (batchDelaySeconds c) (customBlocklist c) (isActive c)
    (contacts c) (campaignCreatedAt c) (Some t).

Definition setUsers (us : gmap ObjectId User) (db : Db) : Db :=
  mkDb us (campaigns db) (contactDocs db) (settings db).

Definition setCampaigns (cs : gmap ObjectId Campaign) (db : Db) : Db :=
  mkDb (users db) cs (contactDocs db) (settings db).

Definition setSettings (s : option (list string)) (db : Db) : Db :=
  mkDb (users db) (campaigns db) (contactDocs db) s.

(** ** Requests and responses *)

(** The values a JSON body field can hold, as far as the handlers
    distinguish them. *)
Inductive JsValue :=
| JUndefined
| JNull
| JBool (b : bool)
| JNumber (n : Q)
| JString (s : string).

Inductive Body :=
| Message (message : string)
| Text (text : string)                                  (* res.send *)
| Token (payloadUserId : ObjectId)                      (* { token } *)
| UserBody (id : ObjectId) (name userRole : string) (userBalance : Q)
| BlocklistBody (numbers : list string)
| ContactsBody (batch : list Contact) (newBalance : Q).

(** [Reply status body]; [NoReply] is a handler without [try/catch] whose
    promise rejected: nothing is sent. *)
Inductive Response :=
| Reply (statusCode : N) (body : Body)
| NoReply.

(** ** Constants *)

Definition CALL_COST : Q := 5 # 100.

(** [0.8], that is the double nearest to it. *)
Definition SPAM_THRESHOLD : float := 0x1.999999999999ap-1.

Definition Qltb (x y : Q) : bool := negb (Qle_bool y x).

(** ** Middleware *)

(** [authMiddleware] verifies the token and sets [req.user]; the handlers
    below take the verified [req.user.id] as their [caller]. *)

Definition adminMiddleware (db : Db) (caller : ObjectId)
    (next : Db * Response) : Db * Response :=
  match users db !! caller with
  | None => (db, Reply 500 (Message "Server error."))    (* user.role on null *)
  | Some u =>
      if String.eqb (role u) "admin" then next
      else (db, Reply 403 (Message "Access denied. Admin role required."))
  end.

(** ** POST /auth/register *)

Record RegisterBody := mkRegisterBody {
  reqUsername : string;
  reqPassword : string;
  reqRole : option string      (* [None]: the field is absent *)
}.

Definition roleEnum : list string := ["user"; "admin"].

Definition usernameTaken (db : Db) (name : string) : bool :=
  bool_decide (map_Exists (fun _ u => username u = name) (users db)).

(** [newId] is the ObjectId the driver generates for the new document; the
    schema's [trim] setter is applied to the username, and validation
    ([required], [enum]) runs in [user.save()]. *)
Definition auth_register (now : Date) (newId : ObjectId) (db : Db)
    (body : RegisterBody) : Db * Response :=
  let name := Js.str (Js.trim (Js.chars (reqUsername body))) in
  if usernameTaken db name then
    (db, Reply 400 (Message "User already exists."))
  else
    let userRole := default "user" (reqRole body) in
    let doc := mkUser name (Bcrypt (reqPassword body)) userRole 0 now in
    if String.eqb name EmptyString then (db, Reply 500 (Text "Server error"))
    else if negb (bool_decide (userRole ∈ roleEnum)) then
      (db, Reply 500 (Text "Server error"))
    else match users db !! newId with
         | Some _ => (db, Reply 500 (Text "Server error"))
         | None => (setUsers (<[newId := doc]> (users db)) db,
                    Reply 200 (Token newId))
         end.

(** ** POST /admin/users/:userId/add-balance *)

(** The handler in exact arithmetic; [Double.add_balance] below is the same
    handler with the sum computed in doubles. *)
Definition add_balance (db : Db) (caller userId : ObjectId)
    (amount : JsValue) : Db * Response :=
  adminMiddleware db caller
    match amount with
    | JNumber a =>
        if Qle_bool a 0 then (db, Reply 400 (Message "Invalid amount."))
        else match users db !! userId with
             | None => (db, Reply 404 (Message "User not found."))
             | Some u =>
                 let u' := setBalance (balance u + a) u in
                 (setUsers (<[userId := u']> (users db)) db,
                  Reply 200 (UserBody userId (username u') (role u') (balance u')))
             end
    | _ => (db, Reply 400 (Message "Invalid amount."))
    end.

(** ** /admin/settings/blocklist *)

(** [$addToSet] with [$each]: every value not yet in the array is appended,
    in order. *)
Definition addToSet (arr : list string) (v : string) : list string :=
  if bool_decide (v ∈ arr) then arr else arr ++ [v].

Definition addToSetEach (arr : list string) (vs : list string) : list string :=
  foldl addToSet arr vs.

(** [$pull]: every element equal to the value is removed. *)
Definition pull (arr : list string) (v : string) : list string :=
  filter (fun x => x ≠ v) arr.

Definition isEmptyString (s : list ascii) : bool :=
  match s with [] => true | _ => false end.

(** [req.body.numbers.split(',').map(n => n.trim()).filter(n => n)] *)
Definition splitNumbers (numbers : string) : list string :=
  Js.str <$> filter (fun n => isEmptyString n = false)
               (Js.trim <$> Js.split "," (Js.chars numbers)).

Definition get_blocklist (db : Db) (caller : ObjectId) : Db * Response :=
  adminMiddleware db caller
    match settings db with
    | None => (db, NoReply)
    | Some l => (db, Reply 200 (BlocklistBody l))
    end.

(** [numbers = None]: the field is absent; the empty string is falsy too.
    The update is an upsert: a missing settings document is created with
    the default empty blocklist. *)
Definition post_blocklist (db : Db) (caller : ObjectId)
    (numbers : option string) : Db * Response :=
  adminMiddleware db caller
    (let numbersToAdd :=
       match numbers with
       | Some s => if String.eqb s EmptyString then [] else splitNumbers s
       | None => []
       end in
     let updated := addToSetEach (default [] (settings db)) numbersToAdd in
     (setSettings (Some updated) db, Reply 200 (BlocklistBody updated))).

Definition delete_blocklist (db : Db) (caller : ObjectId)
    (numberToRemove : string) : Db * Response :=
  adminMiddleware db caller
    match settings db with
    | None => (db, NoReply)
    | Some l =>
        let updated := pull l numberToRemove in
        (setSettings (Some updated) db, Reply 200 (BlocklistBody updated))
    end.

(** ** GET /campaigns/:id/next-contacts/:count *)

(** [Contact.find({ campaign: id, status: 'new' })], in natural order. *)
Definition findNewContacts (db : Db) (id : ObjectId) : list Contact :=
  filter (fun c => campaign c = id ∧ status c = new) (contactDocs db).

(** [cursor.limit(n)]: the first [n] documents; [0] is no limit and a
    negative [n] is treated by the driver as its absolute value. *)
Definition limit {A} (n : Z) (docs : list A) : list A :=
  if n =? 0 then docs else take (Z.abs_nat n) docs.

(** [Campaign.findOne({ _id: id, user: caller })] *)
Definition findOwnedCampaign (db : Db) (id caller : ObjectId) : option Campaign :=
  match campaigns db !! id with
  | Some c => if bool_decide (user c = caller) then Some c else None
  | None => None
  end.

Definition batchSizeOf (count : string) : Z := Js.orDefault (Js.parseInt count) 5.

(** The handler in exact arithmetic; [Double.next_contacts] below is the
    same handler with the cost and the balance computed in doubles. *)
Definition next_contacts (now : Date) (db : Db) (caller id : ObjectId)
    (count : string) : Db * Response :=
  match users db !! caller with
  | None => (db, Reply 500 (Message "Error fetching contacts."))
  | Some u =>
      let batchSize := batchSizeOf count in
      let requiredBalance := (CALL_COST * inject_Z batchSize)%Q in
      if Qltb (balance u) requiredBalance then
        (setCampaigns (alter (setIsActive false) id (campaigns db)) db,
         Reply 402 (Message "Insufficient balance. Campaign paused."))
      else
        match findOwnedCampaign db id caller with
        | None => (db, Reply 404 (Message "Campaign not found or is inactive."))
        | Some c =>
            if negb (isActive c) then
              (db, Reply 404 (Message "Campaign not found or is inactive."))
            else
              let u' := setBalance (balance u - requiredBalance) u in
              let db1 := setUsers (<[caller := u']> (users db)) db in
              let found := limit batchSize (findNewContacts db1 id) in
              match found with
              | [] => (db1, Reply 404 (Message "No new contacts to call."))
              | _ =>
                  let c' := setLastBatchFetchTime now c in
                  (setCampaigns (<[id := c']> (campaigns db1)) db1,
                   Reply 200 (ContactsBody found (balance u')))
              end
        end
  end.

(** The database after the debit of a tick, and after the tick is stamped
    on the campaign. *)
Definition debited (db : Db) (caller : ObjectId) (u : User) (amount : Q) : Db :=
  setUsers (<[caller := setBalance (balance u - amount) u]> (users db)) db.

Definition stamped (db : Db) (id : ObjectId) (c : Campaign) (now : Date) : Db :=
  setCampaigns (<[id := setLastBatchFetchTime now c]> (campaigns db)) db.

(** The five ways through the handler. *)
Inductive NextContactsPath (now : Date) (db : Db) (caller id : ObjectId)
    (count : string) : Db * Response -> Prop :=
| PathNoUser :
    users db !! caller = None ->
    NextContactsPath now db caller id count
      (db, Reply 500 (Message "Error fetching contacts."))
| PathInsufficient u :
    users db !! caller = Some u ->
    (balance u < CALL_COST * inject_Z (batchSizeOf count))%Q ->
    NextContactsPath now db caller id count
      (setCampaigns (alter (setIsActive false) id (campaigns db)) db,
       Reply 402 (Message "Insufficient balance. Campaign paused."))
| PathNoCampaign u :
    users db !! caller = Some u ->
    (CALL_COST * inject_Z (batchSizeOf count) <= balance u)%Q ->
    (forall c, campaigns db !! id = Some c -> user c = caller -> isActive c = false) ->
    NextContactsPath now db caller id count
      (db, Reply 404 (Message "Campaign not found or is inactive."))
| PathNoContacts u c :
    users db !! caller = Some u ->
    (CALL_COST * inject_Z (batchSizeOf count) <= balance u)%Q ->
    campaigns db !! id = Some c -> user c = caller -> isActive c = true ->
    limit (batchSizeOf count) (findNewContacts db id) = [] ->
    NextContactsPath now db caller id count
      (debited db caller u (CALL_COST * inject_Z (batchSizeOf count)),
       Reply 404 (Message "No new contacts to call."))
| PathBatch u c :
    users db !! caller = Some u ->
    (CALL_COST * inject_Z (batchSizeOf count) <= balance u)%Q ->
    campaigns db !! id = Some c -> user c = caller -> isActive c = true ->
    limit (batchSizeOf count) (findNewContacts db id) <> [] ->
    NextContactsPath now db caller id count
      (stamped (debited db caller u (CALL_COST * inject_Z (batchSizeOf count))) id c now,
       Reply 200 (ContactsBody (limit (batchSizeOf count) (findNewContacts db id))
                    (balance u - CALL_COST * inject_Z (batchSizeOf count)))).

(** ** isTextFlagged *)

(** The regular expressions [isTextFlagged] builds are read in a fragment of
    the pattern syntax: the assertion [\b], the wildcard [.] and literal
    characters.  A source with any other syntax character is outside the
    fragment ([None]): it is either a richer pattern or a SyntaxError. *)
Inductive Term :=
| WordBoundary                (* \b *)
| Dot                         (* .  *)
| Char (c : ascii).

Definition backslash : ascii := "092"%char.

(** The two characters of the escape [\b]. *)
Definition wordBoundaryEscape : list ascii := [backslash; "b"%char].

Definition isSyntaxCharacter (c : ascii) : bool :=
  bool_decide (c ∈ Js.chars "^$\.*+?()[]{}|").

Fixpoint parsePattern (src : list ascii) : option (list Term) :=
  match src with
  | [] => Some []
  | c :: rest =>
      if Ascii.eqb c backslash then
        match rest with
        | e :: rest' =>
            if Ascii.eqb e "b" then cons WordBoundary <$> parsePattern rest'
            else None
        | [] => None
        end
      else if Ascii.eqb c "." then cons Dot <$> parsePattern rest
      else if isSyntaxCharacter c then None
      else cons (Char c) <$> parsePattern rest
  end.

(** \w of a non-unicode pattern: [A-Za-z0-9_]. *)
Definition isWordChar (c : ascii) : bool :=
  Js.isDigit c || Js.isUpperAscii c || Js.isLowerAscii c || (Js.code c =? 95)%N.

Definition isWordCharAt (c : option ascii) : bool :=
  match c with Some x => isWordChar x | None => false end.

(** [\b] holds between [prev] and [next] when exactly one is a word
    character; the ends of the input count as non-word. *)
Definition atWordBoundary (prev next : option ascii) : bool :=
  xorb (isWordCharAt prev) (isWordCharAt next).

(** [.] matches everything but a line terminator. *)
Definition isLineTerminator (c : ascii) : bool :=
  (Js.code c =? 10)%N || (Js.code c =? 13)%N.

(** Flag [i]: two characters match when their canonical forms agree. *)
Definition charMatches (pc tc : ascii) : bool :=
  Ascii.eqb (Js.canonicalize pc) (Js.canonicalize tc).

(** Match the terms at the current position; [prev] is the character just
    before it. *)
Fixpoint matchTerms (p : list Term) (prev : option ascii) (s : list ascii) : bool :=
  match p with
  | [] => true
  | WordBoundary :: p' => atWordBoundary prev (head s) && matchTerms p' prev s
  | Dot :: p' =>
      match s with
      | t :: s' => negb (isLineTerminator t) && matchTerms p' (Some t) s'
      | [] => false
      end
  | Char c :: p' =>
      match s with
      | t :: s' => charMatches c t && matchTerms p' (Some t) s'
      | [] => false
      end
  end.

Fixpoint searchFrom (p : list Term) (prev : option ascii) (s : list ascii) : bool :=
  matchTerms p prev s ||
  match s with
  | [] => false
  | t :: s' => searchFrom p (Some t) s'
  end.

(** [regex.test(s)] for a pattern without the [g] or [y] flag. *)
Definition regexTest (p : list Term) (s : list ascii) : bool := searchFrom p None s.

(** [new RegExp(`\\b${blockedWord.trim()}\\b`, 'i')] *)
Definition blockedWordRegExp (blockedWord : string) : option (list Term) :=
  parsePattern (wordBoundaryEscape ++ Js.trim (Js.chars blockedWord) ++ wordBoundaryEscape).

(** The [for ... of] loop over [customBlocklist]. *)
Fixpoint anyBlockedWord (lowerCaseText : list ascii) (customBlocklist : list string)
  : option bool :=
  match customBlocklist with
  | [] => Some false
  | blockedWord :: rest =>
      match blockedWordRegExp blockedWord with
      | None => None
      | Some regex =>
          if regexTest regex lowerCaseText then Some true
          else anyBlockedWord lowerCaseText rest
      end
  end.

(** [data.attributeScores] of a Perspective response; an attribute can be
    missing, and reading its [summaryScore] then throws. *)
Record AttributeScores := mkScores {
  SPAM : option float;
  TOXICITY : option float;
  THREAT : option float
}.

(** What [fetch] and [response.json()] produce: a rejected promise, or a
    response with its [ok] flag and, when the body parses and carries
    [attributeScores], the scores. *)
Inductive FetchResult :=
| FetchRejected
| FetchResponse (ok : bool) (data : option AttributeScores).

(** The three comparisons [value > SPAM_THRESHOLD] joined by [||], left to
    right; [None] is the TypeError of a missing attribute. *)
Definition anyScoreAboveThreshold (scores : AttributeScores) : option bool :=
  match SPAM scores with
  | None => None
  | Some s =>
      if (SPAM_THRESHOLD <? s)%float then Some true
      else match TOXICITY scores with
           | None => None
           | Some t =>
               if (SPAM_THRESHOLD <? t)%float then Some true
               else match THREAT scores with
                    | None => None
                    | Some h => Some (SPAM_THRESHOLD <? h)%float
                    end
           end
  end.

(** The [try] block: [true] when it returns true; every other way out of it
    (not ok, no score above the threshold, an exception) falls through. *)
Definition perspectiveFlags (r : FetchResult) : bool :=
  match r with
  | FetchResponse true (Some scores) =>
      match anyScoreAboveThreshold scores with
      | Some true => true
      | _ => false
      end
  | _ => false
  end.

(** [PERSPECTIVE_API_KEY && PERSPECTIVE_API_KEY !== 'YOUR_GOOGLE_PERSPECTIVE_API_KEY'];
    the key is an environment variable, [None] when unset. *)
Definition perspectiveConfigured (PERSPECTIVE_API_KEY : option string) : bool :=
  match PERSPECTIVE_API_KEY with
  | Some k => negb (String.eqb k EmptyString) &&
              negb (String.eqb k "YOUR_GOOGLE_PERSPECTIVE_API_KEY")
  | None => false
  end.

(** [perspective] is what the request to the Perspective API yields; it is
    consulted only when the key is configured. *)
Definition isTextFlagged (PERSPECTIVE_API_KEY : option string)
    (perspective : FetchResult) (text : string) (customBlocklist : list string)
  : option bool :=
  if perspectiveConfigured PERSPECTIVE_API_KEY && perspectiveFlags perspective
  then Some true
  else anyBlockedWord (Js.toLowerCase (Js.chars text)) customBlocklist.

(** ** Campaign lifecycle *)

Inductive LifecycleState := Active | Paused.

Definition lifecycleState (c : Campaign) : LifecycleState :=
  if isActive c then Active else Paused.

Inductive StartResult :=
| Started
| InsufficientFunds
| StartNotApplicable.         (* unknown campaign or owner, or not paused *)

(** Modelled from the spec: the [Start] transition of the campaign lifecycle
    (section 4.3).  [server.js] has no route that starts a campaign; the
    transition is written from the sentence "Paused -> Active, allowed only
    if the owning account's current balance >= cost of one call; otherwise
    rejected with an insufficient-funds error". *)
Definition Start (db : Db) (id : ObjectId) : Db * StartResult :=
  match campaigns db !! id with
  | None => (db, StartNotApplicable)
  | Some c =>
      match lifecycleState c, users db !! user c with
      | Paused, Some owner =>
          if Qle_bool CALL_COST (balance owner) then
            (setCampaigns (<[id := setIsActive true c]> (campaigns db)) db, Started)
          else (db, InsufficientFunds)
      | _, _ => (db, StartNotApplicable)
      end
  end.

(** ** Sequences of operations *)

(** The two operations that change a balance: a dispatch tick (the debit of
    [next_contacts]) and the administrative top-up (the credit of
    [add_balance]). *)
Inductive LedgerOp :=
| Debit (now : Date) (caller id : ObjectId) (count : string)
| Credit (caller userId : ObjectId) (amount : JsValue).

Definition applyLedgerOp (db : Db) (op : LedgerOp) : Db :=
  match op with
  | Debit now caller id count => fst (next_contacts now db caller id count)
  | Credit caller userId amount => fst (add_balance db caller userId amount)
  end.

(** The databases reached after each operation of [ops], in order. *)
Fixpoint ledgerTrace (db : Db) (ops : list LedgerOp) : list Db :=
  match ops with
  | [] => []
  | op :: ops' => applyLedgerOp db op :: ledgerTrace (applyLedgerOp db op) ops'
  end.

Definition balancesNonNegative (db : Db) : Prop :=
  map_Forall (fun _ u => (0 <= balance u)%Q) (users db).

Inductive BlocklistOp :=
| AddNumbers (caller : ObjectId) (numbers : option string)
| RemoveNumber (caller : ObjectId) (numberToRemove : string).

Definition applyBlocklistOp (db : Db) (op : BlocklistOp) : Db :=
  match op with
  | AddNumbers caller numbers => fst (post_blocklist db caller numbers)
  | RemoveNumber caller n => fst (delete_blocklist db caller n)
  end.

(** The global caller-ID blocklist; it is empty while the settings document
    does not exist. *)
Definition blocklistOf (db : Db) : list string := default [] (settings db).

Definition isAdmin (db : Db) (caller : ObjectId) : Prop :=
  exists u, users db !! caller = Some u /\ role u = "admin".

Definition isErrorResponse (r : Response) : Prop :=
  match r with
  | Reply statusCode _ => (400 <= statusCode)%N
  | NoReply => False
  end.

(** The character before the position reached after reading [l] from a
    position whose previous character is [prev]. *)
Definition lastOr (prev : option ascii) (l : list ascii) : option ascii :=
  match last l with Some x => Some x | None => prev end.

(** ** The moderation rule as the specification words it *)

(** "Case-insensitive": two strings that agree once both are lower-cased. *)
Definition equalIgnoringCase (m w : list ascii) : Prop :=
  Js.toLowerCase m = Js.toLowerCase w.

(** "The text contains a whole-word match of [w]": an occurrence of [w], up
    to letter case, with no word character right before it and none right
    after it. *)
Definition containsWholeWord (text w : string) : Prop :=
  exists pre m post,
    Js.chars text = (pre ++ m ++ post)%list /\
    equalIgnoringCase m (Js.chars w) /\
    isWordCharAt (last pre) = false /\
    isWordCharAt (head post) = false.

(** "The external classifier is configured, responds successfully, and some
    per-category score exceeds 0.8". *)
Definition classifierFlags (PERSPECTIVE_API_KEY : option string) (r : FetchResult) : Prop :=
  perspectiveConfigured PERSPECTIVE_API_KEY = true /\
  exists scores q,
    r = FetchResponse true (Some scores) /\
    (SPAM scores = Some q \/ TOXICITY scores = Some q \/ THREAT scores = Some q) /\
    (SPAM_THRESHOLD <? q)%float = true.

(** A successful response carries all three requested attributes. *)
Definition completeResponse (r : FetchResult) : Prop :=
  forall scores, r = FetchResponse true (Some scores) ->
    is_Some (SPAM scores) /\ is_Some (TOXICITY scores) /\ is_Some (THREAT scores).

(** A blocklist entry that is a word or phrase to be matched literally: it
    begins and ends with a letter, a digit or an underscore and holds no
    character of the pattern syntax. *)
Definition literalWord (w : string) : Prop :=
  isWordCharAt (head (Js.chars w)) = true /\
  isWordCharAt (last (Js.chars w)) = true /\
  Forall (fun c => isSyntaxCharacter c = false) (Js.chars w).

(** ** Example data *)

Definition aliceId : ObjectId := 1%N.
Definition rootId : ObjectId := 2%N.
Definition demoId : ObjectId := 7%N.

(** An ordinary account holding 1.00 and an administrator. *)
Definition alice : User := mkUser "alice" (Bcrypt "secret") "user" 1 0%N.
Definition root : User := mkUser "root" (Bcrypt "secret") "admin" 0 0%N.

(** An active campaign of alice's with the default batch-size policy of 5. *)
Definition demo : Campaign :=
  mkCampaign "demo" aliceId "+15550100" "Hello {name}" 5 60 [] true [] 0%N None.

Definition demoContact (st : ContactStatus) (i : N) : Contact :=
  mkContact (100 + i)%N "contact" (Js.str (Js.chars "+1555010" ++ [ascii_of_N (48 + i)]))
    st EmptyString demoId.

(** The demo campaign with [n] pending contacts and [m] dialled ones. *)
Definition demoDb (n m : nat) : Db :=
  mkDb {[ aliceId := alice; rootId := root ]} {[ demoId := demo ]}
    ((demoContact called <$> (N.of_nat <$> seq 0 m)) ++
     (demoContact new <$> (N.of_nat <$> seq m n)))
    (Some []).

(** The same database with the demo campaign paused, alice holding
    [funds]. *)
Definition pausedDb (funds : Q) : Db :=
  mkDb {[ aliceId := setBalance funds alice; rootId := root ]}
    {[ demoId := setIsActive false demo ]} [] (Some []).

Definition batchOf (r : Response) : list Contact :=
  match r with
  | Reply _ (ContactsBody batch _) => batch
  | _ => []
  end.

(** ** The ledger in double precision *)

(** The two handlers that compute with a balance, embedded once more with
    the [Number]s the program holds: IEEE 754 binary64 values, with their
    rounding, their infinities and NaN.  The collections hold the campaign
    and contact documents of above; an account document carries a [float]
    balance.  The settings document, which the two handlers do not read, is
    left out. *)
Module Double.

(** The [Number] an integer converts to: the nearest double, ties to even,
    and an infinity beyond the largest double.  It is the value of
    [parseInt] for the integer read (ECMAScript lets an implementation
    approximate an integer of more than 20 significant digits; it is
    converted exactly here). *)
Definition ofZ (z : Z) : float := SF2Prim (binary_normalize prec emax z 0 false).

(** The rational a finite double stands for; [None] for NaN and the
    infinities. *)
Definition toQ (x : float) : option Q :=
  match Prim2SF x with
  | S754_zero _ => Some 0%Q
  | S754_finite s m e =>
      Some (inject_Z (if s then Z.neg m else Z.pos m) * Qpower 2 e)%Q
  | _ => None
  end.

(** [0.05], that is the double nearest to it. *)
Definition CALL_COST : float := 0x1.999999999999ap-5.

Record User := mkUser {
  username : string;
  password : PasswordHash;
  role : string;
  balance : float;
  userCreatedAt : Date
}.

Record Db := mkDb {
  users : gmap ObjectId User;
  campaigns : gmap ObjectId Campaign;
  contactDocs : list Contact
}.

Definition setBalance (b : float) (u : User) : User :=
  mkUser (username u) (password u) (role u) b (userCreatedAt u).

Definition setUsers (us : gmap ObjectId User) (db : Db) : Db :=
  mkDb us (campaigns db) (contactDocs db).

Definition setCampaigns (cs : gmap ObjectId Campaign) (db : Db) : Db :=
  mkDb (users db) cs (contactDocs db).

(** A JSON value of the request body; a number is a double, never NaN when
    it comes out of [JSON.parse]. *)
Inductive JsValue :=
| JUndefined
| JNull
| JBool (b : bool)
| JNumber (n : float)
| JString (s : string).

Inductive Body :=
| Message (message : string)
| Text (text : string)
| UserBody (id : ObjectId) (name userRole : string) (userBalance : float)
| ContactsBody (batch : list Contact) (newBalance : float).

Inductive Response := Reply (statusCode : N) (body : Body).

Definition isAdmin (db : Db) (caller : ObjectId) : Prop :=
  exists u, users db !! caller = Some u /\ role u = "admin".

Definition adminMiddleware (db : Db) (caller : ObjectId)
    (next : Db * Response) : Db * Response :=
  match users db !! caller with
  | None => (db, Reply 500 (Message "Server error."))
  | Some u =>
      if String.eqb (role u) "admin" then next
      else (db, Reply 403 (Message "Access denied. Admin role required."))
  end.

(** POST /admin/users/:userId/add-balance.  The guard is
    [typeof amount !== 'number' || amount <= 0]; the update is
    [$inc: { balance: amount }], a double addition in the store.  Mongoose
    refuses to cast NaN for a [$inc], which the handler answers with 500. *)
Definition add_balance (db : Db) (caller userId : ObjectId)
    (amount : JsValue) : Db * Response :=
  adminMiddleware db caller
    match amount with
    | JNumber a =>
        if (a <=? 0)%float then (db, Reply 400 (Message "Invalid amount."))
        else if is_nan a then (db, Reply 500 (Text "Server error"))
        else match users db !! userId with
             | None => (db, Reply 404 (Message "User not found."))
             | Some u =>
                 let u' := setBalance (balance u + a)%float u in
                 (setUsers (<[userId := u']> (users db)) db,
                  Reply 200 (UserBody userId (username u') (role u') (balance u')))
             end
    | _ => (db, Reply 400 (Message "Invalid amount."))
    end.

Definition findNewContacts (db : Db) (id : ObjectId) : list Contact :=
  filter (fun c => campaign c = id ∧ status c = new) (contactDocs db).

Definition findOwnedCampaign (db : Db) (id caller : ObjectId) : option Campaign :=
  match campaigns db !! id with
  | Some c => if bool_decide (user c = caller) then Some c else None
  | None => None
  end.

(** GET /campaigns/:id/next-contacts/:count.  [batchSizeOf count] is the
    integer [parseInt(count, 10) || 5] stands for (a non-zero integer, so
    its double is truthy); the cost and the new balance are computed in
    doubles.  [user.save()] fails validation when the new balance is NaN,
    which a [Number] path does not take: the handler answers 500 and
    nothing is stored.  [limit] is given the integer itself: its double is
    another integer only beyond 2^53, more than a collection holds. *)
Definition next_contacts (now : Date) (db : Db) (caller id : ObjectId)
    (count : string) : Db * Response :=
  match users db !! caller with
  | None => (db, Reply 500 (Message "Error fetching contacts."))
  | Some u =>
      let batchSize := batchSizeOf count in
      let requiredBalance := (CALL_COST * ofZ batchSize)%float in
      if (balance u <? requiredBalance)%float then
        (setCampaigns (alter (setIsActive false) id (campaigns db)) db,
         Reply 402 (Message "Insufficient balance. Campaign paused."))
      else
        match findOwnedCampaign db id caller with
        | None => (db, Reply 404 (Message "Campaign not found or is inactive."))
        | Some c =>
            if negb (isActive c) then
              (db, Reply 404 (Message "Campaign not found or is inactive."))
            else
              let newBalance := (balance u - requiredBalance)%float in
              if is_nan newBalance then
                (db, Reply 500 (Message "Error fetching contacts."))
              else
                let u' := setBalance newBalance u in
                let db1 := setUsers (<[caller := u']> (users db)) db in
                let found := limit batchSize (findNewContacts db1 id) in
                match found with
                | [] => (db1, Reply 404 (Message "No new contacts to call."))
                | _ =>
                    let c' := setLastBatchFetchTime now c in
                    (setCampaigns (<[id := c']> (campaigns db1)) db1,
                     Reply 200 (ContactsBody found (balance u')))
                end
        end
  end.

(** The six ways through the handler. *)
Inductive NextContactsPath (now : Date) (db : Db) (caller id : ObjectId)
    (count : string) : Db * Response -> Prop :=
| PathNoUser :
    users db !! caller = None ->
    NextContactsPath now db caller id count
      (db, Reply 500 (Message "Error fetching contacts."))
| PathInsufficient u :
    users db !! caller = Some u ->
    (balance u <? CALL_COST * ofZ (batchSizeOf count))%float = true ->
    NextContactsPath now db caller id count
      (setCampaigns (alter (setIsActive false) id (campaigns db)) db,
       Reply 402 (Message "Insufficient balance. Campaign paused."))
| PathNoCampaign u :
    users db !! caller = Some u ->
    (balance u <? CALL_COST * ofZ (batchSizeOf count))%float = false ->
    (forall c, campaigns db !! id = Some c -> user c = caller -> isActive c = false) ->
    NextContactsPath now db caller id count
      (db, Reply 404 (Message "Campaign not found or is inactive."))
| PathNotSaved u c :
    users db !! caller = Some u ->
    (balance u <? CALL_COST * ofZ (batchSizeOf count))%float = false ->
    campaigns db !! id = Some c -> user c = caller -> isActive c = true ->
    is_nan (balance u - CALL_COST * ofZ (batchSizeOf count))%float = true ->
    NextContactsPath now db caller id count
      (db, Reply 500 (Message "Error fetching contacts."))
| PathNoContacts u c :
    users db !! caller = Some u ->
    (balance u <? CALL_COST * ofZ (batchSizeOf count))%float = false ->
    campaigns db !! id = Some c -> user c = caller -> isActive c = true ->
    is_nan (balance u - CALL_COST * ofZ (batchSizeOf count))%float = false ->
    limit (batchSizeOf count) (findNewContacts db id) = [] ->
    NextContactsPath now db caller id count
      (setUsers
         (<[caller := setBalance (balance u - CALL_COST * ofZ (batchSizeOf count))%float u]>
            (users db)) db,
       Reply 404 (Message "No new contacts to call."))
| PathBatch u c :
    users db !! caller = Some u ->
    (balance u <? CALL_COST * ofZ (batchSizeOf count))%float = false ->
    campaigns db !! id = Some c -> user c = caller -> isActive c = true ->
    is_nan (balance u - CALL_COST * ofZ (batchSizeOf count))%float = false ->
    limit (batchSizeOf count) (findNewContacts db id) <> [] ->
    NextContactsPath now db caller id count
      (setCampaigns
         (<[id := setLastBatchFetchTime now c]> (campaigns db))
         (setUsers
            (<[caller := setBalance (balance u - CALL_COST * ofZ (batchSizeOf count))%float u]>
               (users db)) db),
       Reply 200 (ContactsBody (limit (batchSizeOf count) (findNewContacts db id))
                    (balance u - CALL_COST * ofZ (batchSizeOf count))%float)).

(** The unpacked form of a double (Rocq's [Prim2SF]) that is zero of
    either sign or positive, and one that is zero of either sign or
    negative; NaN is neither. *)
Definition nonNegative (x : spec_float) : Prop :=
  match x with
  | S754_zero _ => True
  | S754_infinity s | S754_finite s _ _ => s = false
  | S754_nan => False
  end.

Definition nonPositive (x : spec_float) : Prop :=
  match x with
  | S754_zero _ => True
  | S754_infinity s | S754_finite s _ _ => s = true
  | S754_nan => False
  end.

(** An unpacked double that is not NaN and whose sign bit is [s]. *)
Definition signIs (s : bool) (x : spec_float) : Prop :=
  match x with
  | S754_zero s' | S754_infinity s' | S754_finite s' _ _ => s' = s
  | S754_nan => False
  end.

(** The two operations that change a balance, and the databases reached
    after each operation of a sequence. *)
Inductive LedgerOp :=
| Debit (now : Date) (caller id : ObjectId) (count : string)
| Credit (caller userId : ObjectId) (amount : JsValue).

Definition applyLedgerOp (db : Db) (op : LedgerOp) : Db :=
  match op with
  | Debit now caller id count => fst (next_contacts now db caller id count)
  | Credit caller userId amount => fst (add_balance db caller userId amount)
  end.

Fixpoint ledgerTrace (db : Db) (ops : list LedgerOp) : list Db :=
  match ops with
  | [] => []
  | op :: ops' => applyLedgerOp db op :: ledgerTrace (applyLedgerOp db op) ops'
  end.

(** Every balance is a number that is at least 0: not negative and not
    NaN. *)
Definition balancesNonNegative (db : Db) : Prop :=
  map_Forall (fun _ u => (0 <=? balance u)%float = true) (users db).
(** The demo campaign with [n] pending contacts, alice holding [funds]. *)
Definition demoDb (funds : float) (n : nat) : Db :=
  mkDb {[ aliceId := mkUser "alice" (Bcrypt "secret") "user" funds 0%N;
          rootId := mkUser "root" (Bcrypt "secret") "admin" 0%float 0%N ]}
    {[ demoId := demo ]}
    (demoContact new <$> (N.of_nat <$> seq 0 n)).

End Double.

(** ** The routes outside the dispatcher *)

(** What a route sends when it has a body of its own: [Success] carries the
    status and the payload, [Failure] one of the plain responses above. *)
Inductive Answer (A : Type) :=
| Success (statusCode : N) (payload : A)
| Failure (r : Response).
Arguments Success {A} statusCode payload.
Arguments Failure {A} r.

(** [adminMiddleware] as a check: [None] when it calls [next()]. *)
Definition adminCheck (db : Db) (caller : ObjectId) : option Response :=
  match users db !! caller with
  | None => Some (Reply 500 (Message "Server error."))
  | Some u =>
      if String.eqb (role u) "admin" then None
      else Some (Reply 403 (Message "Access denied. Admin role required."))
  end.

(** *** Application startup *)

(** The initialisation of [startServer]: the settings document is created,
    with its default empty blocklist, when there is none. *)
Definition initializeSettings (db : Db) : Db :=
  match settings db with
  | None => setSettings (Some []) db
  | Some _ => db
  end.

(** *** POST /auth/login *)

(** [User.findOne({ username })]; the schema's [trim] setter runs on the
    filter too. *)
Definition findUserByName (db : Db) (name : string) : option (ObjectId * User) :=
  snd <$> list_find (fun p : ObjectId * User => username (snd p) = name)
            (map_to_list (users db)).

(** [bcrypt_compare] stands for [bcrypt.compare]. *)
Definition auth_login (bcrypt_compare : string -> PasswordHash -> bool)
    (db : Db) (reqName reqPass : string) : Response :=
  match findUserByName db (Js.str (Js.trim (Js.chars reqName))) with
  | None => Reply 400 (Message "Invalid credentials.")
  | Some (id, u) =>
      if bcrypt_compare reqPass (password u) then Reply 200 (Token id)
      else Reply 400 (Message "Invalid credentials.")
  end.

(** *** GET /admin/overview *)

Record Overview := mkOverview {
  totalUsers : nat;
  totalCampaigns : nat;
  totalCallsMade : nat        (* contacts whose status is not 'new' *)
}.

Definition callsMade (db : Db) : nat :=
  length (filter (fun c => status c <> new) (contactDocs db)).

Definition admin_overview (db : Db) (caller : ObjectId) : Answer Overview :=
  match adminCheck db caller with
  | Some r => Failure r
  | None => Success 200 (mkOverview (size (users db)) (size (campaigns db)) (callsMade db))
  end.

(** *** GET /admin/users *)

(** A user document without its password ([select('-password')]). *)
Record PublicUser := mkPublicUser {
  publicId : ObjectId;
  publicName : string;
  publicRole : string;
  publicBalance : Q;
  publicCreatedAt : Date
}.

Definition publicUser (p : ObjectId * User) : PublicUser :=
  mkPublicUser (fst p) (username (snd p)) (role (snd p)) (balance (snd p))
    (userCreatedAt (snd p)).

Record UsersPage := mkUsersPage {
  pageUsers : list PublicUser;
  totalPages : Z;
  currentPage : Z
}.

(** [parseInt(req.query.x, 10) || d]; an absent parameter is [undefined],
    which parses to NaN. *)
Definition queryInt (q : option string) (d : Z) : Z :=
  Js.orDefault (q ≫= Js.parseInt) d.

Definition newerFirst (a b : ObjectId * User) : Prop :=
  (userCreatedAt (snd b) <= userCreatedAt (snd a))%N.

#[global] Instance newerFirst_dec a b : Decision (newerFirst a b).
Proof. unfold newerFirst. apply _. Defined.

(** [User.find().sort({ createdAt: -1 })]; users created at the same instant
    come in the order the store yields them. *)
Definition usersNewestFirst (db : Db) : list (ObjectId * User) :=
  merge_sort newerFirst (map_to_list (users db)).

(** The store rejects a negative [skip]; the handler answers 500. *)
Definition admin_users (db : Db) (caller : ObjectId)
    (pageQuery limitQuery : option string) : Answer UsersPage :=
  match adminCheck db caller with
  | Some r => Failure r
  | None =>
      let page := queryInt pageQuery 1 in
      let lim := queryInt limitQuery 5 in
      let skip := (page - 1) * lim in
      let total := Z.of_nat (size (users db)) in
      if skip <? 0 then Failure (Reply 500 (Text "Server error"))
      else
        Success 200
          (mkUsersPage
             (publicUser <$> limit lim (drop (Z.to_nat skip) (usersNewestFirst db)))
             (Qceiling (inject_Z total / inject_Z lim))
             page)
  end.

(** *** GET /campaigns *)

(** [populate('contacts')]: each reference is replaced by its document, in
    the order of the array; a reference without a document is dropped. *)
Definition populate (db : Db) (refs : list ObjectId) : list Contact :=
  omap (fun r => find (fun c => bool_decide (contactId c = r)) (contactDocs db)) refs.

(** [Campaign.find({ user: caller }).populate('contacts')], in the order the
    store yields the campaigns. *)
Definition get_campaigns (db : Db) (caller : ObjectId)
  : list (ObjectId * Campaign * list Contact) :=
  (fun p : ObjectId * Campaign => (p, populate db (contacts (snd p)))) <$>
    filter (fun p : ObjectId * Campaign => user (snd p) = caller)
      (map_to_list (campaigns db)).

(** *** POST /campaigns *)

(** An element of [contactsData].  The handler spreads it into the
    document it inserts ([{ ...c, campaign: campaign._id }]), so every path
    of [contactSchema] the entry sets is stored as given: besides [name] and
    [phoneNumber] these are [status] and [callNotes], [None] when absent (the
    schema default applies).  [campaign] is overwritten by the handler.  An
    entry is taken not to set [_id], and its status, when given, to be one of
    the enumeration. *)
Record ContactData := mkContactData {
  dataName : string;
  dataPhoneNumber : string;
  dataStatus : option ContactStatus;
  dataCallNotes : option string
}.

(** The fields of the request body the handler and the campaign schema
    read; [None] is an absent field.  The body is taken not to set the
    paths [_id], [contacts], [createdAt] and [lastBatchFetchTime]. *)
Record CampaignBody := mkCampaignBody {
  bodyName : string;
  bodyFromNumber : string;
  bodyTtsMessage : string;
  bodyContactsData : option (list ContactData);
  bodyCustomBlocklist : option string;
  bodyCallsPerMinute : option Z;
  bodyBatchDelaySeconds : option Z;
  bodyIsActive : option bool
}.

(** An entry that gives a name and a phone number and nothing else. *)
Definition plainContact (name phone : string) : ContactData :=
  mkContactData name phone None None.

Definition setContactDocs (docs : list Contact) (db : Db) : Db :=
  mkDb (users db) (campaigns db) docs (settings db).

Definition setContacts (refs : list ObjectId) (c : Campaign) : Campaign :=
  mkCampaign (campaignName c) (user c) (fromNumber c) (ttsMessage c)
    (callsPerMinute c) (batchDelaySeconds c) (customBlocklist c) (isActive c)
    refs (campaignCreatedAt c) (lastBatchFetchTime c).

(** [customBlocklist.split(',').map(w => w.trim().toLowerCase()).filter(Boolean)] *)
Definition blocklistArrayOf (customBlocklist : option string) : list string :=
  match customBlocklist with
  | Some s =>
      if String.eqb s EmptyString then []
      else Js.str <$> filter (fun w => isEmptyString w = false)
                        ((fun w => Js.toLowerCase (Js.trim w)) <$> Js.split "," (Js.chars s))
  | None => []
  end.

Definition nonEmpty (s : string) : bool := negb (String.eqb s EmptyString).

(** The validators of [campaignSchema] that can fail for such a body. *)
Definition validCampaign (c : Campaign) : bool :=
  nonEmpty (campaignName c) && nonEmpty (fromNumber c) && nonEmpty (ttsMessage c)
  && (1 <=? callsPerMinute c) && (callsPerMinute c <=? 100)
  && (0 <=? batchDelaySeconds c).

Definition validContact (c : Contact) : bool :=
  nonEmpty (contactName c) && nonEmpty (phoneNumber c).

(** The unique index on [(phoneNumber, campaign)]. *)
Definition duplicateKey (coll : list Contact) (c : Contact) : bool :=
  bool_decide (Exists (fun d => phoneNumber d = phoneNumber c /\ campaign d = campaign c) coll).

(** The unordered bulk insert behind [insertMany(docs, { ordered: false })]:
    every document is tried in turn; one that violates the unique index is
    left out and the error is reported once all have been tried.  The result
    is the collection, the documents inserted and whether there was an
    error. *)
Fixpoint insertUnordered (coll docs : list Contact) : list Contact * list Contact * bool :=
  match docs with
  | [] => (coll, [], false)
  | d :: ds =>
      if duplicateKey coll d then
        let '(coll', inserted, _) := insertUnordered coll ds in (coll', inserted, true)
      else
        let '(coll', inserted, e) := insertUnordered (coll ++ [d]) ds in
        (coll', d :: inserted, e)
  end.

Definition creationError (statusCode : N) : Answer (ObjectId * Campaign) :=
  Failure (Reply statusCode (Message "Error creating campaign.")).

(** The document inserted for the [i]-th element of [contactsData]. *)
Definition contactDocument (newId : ObjectId) (contactIdOf : nat -> ObjectId)
    (i : nat) (d : ContactData) : Contact :=
  mkContact (contactIdOf i) (dataName d) (dataPhoneNumber d)
    (default new (dataStatus d)) (default EmptyString (dataCallNotes d)) newId.

(** The documents a creation request submits to the bulk insert: with
    [ordered: false] Mongoose leaves out those that fail validation. *)
Definition submittedContacts (newId : ObjectId) (contactIdOf : nat -> ObjectId)
    (data : list ContactData) : list Contact :=
  filter (fun d => validContact d = true) (imap (contactDocument newId contactIdOf) data).

(** What [await isTextFlagged(ttsMessage, blocklistArray)] comes to in the
    handler: it returns true, it returns false, or it throws - the
    SyntaxError of [new RegExp] for an entry that is no pattern. *)
Inductive Moderation := Flagged | NotFlagged | Thrown.

(** The handler from the moderation verdict on.  [newId] and [contactIdOf i]
    are the ObjectIds generated for the campaign and for the [i]-th element
    of [contactsData]. *)
Definition create_campaign_after (verdict : Moderation) (now : Date) (newId : ObjectId)
    (contactIdOf : nat -> ObjectId) (db : Db) (caller : ObjectId)
    (body : CampaignBody) : Db * Answer (ObjectId * Campaign) :=
  match verdict with
  | Thrown => (db, creationError 500)
  | Flagged => (db, Failure (Reply 400 (Message "Message content flagged.")))
  | NotFlagged =>
      if bool_decide (bodyFromNumber body ∈ blocklistOf db) then
        (db, Failure (Reply 403 (Message "This From Number is blocked.")))
      else
        let c := mkCampaign (bodyName body) caller (bodyFromNumber body)
                   (bodyTtsMessage body) (default 5 (bodyCallsPerMinute body))
                   (default 60 (bodyBatchDelaySeconds body))
                   (blocklistArrayOf (bodyCustomBlocklist body))
                   (default false (bodyIsActive body)) [] now None in
        if negb (validCampaign c) then (db, creationError 500)
        else match campaigns db !! newId with
             | Some _ => (db, creationError 409)
             | None =>
                 let db1 := setCampaigns (<[newId := c]> (campaigns db)) db in
                 match bodyContactsData body with
                 | None => (db1, creationError 500)
                 | Some data =>
                     let '(coll, inserted, failed) :=
                       insertUnordered (contactDocs db1)
                         (submittedContacts newId contactIdOf data) in
                     let db2 := setContactDocs coll db1 in
                     if failed then (db2, creationError 409)
                     else
                       let c' := setContacts (contactId <$> inserted) c in
                       (setCampaigns (<[newId := c']> (campaigns db2)) db2,
                        Success 201 (newId, c'))
                 end
             end
  end.

(** The route with the verdict computed by [isTextFlagged].  The result is
    [None] when [isTextFlagged] is, that is when an entry of the custom
    blocklist is outside the pattern fragment. *)
Definition create_campaign (PERSPECTIVE_API_KEY : option string)
    (perspective : FetchResult) (now : Date) (newId : ObjectId)
    (contactIdOf : nat -> ObjectId) (db : Db) (caller : ObjectId)
    (body : CampaignBody) : option (Db * Answer (ObjectId * Campaign)) :=
  let blocklistArray := blocklistArrayOf (bodyCustomBlocklist body) in
  match isTextFlagged PERSPECTIVE_API_KEY perspective (bodyTtsMessage body) blocklistArray with
  | None => None
  | Some true => Some (create_campaign_after Flagged now newId contactIdOf db caller body)
  | Some false => Some (create_campaign_after NotFlagged now newId contactIdOf db caller body)
  end.

(** The verdict for every request: that of [isTextFlagged] where the custom
    blocklist is inside the pattern fragment, and otherwise [outside], which
    stands for whatever the engine makes of the remaining entries. *)
Definition moderation (PERSPECTIVE_API_KEY : option string) (perspective : FetchResult)
    (body : CampaignBody) (outside : Moderation) : Moderation :=
  match isTextFlagged PERSPECTIVE_API_KEY perspective (bodyTtsMessage body)
          (blocklistArrayOf (bodyCustomBlocklist body)) with
  | Some true => Flagged
  | Some false => NotFlagged
  | None => outside
  end.

(** *** All the routes that write *)

Inductive ApiOp :=
| OpRegister (now : Date) (newId : ObjectId) (body : RegisterBody)
| OpAddBalance (caller userId : ObjectId) (amount : JsValue)
| OpBlocklistAdd (caller : ObjectId) (numbers : option string)
| OpBlocklistRemove (caller : ObjectId) (numberToRemove : string)
| OpCreateCampaign (key : option string) (perspective : FetchResult)
    (outside : Moderation) (now : Date) (newId : ObjectId)
    (contactIdOf : nat -> ObjectId) (caller : ObjectId) (body : CampaignBody)
| OpNextContacts (now : Date) (caller id : ObjectId) (count : string).

(** The database after a request. *)
Definition applyApiOp (db : Db) (op : ApiOp) : Db :=
  match op with
  | OpRegister now newId body => fst (auth_register now newId db body)
  | OpAddBalance caller userId amount => fst (add_balance db caller userId amount)
  | OpBlocklistAdd caller numbers => fst (post_blocklist db caller numbers)
  | OpBlocklistRemove caller n => fst (delete_blocklist db caller n)
  | OpCreateCampaign key perspective outside now newId contactIdOf caller body =>
      fst (create_campaign_after (moderation key perspective body outside)
             now newId contactIdOf db caller body)
  | OpNextContacts now caller id count => fst (next_contacts now db caller id count)
  end.

(** The database after a sequence of requests, served one after the other. *)
Definition runApiOps (db : Db) (ops : list ApiOp) : Db := foldl applyApiOp db ops.

Definition isCreation (op : ApiOp) : bool :=
  match op with
  | OpCreateCampaign _ _ _ _ _ _ _ _ => true
  | _ => false
  end.

(** A creation request whose one contact is submitted with the status
    'called', and the same request with a custom blocklist that holds an
    entry outside the pattern fragment: the asterisk of [f*ck]. *)
Definition calledBody : CampaignBody :=
  mkCampaignBody "spring" "+15550199" "Hello {name}"
    (Some [mkContactData "Ann" "+1" (Some called) None]) None None None (Some true).

Definition starredBody : CampaignBody :=
  mkCampaignBody "spring" "+15550199" "Hello {name}"
    (Some [mkContactData "Ann" "+1" (Some called) None]) (Some "f*ck") None None (Some true).

(** *** Predicates on databases *)

(** No two accounts share a username (the unique index of the schema). *)
Definition usernamesUnique (db : Db) : Prop :=
  forall i j u v,
    users db !! i = Some u -> users db !! j = Some v ->
    username u = username v -> i = j.

(** Two versions of an account that differ at most in the balance. *)
Definition sameIdentity (u u' : User) : Prop :=
  username u' = username u /\ password u' = password u /\ role u' = role u
  /\ userCreatedAt u' = userCreatedAt u.

(** Two versions of a campaign that differ at most in [isActive] and
    [lastBatchFetchTime]. *)
Definition sameCampaignData (c c' : Campaign) : Prop :=
  campaignName c' = campaignName c /\ user c' = user c
  /\ fromNumber c' = fromNumber c /\ ttsMessage c' = ttsMessage c
  /\ callsPerMinute c' = callsPerMinute c
  /\ batchDelaySeconds c' = batchDelaySeconds c
  /\ customBlocklist c' = customBlocklist c /\ contacts c' = contacts c
  /\ campaignCreatedAt c' = campaignCreatedAt c.

(** The campaign [id] is on record and inactive. *)
Definition inactiveCampaign (db : Db) (id : ObjectId) : Prop :=
  exists c, campaigns db !! id = Some c /\ isActive c = false.

Definition answersWithBatch (r : Response) : Prop :=
  exists batch newBalance, r = Reply 200 (ContactsBody batch newBalance).

(** What a request can do to the data that is already there: accounts and
    campaigns stay on record, keeping everything but the balance and,
    respectively, the two dispatch fields; no campaign turns active; contacts
    are only appended; the settings document is not removed. *)
Definition evolves (db db' : Db) : Prop :=
  (forall i u, users db !! i = Some u ->
     exists u', users db' !! i = Some u' /\ sameIdentity u u')
  /\ (forall i c, campaigns db !! i = Some c ->
        exists c', campaigns db' !! i = Some c' /\ sameCampaignData c c'
                   /\ (isActive c' = true -> isActive c = true))
  /\ (exists added, contactDocs db' = contactDocs db ++ added)
  /\ (is_Some (settings db) -> is_Some (settings db')).

(** The key of the unique index of the contact collection. *)
Definition contactKey (c : Contact) : string * ObjectId := (phoneNumber c, campaign c).

(** * Properties *)

(** ** Arithmetic on balances *)

Lemma Qltb_true x y : Qltb x y = true <-> (x < y)%Q.
Proof.
  unfold Qltb. rewrite negb_true_iff, <- not_true_iff_false, Qle_bool_iff.
  split; [apply Qnot_le_lt | apply Qlt_not_le].
Qed.

Lemma Qltb_false x y : Qltb x y = false <-> (y <= x)%Q.
Proof. unfold Qltb. rewrite negb_false_iff. apply Qle_bool_iff. Qed.

Lemma Qle_bool_false x y : Qle_bool x y = false <-> (y < x)%Q.
Proof.
  rewrite <- not_true_iff_false, Qle_bool_iff.
  split; [apply Qnot_le_lt | apply Qlt_not_le].
Qed.

(** ** The admin middleware *)

Lemma adminMiddleware_admin db caller next :
  isAdmin db caller -> adminMiddleware db caller next = next.
Proof.
  intros (u & Hu & Hr). unfold adminMiddleware. rewrite Hu, Hr. reflexivity.
Qed.

Lemma adminMiddleware_cases db caller next :
  adminMiddleware db caller next = next \/ fst (adminMiddleware db caller next) = db.
Proof.
  unfold adminMiddleware. destruct (users db !! caller) as [u|]; [|by right].
  destruct (String.eqb (role u) "admin"); [by left | by right].
Qed.

(** ** Number Policy Guard: the global blocklist *)

Section Blocklist.

Implicit Types (arr vs : list string) (v : string).

Lemma addToSet_present arr v : v ∈ arr -> addToSet arr v = arr.
Proof. intros Hin. unfold addToSet. by rewrite bool_decide_eq_true_2. Qed.

Lemma addToSet_NoDup arr v : NoDup arr -> NoDup (addToSet arr v).
Proof.
  intros Hnd. unfold addToSet. case_bool_decide as Hin; [done|].
  apply NoDup_app. split; [done|]. split.
  - intros x Hx Hx'. apply list_elem_of_singleton in Hx'. by subst.
  - apply NoDup_singleton.
Qed.

Lemma addToSetEach_present arr vs :
  Forall (fun v => v ∈ arr) vs -> addToSetEach arr vs = arr.
Proof.
  unfold addToSetEach. induction 1 as [|v vs Hv _ IH]; simpl; [done|].
  by rewrite addToSet_present.
Qed.

Lemma addToSetEach_NoDup arr vs : NoDup arr -> NoDup (addToSetEach arr vs).
Proof.
  unfold addToSetEach. revert arr.
  induction vs as [|v vs IH]; intros arr Hnd; simpl; [done|].
  apply IH. by apply addToSet_NoDup.
Qed.

Lemma pull_NoDup arr v : NoDup arr -> NoDup (pull arr v).
Proof. intros Hnd. unfold pull. by apply NoDup_filter. Qed.

Lemma applyBlocklistOp_NoDup db op :
  NoDup (blocklistOf db) -> NoDup (blocklistOf (applyBlocklistOp db op)).
Proof.
  intros Hnd. destruct op as [caller numbers | caller n]; simpl.
  - unfold post_blocklist.
    match goal with |- context [adminMiddleware db caller ?k] =>
      destruct (adminMiddleware_cases db caller k) as [-> | ->] end; [|done].
    simpl. by apply addToSetEach_NoDup.
  - unfold delete_blocklist.
    match goal with |- context [adminMiddleware db caller ?k] =>
      destruct (adminMiddleware_cases db caller k) as [-> | ->] end; [|done].
    unfold blocklistOf in *. destruct (settings db) as [l|] eqn:Hs; simpl in *.
    + by apply pull_NoDup.
    + by rewrite Hs.
Qed.

End Blocklist.

(** C9.  Adding to the global caller-ID blocklist is idempotent.  (1) A
    request whose numbers are all present already leaves the blocklist as it
    is.  (2) Whatever additions and removals are applied, a blocklist
    without duplicates stays without duplicates; the blocklist starts empty,
    so it never holds a duplicate.  (3) Adding one number twice, by an admin,
    to an empty blocklist yields a blocklist of size 1. *)
Theorem blocklist_add_idempotent :
  (forall db caller numbers,
     Forall (fun n => n ∈ blocklistOf db) (from_option splitNumbers [] numbers) ->
     blocklistOf (fst (post_blocklist db caller numbers)) = blocklistOf db)
  /\ (forall ops db,
        NoDup (blocklistOf db) -> NoDup (blocklistOf (foldl applyBlocklistOp db ops)))
  /\ (forall db caller numbers n,
        isAdmin db caller -> blocklistOf db = [] -> splitNumbers numbers = [n] ->
        let db1 := fst (post_blocklist db caller (Some numbers)) in
        let db2 := fst (post_blocklist db1 caller (Some numbers)) in
        blocklistOf db1 = [n] /\ blocklistOf db2 = [n] /\ length (blocklistOf db2) = 1%nat).
Proof.
  split; [|split].
  - intros db caller numbers Hall. unfold post_blocklist.
    match goal with |- context [adminMiddleware db caller ?k] =>
      destruct (adminMiddleware_cases db caller k) as [-> | ->] end; [|done].
    simpl. fold (blocklistOf db). apply addToSetEach_present.
    destruct numbers as [s|]; simpl in *; [|constructor].
    destruct (String.eqb s EmptyString); [constructor | done].
  - induction ops as [|op ops IH]; intros db Hnd; simpl; [done|].
    apply IH. by apply applyBlocklistOp_NoDup.
  - intros db caller numbers n Hadm Hempty Hsplit db1 db2.
    assert (Hne : String.eqb numbers EmptyString = false).
    { destruct numbers; [|reflexivity]. vm_compute in Hsplit. discriminate. }
    assert (H1 : blocklistOf db1 = [n]).
    { subst db1. unfold post_blocklist. rewrite adminMiddleware_admin by done.
      simpl. fold (blocklistOf db). by rewrite Hempty, Hne, Hsplit. }
    assert (Hadm1 : isAdmin db1 caller).
    { subst db1. unfold post_blocklist. by rewrite adminMiddleware_admin by done. }
    assert (H2 : blocklistOf db2 = [n]).
    { subst db2. unfold post_blocklist at 1. rewrite adminMiddleware_admin by done.
      simpl. fold (blocklistOf db1). rewrite H1, Hne, Hsplit.
      unfold addToSetEach; simpl. apply addToSet_present. by left. }
    by rewrite H2.
Qed.

Lemma blocklist_add_idempotent_witness :
  blocklistOf (fst (post_blocklist
                      (fst (post_blocklist (demoDb 0 0) rootId (Some "+15550100")))
                      rootId (Some "+15550100"))) = ["+15550100"]
  /\ length (blocklistOf (fst (post_blocklist
                      (fst (post_blocklist (demoDb 0 0) rootId (Some "+15550100")))
                      rootId (Some "+15550100")))) = 1%nat.
Proof.
  assert (Hadm : isAdmin (demoDb 0 0) rootId) by (exists root; split; reflexivity).
  assert (Hempty : blocklistOf (demoDb 0 0) = []) by reflexivity.
  assert (Hsplit : splitNumbers "+15550100" = ["+15550100"]) by reflexivity.
  exact (proj2 (proj2 (proj2 blocklist_add_idempotent) (demoDb 0 0) rootId
                  "+15550100" "+15550100" Hadm Hempty Hsplit)).
Defined.

(** ** Double precision: signs through rounding *)

Section Rounding.

Lemma shr_1_nonneg mrs : 0 <= shr_m mrs -> 0 <= shr_m (shr_1 mrs).
Proof. destruct mrs as [[|[p|p|]|[p|p|]] r s]; simpl; lia. Qed.

Lemma iter_pos_shr_1_nonneg p mrs :
  0 <= shr_m mrs -> 0 <= shr_m (SpecFloat.iter_pos shr_1 p mrs).
Proof.
  revert mrs. induction p as [p IH|p IH|]; intros mrs Hm; simpl.
  - apply IH, IH. by apply shr_1_nonneg.
  - by apply IH, IH.
  - by apply shr_1_nonneg.
Qed.

Lemma shr_fexp_nonneg m e l : 0 <= m -> 0 <= shr_m (fst (shr_fexp prec emax m e l)).
Proof.
  intros Hm. unfold shr_fexp, shr.
  assert (H0 : 0 <= shr_m (shr_record_of_loc m l)) by (destruct l as [|[]]; done).
  destruct (fexp prec emax (Zdigits2 m + e) - e); simpl; [done| |done].
  by apply iter_pos_shr_1_nonneg.
Qed.

Lemma round_nearest_even_nonneg m l : 0 <= m -> 0 <= round_nearest_even m l.
Proof.
  intros Hm. unfold round_nearest_even. destruct l as [|[]]; try lia.
  destruct (IntDef.Z.even m); lia.
Qed.

(** Rounding keeps the sign and never yields NaN. *)
Lemma binary_round_aux_sign s m e l :
  0 <= m -> Double.signIs s (binary_round_aux prec emax s m e l).
Proof.
  intros Hm. unfold binary_round_aux.
  pose proof (shr_fexp_nonneg m e l Hm) as H1.
  destruct (shr_fexp prec emax m e l) as [mrs' e']. simpl in H1.
  pose proof (shr_fexp_nonneg _ e' loc_Exact
                (round_nearest_even_nonneg _ (loc_of_shr_record mrs') H1)) as H2.
  destruct (shr_fexp prec emax _ e' loc_Exact) as [mrs'' e'']. simpl in H2.
  destruct (shr_m mrs'') as [|p|p]; [done| |lia].
  by destruct (e'' <=? emax - prec).
Qed.

Lemma binary_round_sign s m e : Double.signIs s (binary_round prec emax s m e).
Proof.
  unfold binary_round. destruct (shl_align m e _) as [mz ez].
  by apply binary_round_aux_sign.
Qed.

Lemma signIs_false_nonNegative x : Double.signIs false x -> Double.nonNegative x.
Proof. by destruct x. Qed.

Lemma signIs_true_nonPositive x : Double.signIs true x -> Double.nonPositive x.
Proof. by destruct x. Qed.

Lemma binary_normalize_nonNegative z e :
  0 <= z -> Double.nonNegative (binary_normalize prec emax z e false).
Proof.
  destruct z as [|p|p]; [done | intros _ | lia].
  apply signIs_false_nonNegative, binary_round_sign.
Qed.

Lemma binary_normalize_nonPositive z e :
  z <= 0 -> Double.nonPositive (binary_normalize prec emax z e false).
Proof.
  destruct z as [|p|p]; [done | lia | intros _].
  apply signIs_true_nonPositive, binary_round_sign.
Qed.

Lemma SFldexp_nonNegative x e :
  Double.nonNegative x -> Double.nonNegative (SFldexp prec emax x e).
Proof.
  destruct x as [s|s| |s m ex]; simpl; try done. intros ->.
  apply signIs_false_nonNegative, binary_round_sign.
Qed.

Lemma SFopp_nonNegative x : Double.nonNegative x -> Double.nonPositive (SFopp x).
Proof. destruct x as [s|s| |s m e]; simpl; try done; by intros ->. Qed.

Lemma Prim2SF_ldexp_of_uint63 i e :
  Double.nonNegative (Prim2SF (Z.ldexp (of_uint63 i) e)).
Proof.
  unfold Z.ldexp. rewrite ldshiftexp_spec, of_uint63_spec.
  apply SFldexp_nonNegative, binary_normalize_nonNegative, Uint63.to_Z_bounded.
Qed.

(** The double of a negative integer is not positive. *)
Lemma ofZ_nonPositive z : z <= 0 -> Double.nonPositive (Prim2SF (Double.ofZ z)).
Proof.
  intros Hz. unfold Double.ofZ.
  pose proof (binary_normalize_nonPositive z 0 Hz) as H.
  destruct (binary_normalize prec emax z 0 false) as [[]|s| |s m e]; simpl in H; try done.
  - subst s. reflexivity.
  - subst s. cbn [SF2Prim]. rewrite opp_spec.
    apply SFopp_nonNegative, Prim2SF_ldexp_of_uint63.
Qed.

(** The cost of a batch of negative size is not positive. *)
Lemma cost_nonPositive y :
  Double.nonPositive (Prim2SF y) ->
  Double.nonPositive (Prim2SF (Double.CALL_COST * y)%float).
Proof.
  intros Hy. rewrite mul_spec.
  change (Prim2SF Double.CALL_COST) with (S754_finite false 7205759403792794 (-57)).
  destruct (Prim2SF y) as [s|s| |s m e]; simpl in *; try done.
  subst s. apply signIs_true_nonPositive, binary_round_aux_sign. done.
Qed.

Lemma nonNegative_leb x : (0 <=? x)%float = true <-> Double.nonNegative (Prim2SF x).
Proof.
  rewrite leb_spec. change (Prim2SF 0) with (S754_zero false).
  destruct (Prim2SF x) as [s|[]| |[] m e]; simpl; split; done.
Qed.

Lemma nonPositive_leb x : Double.nonPositive (Prim2SF x) -> (x <=? 0)%float = true.
Proof.
  rewrite leb_spec. change (Prim2SF 0) with (S754_zero false).
  destruct (Prim2SF x) as [s|[]| |[] m e]; simpl; done.
Qed.

Lemma SFcompare_refl x : x <> S754_nan -> SFcompare x x = Some Eq.
Proof.
  destruct x as [s|[]| |[] m e]; simpl; try done; intros _.
  - by rewrite Z.compare_refl, Pos.compare_cont_refl.
  - by rewrite Z.compare_refl, Pos.compare_cont_refl.
Qed.

Lemma nonNegative_not_nan x : Double.nonNegative (Prim2SF x) -> is_nan x = false.
Proof.
  intros Hx. unfold is_nan. rewrite FloatAxioms.eqb_spec. unfold SFeqb.
  rewrite SFcompare_refl; [done|]. intros Hnan. by rewrite Hnan in Hx.
Qed.

(** A balance that is not negative is never below a cost that is not
    positive: the funds check lets the request through. *)
Lemma funds_cover_nonPositive_cost b c :
  Double.nonNegative (Prim2SF b) -> Double.nonPositive (Prim2SF c) ->
  (b <? c)%float = false.
Proof.
  rewrite ltb_spec.
  destruct (Prim2SF b) as [sb|sb| |sb mb eb], (Prim2SF c) as [sc|sc| |sc mc ec];
    simpl; intros Hb Hc; try done; subst; done.
Qed.

(** Subtracting a cost that is not positive from a balance that is not
    negative gives a balance that is not negative - in particular it is not
    NaN. *)
Lemma sub_nonNegative b c :
  Double.nonNegative (Prim2SF b) -> Double.nonPositive (Prim2SF c) ->
  Double.nonNegative (Prim2SF (b - c)%float).
Proof.
  rewrite sub_spec.
  destruct (Prim2SF b) as [sb|sb| |sb mb eb], (Prim2SF c) as [sc|sc| |sc mc ec];
    simpl; intros Hb Hc; try done; subst; try done.
  - by destruct sb, sc.
  - apply binary_normalize_nonNegative. unfold cond_Zopp. lia.
Qed.

(** A positive amount passes the guard of the top-up, and is not NaN. *)
Lemma positive_amount a :
  (0 <? a)%float = true -> (a <=? 0)%float = false /\ is_nan a = false.
Proof.
  rewrite ltb_spec, leb_spec. unfold is_nan. rewrite FloatAxioms.eqb_spec.
  change (Prim2SF 0) with (S754_zero false). unfold SFltb, SFleb, SFeqb.
  destruct (Prim2SF a) as [s|[]| |[] m e] eqn:Ha; simpl; try done; intros _.
  by rewrite Z.compare_refl, Pos.compare_cont_refl.
Qed.

Lemma digits2_pos_bounds m :
  2 ^ (Z.pos (digits2_pos m) - 1) <= Z.pos m < 2 ^ Z.pos (digits2_pos m).
Proof.
  induction m as [p IH|p IH|]; simpl digits2_pos.
  - rewrite Pos2Z.inj_succ, Z.pow_succ_r by lia.
    replace (Z.succ (Z.pos (digits2_pos p)) - 1) with (Z.succ (Z.pos (digits2_pos p) - 1)) by lia.
    rewrite Z.pow_succ_r by lia. lia.
  - rewrite Pos2Z.inj_succ, Z.pow_succ_r by lia.
    replace (Z.succ (Z.pos (digits2_pos p)) - 1) with (Z.succ (Z.pos (digits2_pos p) - 1)) by lia.
    rewrite Z.pow_succ_r by lia. lia.
  - simpl. lia.
Qed.

Lemma iter_xO m d : Z.pos (Pos.iter xO m d) = Z.pos m * 2 ^ Z.pos d.
Proof.
  induction d as [|d IH] using Pos.peano_ind.
  - simpl. lia.
  - rewrite Pos.iter_succ, Pos2Z.inj_succ, Z.pow_succ_r by lia.
    rewrite Pos2Z.inj_xO, IH. ring.
Qed.

(** What validity says of the mantissa of a finite double: it has at most
    53 binary digits, and exactly 53 above the least exponent. *)
Lemma valid_mantissa s m e :
  valid_binary (S754_finite s m e) = true ->
  Z.pos m < 2 ^ 53 /\ emin <= e /\ (emin < e -> 2 ^ 52 <= Z.pos m).
Proof.
  unfold valid_binary, bounded, canonical_mantissa, fexp.
  intros [Hcanon _]%andb_true_iff. apply Z.eqb_eq in Hcanon.
  pose proof (digits2_pos_bounds m) as [Hlo Hhi].
  change emin with (-1074) in *. change prec with 53 in *. change emax with 1024 in *.
  assert (Hd : Z.pos (digits2_pos m) <= 53) by lia.
  split; [|split].
  - eapply Z.lt_le_trans; [exact Hhi|]. apply Z.pow_le_mono_r; lia.
  - lia.
  - intros He. assert (Z.pos (digits2_pos m) = 53) as Hd53 by lia.
    rewrite Hd53 in Hlo. exact Hlo.
Qed.

Lemma SFltb_false_finite mb eb mc ec :
  valid_binary (S754_finite false mb eb) = true ->
  valid_binary (S754_finite false mc ec) = true ->
  SFltb (S754_finite false mb eb) (S754_finite false mc ec) = false ->
  0 <= Z.pos (fst (shl_align mb eb (Z.min eb ec)))
       - Z.pos (fst (shl_align mc ec (Z.min eb ec))).
Proof.
  intros Hb Hc. apply valid_mantissa in Hb as (Hb53 & Hbmin & Hb52).
  apply valid_mantissa in Hc as (Hc53 & Hcmin & Hc52).
  unfold SFltb, SFcompare, shl_align.
  destruct (Z.compare_spec eb ec) as [-> | Hlt | Hgt]; [| discriminate |].
  - rewrite Z.min_id, Z.sub_diag. simpl.
    change (PosDef.Pos.compare_cont Eq mb mc) with (Pos.compare mb mc).
    destruct (Pos.compare_spec mb mc); [lia | discriminate | lia].
  - intros _. rewrite Z.min_r by lia. rewrite Z.sub_diag.
    destruct (ec - eb) as [|d|d] eqn:Hd; [lia | lia |]. simpl.
    change (PosDef.Pos.iter xO mb d) with (Pos.iter xO mb d). rewrite iter_xO.
    specialize (Hb52 ltac:(lia)).
    assert (2 <= 2 ^ Z.pos d).
    { change 2 with (2 ^ 1) at 1. apply Z.pow_le_mono_r; lia. }
    change (2 ^ 53) with (2 ^ 52 * 2) in Hc53. nia.
Qed.

(** A balance that is not negative and not below the cost stays not
    negative when the cost is taken off, unless the difference is NaN. *)
Lemma debit_nonNegative b c :
  Double.nonNegative (Prim2SF b) ->
  (b <? c)%float = false ->
  is_nan (b - c)%float = false ->
  Double.nonNegative (Prim2SF (b - c)%float).
Proof.
  intros Hb Hlt Hnan.
  assert (Hnot : Prim2SF (b - c)%float <> S754_nan).
  { intros H. unfold is_nan in Hnan. rewrite FloatAxioms.eqb_spec, H in Hnan. discriminate. }
  rewrite ltb_spec in Hlt. rewrite sub_spec in *.
  pose proof (Prim2SF_valid b) as Hvb. pose proof (Prim2SF_valid c) as Hvc.
  destruct (Prim2SF b) as [sb|sb| |sb mb eb], (Prim2SF c) as [sc|sc| |sc mc ec];
    simpl in Hb; try done; subst; simpl in *; try done.
  - by destruct sb, sc.
  - by destruct sc.
  - by destruct sc.
  - by destruct sc.
  - by destruct sc.
  - destruct sc.
    + apply binary_normalize_nonNegative. unfold cond_Zopp. lia.
    + apply binary_normalize_nonNegative. unfold cond_Zopp.
      by apply SFltb_false_finite.
Qed.

Lemma credit_nonNegative b a :
  Double.nonNegative (Prim2SF b) ->
  (a <=? 0)%float = false -> is_nan a = false ->
  Double.nonNegative (Prim2SF (b + a)%float).
Proof.
  intros Hb Hle Hnan. rewrite leb_spec in Hle. unfold is_nan in Hnan.
  rewrite FloatAxioms.eqb_spec in Hnan. rewrite add_spec.
  change (Prim2SF 0) with (S754_zero false) in Hle.
  destruct (Prim2SF b) as [sb|sb| |sb mb eb], (Prim2SF a) as [sa|sa| |sa ma ea];
    simpl in Hb; try done; subst; simpl in *; try done;
    try (by destruct sa).
  destruct sa; [done|].
  apply binary_normalize_nonNegative. unfold cond_Zopp. lia.
Qed.

End Rounding.

(** ** Balance Ledger: credit, in double precision *)

Lemma Double_adminMiddleware_admin db caller next :
  Double.isAdmin db caller -> Double.adminMiddleware db caller next = next.
Proof.
  intros (u & Hu & Hrole). unfold Double.adminMiddleware. rewrite Hu, Hrole. reflexivity.
Qed.

(** C8, as stated, fails, in two ways.  The amount 0 is non-negative, and
    the top-up is rejected with 400.  And a top-up that succeeds does not
    increase the balance by exactly the amount: with the doubles nearest to
    0.1 as the balance and to 0.2 as the amount, the balance stored is
    0.30000000000000004, which is not the sum of the two. *)
Lemma add_balance_refuses_zero_and_rounds :
  let db := Double.demoDb 0x1.999999999999ap-4 0 in
  Double.isAdmin db rootId
  /\ (0 <=? 0)%float = true
  /\ Double.add_balance db rootId aliceId (Double.JNumber 0)
     = (db, Double.Reply 400 (Double.Message "Invalid amount."))
  /\ exists u' old amount stored,
       Double.users (fst (Double.add_balance db rootId aliceId
                            (Double.JNumber 0x1.999999999999ap-3))) !! aliceId = Some u'
       /\ Double.balance u' = 0x1.3333333333334p-2%float
       /\ Double.toQ 0x1.999999999999ap-4 = Some old
       /\ Double.toQ 0x1.999999999999ap-3 = Some amount
       /\ Double.toQ (Double.balance u') = Some stored
       /\ ~ (stored == old + amount)%Q.
Proof.
  cbv zeta. split; [|split; [|split]].
  - eexists. split; reflexivity.
  - reflexivity.
  - reflexivity.
  - eexists _, _, _, _. split; [reflexivity|]. split; [reflexivity|].
    split; [reflexivity|]. split; [reflexivity|]. split; [reflexivity|].
    intros H. vm_compute in H. discriminate H.
Qed.

(** C8, amended.  For an admin caller and an existing account, the top-up
    succeeds for every positive amount - an infinite one included - and
    replaces the balance by the double-precision sum of the balance and the
    amount, leaving every other account as it was; an amount that is zero,
    negative or not a number is rejected with 400 and the database is
    unchanged. *)
Theorem add_balance_adds_as_doubles db caller userId u :
  Double.isAdmin db caller ->
  Double.users db !! userId = Some u ->
  (forall a, (0 <? a)%float = true ->
     Double.add_balance db caller userId (Double.JNumber a)
     = (Double.setUsers
          (<[userId := Double.setBalance (Double.balance u + a)%float u]> (Double.users db)) db,
        Double.Reply 200
          (Double.UserBody userId (Double.username u) (Double.role u)
             (Double.balance u + a)%float)))
  /\ (forall a, (a <=? 0)%float = true ->
        Double.add_balance db caller userId (Double.JNumber a)
        = (db, Double.Reply 400 (Double.Message "Invalid amount.")))
  /\ (forall amount, (forall a, amount <> Double.JNumber a) ->
        Double.add_balance db caller userId amount
        = (db, Double.Reply 400 (Double.Message "Invalid amount."))).
Proof.
  intros Hadm Hu. unfold Double.add_balance. split; [|split].
  - intros a Hpos. rewrite Double_adminMiddleware_admin by done.
    destruct (positive_amount a Hpos) as [-> ->]. by rewrite Hu.
  - intros a Hle. rewrite Double_adminMiddleware_admin by done. by rewrite Hle.
  - intros amount Hnan. rewrite Double_adminMiddleware_admin by done.
    destruct amount as [| |b|a|s]; try reflexivity. by destruct (Hnan a).
Qed.

Lemma add_balance_adds_as_doubles_witness :
  Double.add_balance (Double.demoDb 1 0) rootId aliceId (Double.JNumber 0.5)
  = (Double.setUsers
       (<[aliceId := Double.mkUser "alice" (Bcrypt "secret") "user" 1.5 0%N]>
          (Double.users (Double.demoDb 1 0))) (Double.demoDb 1 0),
     Double.Reply 200 (Double.UserBody aliceId "alice" "user" 1.5))
  /\ Double.add_balance (Double.demoDb 1 0) rootId aliceId (Double.JNumber (-1))
     = (Double.demoDb 1 0, Double.Reply 400 (Double.Message "Invalid amount.")).
Proof.
  assert (Hadm : Double.isAdmin (Double.demoDb 1 0) rootId)
    by (eexists; split; reflexivity).
  destruct (add_balance_adds_as_doubles (Double.demoDb 1 0) rootId aliceId
              (Double.mkUser "alice" (Bcrypt "secret") "user" 1 0%N) Hadm eq_refl)
    as (Hpos & Hneg & _).
  split.
  - exact (Hpos 0.5%float eq_refl).
  - exact (Hneg (-1)%float eq_refl).
Defined.

(** ** Registration *)

(** C10.  The role of a registered user is the [role] field of the request
    body, and 'user' when the field is absent.  The handler stands behind
    no middleware and takes no caller: (1) whenever it answers with a
    token, the user it stored has exactly that role; (2) a request with a
    fresh username and a role of the enumeration, 'admin' included, is
    answered with a token. *)
Theorem register_role_from_body :
  (forall now newId db body db' tokenBody,
     auth_register now newId db body = (db', Reply 200 tokenBody) ->
     exists u, users db' !! newId = Some u /\
               role u = default "user" (reqRole body) /\
               tokenBody = Token newId)
  /\ (forall now newId db body,
        let name := Js.str (Js.trim (Js.chars (reqUsername body))) in
        usernameTaken db name = false -> name <> EmptyString ->
        users db !! newId = None ->
        default "user" (reqRole body) ∈ roleEnum ->
        exists u, auth_register now newId db body =
                    (setUsers (<[newId := u]> (users db)) db, Reply 200 (Token newId))
                  /\ role u = default "user" (reqRole body)).
Proof.
  split.
  - intros now newId db body db' tokenBody. unfold auth_register.
    destruct (usernameTaken db _); [intros [= <- ?]; discriminate|].
    destruct (String.eqb _ EmptyString); [intros [= <- ?]; discriminate|].
    case_bool_decide; simpl; [|intros [= <- ?]; discriminate].
    destruct (users db !! newId) eqn:Hid; [intros [= <- ?]; discriminate|].
    intros [= <- <-]. eexists. split; [apply lookup_insert_eq|]. by split.
  - intros now newId db body name Hfree Hname Hid Hrole. unfold auth_register.
    fold name. rewrite Hfree.
    apply String.eqb_neq in Hname. rewrite Hname.
    rewrite bool_decide_eq_true_2 by done. simpl. rewrite Hid.
    eexists. split; reflexivity.
Qed.

Lemma register_role_from_body_witness :
  exists u,
    auth_register 5%N 3%N (demoDb 0 0) (mkRegisterBody "mallory" "pw" (Some "admin")) =
      (setUsers (<[3%N := u]> (users (demoDb 0 0))) (demoDb 0 0), Reply 200 (Token 3%N))
    /\ role u = "admin".
Proof.
  apply (proj2 register_role_from_body 5%N 3%N (demoDb 0 0)
           (mkRegisterBody "mallory" "pw" (Some "admin"))).
  - reflexivity.
  - discriminate.
  - reflexivity.
  - right. left.
Defined.

(** ** Batch Dispatcher *)

Lemma batchSizeOf_nonzero count : batchSizeOf count <> 0.
Proof.
  unfold batchSizeOf, Js.orDefault.
  destruct (Js.parseInt count) as [v|]; [|done].
  destruct (Z.eqb_spec v 0); done.
Qed.

Lemma limit_take {A} n (docs : list A) : n <> 0 -> limit n docs = take (Z.abs_nat n) docs.
Proof. intros Hn. unfold limit. by destruct (Z.eqb_spec n 0). Qed.

Lemma findOwnedCampaign_Some db id caller c :
  findOwnedCampaign db id caller = Some c <->
  campaigns db !! id = Some c /\ user c = caller.
Proof.
  unfold findOwnedCampaign. destruct (campaigns db !! id) as [c0|].
  - case_bool_decide as Hown; split.
    + by intros [= ->].
    + by intros [[= ->] _].
    + discriminate.
    + intros [[= ->] Hc]. by destruct Hown.
  - split; [discriminate | by intros [? _]].
Qed.

Lemma next_contacts_path now db caller id count :
  NextContactsPath now db caller id count (next_contacts now db caller id count).
Proof.
  unfold next_contacts.
  destruct (users db !! caller) as [u|] eqn:Hu; [|by constructor].
  destruct (Qltb _ _) eqn:Hlt.
  { apply Qltb_true in Hlt. by econstructor. }
  apply Qltb_false in Hlt.
  destruct (findOwnedCampaign db id caller) as [c|] eqn:Hc.
  - apply findOwnedCampaign_Some in Hc as [Hc Hown].
    destruct (isActive c) eqn:Hact; simpl.
    + change (findNewContacts (setUsers _ db) id) with (findNewContacts db id).
      destruct (limit _ (findNewContacts db id)) as [|x l] eqn:Hl.
      * by eapply PathNoContacts.
      * rewrite <- Hl. eapply PathBatch; eauto. by rewrite Hl.
    + eapply PathNoCampaign; eauto. intros c' Hc' _. congruence.
  - eapply PathNoCampaign; eauto. intros c Hc' Hown.
    assert (findOwnedCampaign db id caller = Some c) by by apply findOwnedCampaign_Some.
    congruence.
Qed.

Lemma next_contacts_keeps_contacts now db caller id count :
  contactDocs (fst (next_contacts now db caller id count)) = contactDocs db.
Proof. by destruct (next_contacts_path now db caller id count). Qed.

(** ** Balance Ledger: the balance invariant *)

Lemma next_contacts_balances now db caller id count :
  balancesNonNegative db ->
  balancesNonNegative (fst (next_contacts now db caller id count)).
Proof.
  intros Hinv.
  destruct (next_contacts_path now db caller id count)
    as [Hu | u Hu Hlt | u Hu Hle Hc | u c Hu Hle Hc Hown Hact Hl
        | u c Hu Hle Hc Hown Hact Hl]; try done.
  - unfold balancesNonNegative; simpl. apply map_Forall_insert_2; [|done].
    simpl. lra.
  - unfold balancesNonNegative; simpl. apply map_Forall_insert_2; [|done].
    simpl. lra.
Qed.

Lemma add_balance_balances db caller userId amount :
  balancesNonNegative db ->
  balancesNonNegative (fst (add_balance db caller userId amount)).
Proof.
  intros Hinv. unfold add_balance.
  match goal with |- context [adminMiddleware db caller ?k] =>
    destruct (adminMiddleware_cases db caller k) as [-> | ->] end; [|done].
  destruct amount as [| |b|a|s]; try done.
  destruct (Qle_bool a 0) eqn:Ha; [done|]. apply Qle_bool_false in Ha.
  destruct (users db !! userId) as [u|] eqn:Hu; [|done].
  unfold balancesNonNegative; simpl. apply map_Forall_insert_2; [|done].
  simpl. specialize (Hinv _ _ Hu). simpl in Hinv. lra.
Qed.

Lemma applyLedgerOp_balances db op :
  balancesNonNegative db -> balancesNonNegative (applyLedgerOp db op).
Proof.
  destruct op; simpl; [apply next_contacts_balances | apply add_balance_balances].
Qed.

(** C4.  Starting from balances that are all non-negative, every balance is
    non-negative after each operation of any sequence of dispatch-tick
    debits and administrative credits. *)
Theorem balance_never_negative ops db :
  balancesNonNegative db ->
  Forall balancesNonNegative (ledgerTrace db ops).
Proof.
  revert db. induction ops as [|op ops IH]; intros db Hinv; simpl.
  - constructor.
  - pose proof (applyLedgerOp_balances db op Hinv) as Hstep.
    constructor; [done | by apply IH].
Qed.

Lemma demoDb_balances n m : balancesNonNegative (demoDb n m).
Proof.
  unfold balancesNonNegative, demoDb; simpl.
  apply map_Forall_insert_2; [done|]. apply map_Forall_singleton. done.
Qed.

Lemma balance_never_negative_witness :
  Forall balancesNonNegative
    (ledgerTrace (demoDb 3 0)
       [Debit 1%N aliceId demoId "5"; Credit rootId aliceId (JNumber 2);
        Debit 2%N aliceId demoId "40"; Debit 3%N aliceId demoId "-3"]).
Proof. apply balance_never_negative, demoDb_balances. Defined.

(** ** Batch Dispatcher: preconditions *)

(** C5, as stated, fails, in two ways.  The demo campaign releases at most
    5 calls per tick, and a request of 6 is answered with a batch of 6; and
    the count [abc], which is no positive integer, is not refused either:
    it is answered with a batch of the default size 5. *)
Lemma next_contacts_ignores_batch_policy :
  campaigns (demoDb 6 0) !! demoId = Some demo /\ callsPerMinute demo = 5 /\
  batchSizeOf "6" = 6 /\
  (exists batch newBalance,
     snd (next_contacts 1%N (demoDb 6 0) aliceId demoId "6")
     = Reply 200 (ContactsBody batch newBalance)
     /\ length batch = 6%nat)
  /\ Js.parseInt "abc" = None
  /\ exists batch newBalance,
       snd (next_contacts 1%N (demoDb 6 0) aliceId demoId "abc")
       = Reply 200 (ContactsBody batch newBalance)
       /\ length batch = 5%nat.
Proof.
  split; [reflexivity|]. split; [reflexivity|]. split; [reflexivity|].
  split; [|split; [reflexivity|]]; eexists _, _; split; reflexivity.
Qed.

Lemma next_contacts_policy_independent now db caller id count v :
  snd (next_contacts now (setCampaigns (alter (setCallsPerMinute v) id (campaigns db)) db)
         caller id count)
  = snd (next_contacts now db caller id count).
Proof.
  unfold next_contacts. simpl.
  destruct (users db !! caller) as [u|]; [|done].
  destruct (Qltb _ _); [done|].
  unfold findOwnedCampaign. simpl. rewrite lookup_alter_eq.
  destruct (campaigns db !! id) as [c|] eqn:Hc; simpl; [|done].
  case_bool_decide; [|done]. simpl. destruct (isActive c); simpl; [|done].
  change (findNewContacts (setUsers ?us (setCampaigns ?cs db)) id)
    with (findNewContacts (setUsers us db) id).
  by destruct (limit _ _).
Qed.

(** C5, amended.  [next_contacts] answers with a batch only when the
    campaign exists, belongs to the caller and is active, and answers with
    an error when the campaign is missing, is not the caller's or is not
    active.  The requested count is not compared with the campaign's
    calls-per-tick setting: the answer is the same whatever that setting is.
    A count that does not parse to a number, or that parses to zero, is not
    refused: the request is served as a request for 5.  What a negative
    count does is left out of this statement. *)
Theorem next_contacts_batch_preconditions now db caller id count :
  (forall batch newBalance,
     snd (next_contacts now db caller id count) = Reply 200 (ContactsBody batch newBalance) ->
     exists c, campaigns db !! id = Some c /\ user c = caller /\ isActive c = true)
  /\ ((forall c, campaigns db !! id = Some c -> user c = caller -> isActive c = false) ->
      isErrorResponse (snd (next_contacts now db caller id count)))
  /\ (forall v,
        snd (next_contacts now
               (setCampaigns (alter (setCallsPerMinute v) id (campaigns db)) db)
               caller id count)
        = snd (next_contacts now db caller id count))
  /\ (Js.parseInt count = None \/ Js.parseInt count = Some 0 ->
      next_contacts now db caller id count = next_contacts now db caller id "5").
Proof.
  split; [|split; [|split]].
  - intros batch nb Hr.
    destruct (next_contacts_path now db caller id count)
      as [Hu | u Hu Hlt | u Hu Hle Hc | u c Hu Hle Hc Hown Hact Hl
          | u c Hu Hle Hc Hown Hact Hl]; simpl in Hr; try discriminate Hr.
    by exists c.
  - intros Hnone.
    destruct (next_contacts_path now db caller id count)
      as [Hu | u Hu Hlt | u Hu Hle Hc | u c Hu Hle Hc Hown Hact Hl
          | u c Hu Hle Hc Hown Hact Hl]; simpl; try done.
    rewrite (Hnone c Hc Hown) in Hact. discriminate.
  - intros v. apply next_contacts_policy_independent.
  - intros Hcount.
    assert (Hsize : batchSizeOf count = batchSizeOf "5").
    { unfold batchSizeOf. by destruct Hcount as [-> | ->]. }
    unfold next_contacts. by rewrite Hsize.
Qed.

Lemma next_contacts_batch_preconditions_witness :
  (exists c, campaigns (demoDb 6 0) !! demoId = Some c /\ user c = aliceId
             /\ isActive c = true)
  /\ isErrorResponse (snd (next_contacts 1%N (demoDb 3 0) rootId demoId "5"))
  /\ next_contacts 1%N (demoDb 6 0) aliceId demoId "abc"
     = next_contacts 1%N (demoDb 6 0) aliceId demoId "5".
Proof.
  split; [|split].
  - refine (proj1 (next_contacts_batch_preconditions 1%N (demoDb 6 0) aliceId demoId "6")
              (limit 6 (findNewContacts (demoDb 6 0) demoId)) (1 - CALL_COST * 6)%Q _).
    reflexivity.
  - apply (proj1 (proj2 (next_contacts_batch_preconditions 1%N (demoDb 3 0) rootId demoId "5"))).
    intros c Hc Hown. vm_compute in Hc. injection Hc as <-. discriminate Hown.
  - apply (proj2 (proj2 (proj2 (next_contacts_batch_preconditions 1%N (demoDb 6 0) aliceId
                                  demoId "abc")))).
    by left.
Defined.

(** ** Batch Dispatcher: contacts and charges at concrete inputs *)

(** C1 at a concrete input.  Ten contacts are pending and three successive
    ticks request 5: each tick returns the same first five contacts, the
    third is not answered with the exhausted-campaign signal, and the
    contact collection - every status included - is what it was. *)
Theorem batches_repeat_contacts :
  let db0 := demoDb 10 0 in
  let r1 := next_contacts 1%N db0 aliceId demoId "5" in
  let r2 := next_contacts 2%N (fst r1) aliceId demoId "5" in
  let r3 := next_contacts 3%N (fst r2) aliceId demoId "5" in
  batchOf (snd r1) = demoContact new <$> [0; 1; 2; 3; 4]%N
  /\ batchOf (snd r2) = batchOf (snd r1)
  /\ batchOf (snd r3) = batchOf (snd r1)
  /\ (exists nb, snd r3 = Reply 200 (ContactsBody (batchOf (snd r1)) nb))
  /\ contactDocs (fst r3) = contactDocs db0.
Proof.
  cbv zeta. split; [reflexivity|]. split; [reflexivity|]. split; [reflexivity|].
  split; [eexists; reflexivity | reflexivity].
Qed.

(** C2 at a concrete input.  Three contacts are pending and 5 are
    requested: the three are returned and the account is debited
    5 x CALL_COST = 0.25, not 3 x CALL_COST = 0.15. *)
Theorem partial_batch_charged_for_request :
  let db0 := demoDb 3 0 in
  let r := next_contacts 1%N db0 aliceId demoId "5" in
  exists batch newBalance u',
    snd r = Reply 200 (ContactsBody batch newBalance)
    /\ length batch = 3%nat
    /\ users (fst r) !! aliceId = Some u' /\ balance u' = newBalance
    /\ (balance alice - newBalance == CALL_COST * 5)%Q
    /\ ~ (balance alice - newBalance == CALL_COST * 3)%Q.
Proof.
  cbv zeta. eexists _, _, _. split; [reflexivity|]. split; [reflexivity|].
  split; [reflexivity|]. split; [reflexivity|]. split; [reflexivity|].
  intros H. vm_compute in H. discriminate H.
Qed.

(** C3 at a concrete input.  No contact is pending (all four are dialled)
    and 5 are requested: the answer is 404 'No new contacts to call.', not
    the 402 of insufficient funds, and the account has been debited 0.25
    with no refund. *)
Theorem exhausted_campaign_debited :
  let db0 := demoDb 0 4 in
  let r := next_contacts 1%N db0 aliceId demoId "5" in
  findNewContacts db0 demoId = []
  /\ snd r = Reply 404 (Message "No new contacts to call.")
  /\ exists u', users (fst r) !! aliceId = Some u'
                /\ (balance alice == 1)%Q /\ (balance u' == 3 # 4)%Q.
Proof.
  cbv zeta. split; [reflexivity|]. split; [reflexivity|].
  eexists. split; [reflexivity|]. split; reflexivity.
Qed.

(** ** Moderation Pipeline *)

Section Characters.

Local Ltac each_char c :=
  destruct c as [[] [] [] [] [] [] [] []]; vm_compute; try reflexivity; try discriminate.

Lemma canonicalize_lowerChar c : Js.canonicalize (Js.lowerChar c) = Js.canonicalize c.
Proof. each_char c. Qed.

Lemma lowerChar_canonicalize c : Js.lowerChar (Js.canonicalize c) = Js.lowerChar c.
Proof. each_char c. Qed.

Lemma isWordChar_lowerChar c : isWordChar (Js.lowerChar c) = isWordChar c.
Proof. each_char c. Qed.

Lemma lowerChar_idem c : Js.lowerChar (Js.lowerChar c) = Js.lowerChar c.
Proof. each_char c. Qed.

Lemma isWordChar_not_space c : isWordChar c = true -> Js.isStrWhiteSpace c = false.
Proof. each_char c. Qed.

End Characters.

Section Matching.

Implicit Types (w m s pre post : list ascii) (prev : option ascii).

Lemma canonicalize_eq_iff a b :
  Js.canonicalize a = Js.canonicalize b <-> Js.lowerChar a = Js.lowerChar b.
Proof.
  split; intros H.
  - by rewrite <- (lowerChar_canonicalize a), H, lowerChar_canonicalize.
  - by rewrite <- (canonicalize_lowerChar a), H, canonicalize_lowerChar.
Qed.

Lemma charMatches_true c t :
  charMatches c t = true <-> Js.lowerChar t = Js.lowerChar c.
Proof.
  unfold charMatches. rewrite Ascii.eqb_eq, canonicalize_eq_iff. by split.
Qed.

Lemma charMatches_isWordChar c t :
  charMatches c t = true -> isWordChar t = isWordChar c.
Proof.
  intros H%charMatches_true.
  by rewrite <- (isWordChar_lowerChar t), H, isWordChar_lowerChar.
Qed.

Lemma lastOr_cons prev t m : lastOr prev (t :: m) = lastOr (Some t) m.
Proof. unfold lastOr. rewrite last_cons. by destruct (last m). Qed.

Lemma lastOr_None pre : lastOr None pre = last pre.
Proof. unfold lastOr. by destruct (last pre). Qed.

(** The literal part of the pattern followed by the closing [\b]. *)
Lemma matchTerms_chars w prev s :
  matchTerms ((Char <$> w) ++ [WordBoundary]) prev s = true <->
  exists m post,
    s = m ++ post /\ Forall2 (fun c t => charMatches c t = true) w m /\
    atWordBoundary (lastOr prev m) (head post) = true.
Proof.
  revert prev s. induction w as [|c w IH]; intros prev s; simpl.
  - rewrite andb_true_r. split.
    + intros H. exists [], s. by repeat split; [constructor|].
    + intros (m & post & -> & Hm & Hb). inversion Hm; subst. done.
  - destruct s as [|t s].
    + split; [done|]. intros (m & post & Hs & Hm & _).
      inversion Hm; subst. discriminate.
    + rewrite andb_true_iff, IH. split.
      * intros (Hc & m & post & -> & Hm & Hb).
        exists (t :: m), post. rewrite lastOr_cons. by repeat split; [constructor|].
      * intros (m & post & Hs & Hm & Hb).
        inversion Hm as [|? t' ? m' Hc Hm']; subst. injection Hs as <- ->.
        rewrite lastOr_cons in Hb. split; [done|]. by exists m', post.
Qed.

Lemma searchFrom_spec p prev s :
  searchFrom p prev s = true <->
  exists pre post, s = pre ++ post /\ matchTerms p (lastOr prev pre) post = true.
Proof.
  revert prev. induction s as [|t s IH]; intros prev; simpl.
  - rewrite orb_false_r. split.
    + intros H. by exists [], [].
    + intros (pre & post & Hs & H). symmetry in Hs.
      apply app_eq_nil in Hs as [-> ->]. done.
  - rewrite orb_true_iff, IH. split.
    + intros [H | (pre & post & -> & H)].
      * by exists [], (t :: s).
      * exists (t :: pre), post. by rewrite lastOr_cons.
    + intros (pre & post & Hs & H). destruct pre as [|t' pre]; simpl in Hs.
      * left. by subst post.
      * right. injection Hs as <- ->. rewrite lastOr_cons in H. by exists pre, post.
Qed.

Lemma Forall2_charMatches_head w m :
  Forall2 (fun c t => charMatches c t = true) w m ->
  isWordCharAt (head m) = isWordCharAt (head w).
Proof. destruct 1 as [|c t w m Hc _]; simpl; [done|]. by apply charMatches_isWordChar. Qed.

Lemma Forall2_charMatches_last w m :
  Forall2 (fun c t => charMatches c t = true) w m ->
  isWordCharAt (last m) = isWordCharAt (last w).
Proof.
  induction 1 as [|c t w m Hc Hm IH]; [done|].
  rewrite !last_cons. destruct Hm as [|c' t' w m Hc' Hm]; simpl.
  - by apply charMatches_isWordChar.
  - rewrite !last_cons in IH. rewrite !last_cons.
    by destruct (last m), (last w).
Qed.

(** [/\bw\b/i.test(s)] for a literal [w] that begins and ends with a word
    character: some occurrence of [w], up to case, is delimited by
    non-word characters or the ends of [s]. *)
Lemma regexTest_literal w s :
  isWordCharAt (head w) = true -> isWordCharAt (last w) = true ->
  regexTest (WordBoundary :: (Char <$> w) ++ [WordBoundary]) s = true <->
  exists pre m post,
    s = pre ++ m ++ post /\ Forall2 (fun c t => charMatches c t = true) w m /\
    isWordCharAt (last pre) = false /\ isWordCharAt (head post) = false.
Proof.
  intros Hhead Hlast. unfold regexTest. rewrite searchFrom_spec. split.
  - intros (pre & rest & -> & H). simpl in H. rewrite lastOr_None in H.
    apply andb_true_iff in H as [Hb H].
    apply matchTerms_chars in H as (m & post & -> & Hm & Hb').
    exists pre, m, post. split; [done|]. split; [done|].
    pose proof (Forall2_charMatches_head _ _ Hm) as Hh. rewrite Hhead in Hh.
    pose proof (Forall2_charMatches_last _ _ Hm) as Hl. rewrite Hlast in Hl.
    assert (Hhm : isWordCharAt (head (m ++ post)) = true).
    { destruct m; [discriminate|done]. }
    assert (Hlm : lastOr (last pre) m = last m).
    { unfold lastOr. destruct (last m); [done|discriminate]. }
    unfold atWordBoundary in Hb, Hb'. rewrite Hhm in Hb. rewrite Hlm, Hl in Hb'.
    split.
    + by destruct (isWordCharAt (last pre)).
    + by destruct (isWordCharAt (head post)).
  - intros (pre & m & post & -> & Hm & Hpre & Hpost).
    exists pre, (m ++ post). split; [done|]. simpl. rewrite lastOr_None.
    pose proof (Forall2_charMatches_head _ _ Hm) as Hh. rewrite Hhead in Hh.
    pose proof (Forall2_charMatches_last _ _ Hm) as Hl. rewrite Hlast in Hl.
    apply andb_true_iff. split.
    + unfold atWordBoundary. rewrite Hpre.
      destruct m; [discriminate|]. simpl in *. by rewrite Hh.
    + apply matchTerms_chars. exists m, post. split; [done|]. split; [done|].
      unfold atWordBoundary, lastOr.
      destruct (last m) as [x|]; [|discriminate]. by rewrite Hl, Hpost.
Qed.

End Matching.

Section Wordlist.

Implicit Types (w m s pre post : list ascii).

Lemma notSyntax_not_special c :
  isSyntaxCharacter c = false ->
  Ascii.eqb c backslash = false /\ Ascii.eqb c "." = false.
Proof.
  destruct c as [[] [] [] [] [] [] [] []]; vm_compute; intros H;
    try discriminate H; by split.
Qed.

Lemma parsePattern_literal w rest :
  Forall (fun c => isSyntaxCharacter c = false) w ->
  parsePattern (w ++ rest) = (fun ts => (Char <$> w) ++ ts) <$> parsePattern rest.
Proof.
  induction 1 as [|c w Hc _ IH]; simpl.
  - by destruct (parsePattern rest).
  - destruct (notSyntax_not_special c Hc) as [-> ->]. rewrite Hc, IH.
    by destruct (parsePattern rest).
Qed.

Lemma dropWhile_id {A} (p : A -> bool) (l : list A) :
  from_option (fun x => p x = false) True (head l) -> Js.dropWhile p l = l.
Proof. destruct l as [|x l]; simpl; [done|]. by intros ->. Qed.

Lemma trim_literal w :
  isWordCharAt (head w) = true -> isWordCharAt (last w) = true -> Js.trim w = w.
Proof.
  intros Hh Hl. unfold Js.trim.
  rewrite (dropWhile_id _ w).
  2:{ destruct (head w) as [x|]; simpl in *; [|done]. by apply isWordChar_not_space. }
  rewrite dropWhile_id; [apply reverse_involutive|].
  rewrite head_reverse.
  destruct (last w) as [x|]; simpl in *; [|done]. by apply isWordChar_not_space.
Qed.

Lemma blockedWordRegExp_literal word :
  literalWord word ->
  blockedWordRegExp word =
    Some (WordBoundary :: (Char <$> Js.chars word) ++ [WordBoundary]).
Proof.
  intros (Hh & Hl & Hsyn). unfold blockedWordRegExp.
  rewrite trim_literal by done.
  change (parsePattern (wordBoundaryEscape ++ Js.chars word ++ wordBoundaryEscape))
    with (cons WordBoundary <$> parsePattern (Js.chars word ++ wordBoundaryEscape)).
  by rewrite parsePattern_literal.
Qed.

Lemma Forall2_charMatches_lower w m :
  Forall2 (fun c t => charMatches c t = true) w (Js.toLowerCase m) <->
  equalIgnoringCase m w.
Proof.
  unfold equalIgnoringCase, Js.toLowerCase. revert m.
  induction w as [|c w IH]; intros m.
  - split.
    + intros H. inversion H as [Hm|]. by destruct m.
    + destruct m; [constructor | discriminate].
  - destruct m as [|t m]; simpl.
    + split; [intros H; inversion H | discriminate].
    + split.
      * intros H. inversion H as [|? ? ? ? Hc Hm]; subst.
        apply charMatches_true in Hc. rewrite lowerChar_idem in Hc.
        apply IH in Hm. by rewrite Hc, Hm.
      * intros [= Ht Hm]. constructor.
        -- apply charMatches_true. by rewrite lowerChar_idem.
        -- by apply IH.
Qed.

End Wordlist.

Section Evaluate.

Lemma isWordCharAt_lower_last (l : list ascii) :
  isWordCharAt (last (Js.toLowerCase l)) = isWordCharAt (last l).
Proof.
  unfold Js.toLowerCase. change (map Js.lowerChar l) with (Js.lowerChar <$> l).
  rewrite fmap_last. destruct (last l); simpl; [apply isWordChar_lowerChar | done].
Qed.

Lemma isWordCharAt_lower_head (l : list ascii) :
  isWordCharAt (head (Js.toLowerCase l)) = isWordCharAt (head l).
Proof. destruct l; simpl; [done | apply isWordChar_lowerChar]. Qed.

(** One blocklist entry: the test of the loop body against the spec's
    whole-word match. *)
Lemma regexTest_containsWholeWord text word :
  literalWord word ->
  regexTest (WordBoundary :: (Char <$> Js.chars word) ++ [WordBoundary])
    (Js.toLowerCase (Js.chars text)) = true
  <-> containsWholeWord text word.
Proof.
  intros (Hh & Hl & _). rewrite regexTest_literal by done.
  unfold containsWholeWord. split.
  - intros (pre & m & post & Hs & Hm & Hpre & Hpost).
    unfold Js.toLowerCase in Hs.
    apply fmap_app_inv in Hs as (pre' & rest & -> & Hrest & ->).
    symmetry in Hrest. apply fmap_app_inv in Hrest as (m' & post' & -> & -> & ->).
    exists pre', m', post'. split; [done|].
    split; [by apply Forall2_charMatches_lower|].
    split.
    + by rewrite <- isWordCharAt_lower_last.
    + by rewrite <- isWordCharAt_lower_head.
  - intros (pre & m & post & -> & Hm & Hpre & Hpost).
    exists (Js.toLowerCase pre), (Js.toLowerCase m), (Js.toLowerCase post).
    split; [unfold Js.toLowerCase; by rewrite !map_app|].
    split; [by apply Forall2_charMatches_lower|].
    by rewrite isWordCharAt_lower_last, isWordCharAt_lower_head.
Qed.

Lemma anyBlockedWord_spec text words :
  Forall literalWord words ->
  exists b,
    anyBlockedWord (Js.toLowerCase (Js.chars text)) words = Some b /\
    (b = true <-> exists w, w ∈ words /\ containsWholeWord text w).
Proof.
  induction 1 as [|word words Hw _ (b & IH & Hb)]; simpl.
  - exists false. split; [done|]. split; [done|].
    intros (w & Hin & _). by apply elem_of_nil in Hin.
  - rewrite blockedWordRegExp_literal by done.
    destruct (regexTest _ _) eqn:Htest.
    + exists true. split; [done|]. split; [|done]. intros _.
      exists word. split; [by left|]. by apply regexTest_containsWholeWord.
    + exists b. split; [done|]. rewrite Hb. split.
      * intros (w & Hin & Hc). exists w. split; [by right | done].
      * intros (w & Hin & Hc). apply elem_of_cons in Hin as [-> | Hin].
        -- apply regexTest_containsWholeWord in Hc; [|done]. congruence.
        -- by exists w.
Qed.

Lemma perspectiveFlags_spec key r :
  completeResponse r ->
  perspectiveConfigured key && perspectiveFlags r = true <-> classifierFlags key r.
Proof.
  intros Hcomplete. unfold classifierFlags. rewrite andb_true_iff.
  apply and_iff_compat_l.
  destruct r as [|[] [scores|]]; simpl;
    try (split; [done | by intros (? & ? & ? & _)]).
  destruct (Hcomplete scores eq_refl) as ([s Hs] & [t Ht] & [h Hh]).
  unfold anyScoreAboveThreshold. rewrite Hs, Ht, Hh.
  destruct (SPAM_THRESHOLD <? s)%float eqn:Es.
  { split; [|done]. intros _. exists scores, s. naive_solver. }
  destruct (SPAM_THRESHOLD <? t)%float eqn:Et.
  { split; [|done]. intros _. exists scores, t. naive_solver. }
  destruct (SPAM_THRESHOLD <? h)%float eqn:Eh.
  { split; [|done]. intros _. exists scores, h. naive_solver. }
  split; [done|]. intros (scores' & q & [= <-] & Hq & Hlt).
  destruct Hq as [Hq | [Hq | Hq]]; rewrite Hq in *; simplify_eq; congruence.
Qed.

End Evaluate.

(** C7 at a concrete input.  The blocklist entry [a.c] is interpolated as it
    is into the source of the regular expression, where its dot matches any
    character: the text [abc] is flagged although the classifier is not
    configured and the text holds no whole-word match of [a.c]. *)
Lemma pattern_entry_flags_other_text :
  isTextFlagged None FetchRejected "abc" ["a.c"] = Some true
  /\ ~ classifierFlags None FetchRejected
  /\ ~ (exists w, w ∈ ["a.c"] /\ containsWholeWord "abc" w).
Proof.
  split; [reflexivity|]. split.
  - intros [Hcfg _]. discriminate Hcfg.
  - intros (w & Hin & pre & m & post & Hs & Hm & _).
    apply list_elem_of_singleton in Hin as ->.
    assert (Hlen : length m = 3%nat).
    { apply (f_equal length) in Hm. unfold Js.toLowerCase in Hm.
      by rewrite !length_map in Hm. }
    pose proof (f_equal length Hs) as Hlens. rewrite !length_app, Hlen in Hlens.
    simpl in Hlens.
    destruct pre; [|simpl in Hlens; lia]. destruct post; [|simpl in Hlens; lia].
    simpl in Hs. rewrite app_nil_r in Hs. subst m. discriminate Hm.
Qed.

(** ** Campaign Lifecycle *)

(** C6.  For a paused campaign whose owner is on record, [Start] succeeds
    exactly when the owner's balance is at least the cost of one call, and
    then the campaign is active; with a smaller balance it returns the
    insufficient-funds error, changes nothing, and the campaign is still
    paused. *)
Theorem Start_needs_cost_of_one_call db id c owner :
  campaigns db !! id = Some c ->
  lifecycleState c = Paused ->
  users db !! user c = Some owner ->
  (snd (Start db id) = Started <-> (CALL_COST <= balance owner)%Q)
  /\ ((CALL_COST <= balance owner)%Q ->
      lifecycleState <$> (campaigns (fst (Start db id)) !! id) = Some Active)
  /\ ((balance owner < CALL_COST)%Q ->
      Start db id = (db, InsufficientFunds)
      /\ lifecycleState <$> (campaigns (fst (Start db id)) !! id) = Some Paused).
Proof.
  intros Hc Hpaused Hu. unfold Start. rewrite Hc, Hpaused, Hu.
  destruct (Qle_bool CALL_COST (balance owner)) eqn:Hle.
  - apply Qle_bool_iff in Hle. split; [done|]. split.
    + intros _. simpl. by rewrite lookup_insert_eq.
    + intros Hlt. lra.
  - apply Qle_bool_false in Hle. split; [|split].
    + split; [discriminate | intros; lra].
    + intros Hge. lra.
    + intros _. split; [done|]. simpl. by rewrite Hc, <- Hpaused.
Qed.

Lemma Start_needs_cost_of_one_call_witness :
  Start (pausedDb (1 # 100)) demoId = (pausedDb (1 # 100), InsufficientFunds)
  /\ snd (Start (pausedDb (5 # 100)) demoId) = Started.
Proof.
  split.
  - refine (proj1 (proj2 (proj2 (Start_needs_cost_of_one_call (pausedDb (1 # 100))
              demoId (setIsActive false demo) (setBalance (1 # 100) alice) _ _ _)) _));
      reflexivity.
  - refine (proj2 (proj1 (Start_needs_cost_of_one_call (pausedDb (5 # 100))
              demoId (setIsActive false demo) (setBalance (5 # 100) alice) _ _ _)) _);
      [reflexivity .. | discriminate].
Defined.

(** ** The primitives at sample inputs *)

Example parseInt_digits : Js.parseInt "5" = Some 5.
Proof. reflexivity. Qed.

Example parseInt_sign_and_suffix : Js.parseInt " -12px" = Some (-12).
Proof. reflexivity. Qed.

Example parseInt_NaN : Js.parseInt "abc" = None.
Proof. reflexivity. Qed.

Example batchSizeOf_defaults :
  batchSizeOf "abc" = 5 /\ batchSizeOf "0" = 5 /\ batchSizeOf "12" = 12.
Proof. by repeat split. Qed.

Example splitNumbers_trims_and_drops_empty :
  splitNumbers " +15550100 , ,+15550101," = ["+15550100"; "+15550101"].
Proof. reflexivity. Qed.

Example blockedWordRegExp_foo :
  blockedWordRegExp " foo " =
    Some [WordBoundary; Char "f"; Char "o"; Char "o"; WordBoundary].
Proof. reflexivity. Qed.

Example blockedWordRegExp_outside_fragment : blockedWordRegExp "a+" = None.
Proof. reflexivity. Qed.

(** In doubles [0.05 * 3] is 0.15000000000000002: a balance of 0.15 does
    not cover a batch of 3. *)
Example funds_check_in_doubles :
  (Double.CALL_COST * Double.ofZ 3)%float = 0x1.3333333333334p-3%float
  /\ snd (Double.next_contacts 1%N (Double.demoDb 0x1.3333333333333p-3 3) aliceId demoId "3")
     = Double.Reply 402 (Double.Message "Insufficient balance. Campaign paused.").
Proof. split; reflexivity. Qed.

(** A count of twenty nines is read as the double 1e20. *)
Example debit_of_huge_negative_count :
  Double.ofZ (batchSizeOf "-99999999999999999999") = (-1e20)%float
  /\ Double.balance
       <$> (Double.users
              (fst (Double.next_contacts 1%N (Double.demoDb 0x1.999999999999ap-4 3)
                      aliceId demoId "-99999999999999999999")) !! aliceId)
     = Some 5e18%float.
Proof. split; reflexivity. Qed.

(** * Further properties of the routes *)

(** ** The dispatcher *)




(** ** Batch Dispatcher: the amounts, in double precision *)

Lemma Double_findOwnedCampaign_Some db id caller c :
  Double.findOwnedCampaign db id caller = Some c <->
  Double.campaigns db !! id = Some c /\ user c = caller.
Proof.
  unfold Double.findOwnedCampaign. destruct (Double.campaigns db !! id) as [c0|].
  - case_bool_decide as Hown; split.
    + by intros [= ->].
    + by intros [[= ->] _].
    + discriminate.
    + intros [[= ->] Hc]. by destruct Hown.
  - split; [discriminate | by intros [? _]].
Qed.

Lemma Double_next_contacts_path now db caller id count :
  Double.NextContactsPath now db caller id count (Double.next_contacts now db caller id count).
Proof.
  unfold Double.next_contacts.
  destruct (Double.users db !! caller) as [u|] eqn:Hu; [|by constructor].
  destruct (_ <? _)%float eqn:Hlt; [by econstructor|].
  destruct (Double.findOwnedCampaign db id caller) as [c|] eqn:Hc.
  - apply Double_findOwnedCampaign_Some in Hc as [Hc Hown].
    destruct (isActive c) eqn:Hact; simpl.
    + destruct (is_nan _) eqn:Hnan; [by eapply Double.PathNotSaved|].
      change (Double.findNewContacts (Double.setUsers _ db) id)
        with (Double.findNewContacts db id).
      destruct (limit _ (Double.findNewContacts db id)) as [|x l] eqn:Hl.
      * by eapply Double.PathNoContacts.
      * rewrite <- Hl. eapply Double.PathBatch; eauto. by rewrite Hl.
    + eapply Double.PathNoCampaign; eauto. intros c' Hc' _. congruence.
  - eapply Double.PathNoCampaign; eauto. intros c Hc' Hown.
    assert (Double.findOwnedCampaign db id caller = Some c)
      by by apply Double_findOwnedCampaign_Some.
    congruence.
Qed.

(** X2.  What a tick does to the accounts, in the program's arithmetic.
    When it answers with a batch or with 404 'No new contacts to call.', the
    funds check has passed and the caller's balance has been replaced by the
    double-precision difference of the balance and the cost, the cost being
    the double-precision product of [CALL_COST] and the batch size; nothing
    else in the caller's document has changed.  With every other answer no
    account has changed.  No tick changes the account of anyone but the
    caller. *)
Theorem next_contacts_debit_by_answer now db caller id count :
  let result := Double.next_contacts now db caller id count in
  let cost := (Double.CALL_COST * Double.ofZ (batchSizeOf count))%float in
  ((snd result = Double.Reply 404 (Double.Message "No new contacts to call.")
    \/ exists batch newBalance,
         snd result = Double.Reply 200 (Double.ContactsBody batch newBalance)) ->
   exists u, Double.users db !! caller = Some u
             /\ (Double.balance u <? cost)%float = false
             /\ Double.users (fst result)
                = <[caller := Double.setBalance (Double.balance u - cost)%float u]>
                    (Double.users db))
  /\ (~ (snd result = Double.Reply 404 (Double.Message "No new contacts to call.")
         \/ exists batch newBalance,
              snd result = Double.Reply 200 (Double.ContactsBody batch newBalance)) ->
      Double.users (fst result) = Double.users db)
  /\ (forall other, other <> caller ->
        (Double.users (fst result) !! other) = (Double.users db !! other)).
Proof.
  intros result cost. subst result cost.
  destruct (Double_next_contacts_path now db caller id count)
    as [Hu | u Hu Hlt | u Hu Hle Hc | u c Hu Hle Hc Hown Hact Hnan
        | u c Hu Hle Hc Hown Hact Hnan Hl | u c Hu Hle Hc Hown Hact Hnan Hl]; simpl.
  - split; [|done]. intros [H | (? & ? & H)]; discriminate H.
  - split; [|done]. intros [H | (? & ? & H)]; discriminate H.
  - split; [|done]. intros [H | (? & ? & H)]; discriminate H.
  - split; [|done]. intros [H | (? & ? & H)]; discriminate H.
  - split; [|split].
    + intros _. by exists u.
    + intros H. destruct H. by left.
    + intros other Hne. by apply lookup_insert_ne.
  - split; [|split].
    + intros _. by exists u.
    + intros H. destruct H. right. by eexists _, _.
    + intros other Hne. by apply lookup_insert_ne.
Qed.

Lemma next_contacts_debit_by_answer_witness :
  exists u,
    Double.users (Double.demoDb 0x1.6666666666666p-1 4) !! aliceId = Some u
    /\ Double.users (fst (Double.next_contacts 1%N (Double.demoDb 0x1.6666666666666p-1 4)
                            aliceId demoId "3")) !! aliceId
       = Some (Double.setBalance 0x1.1999999999999p-1 u).
Proof.
  destruct (proj1 (next_contacts_debit_by_answer 1%N
                     (Double.demoDb 0x1.6666666666666p-1 4) aliceId demoId "3"))
    as (u & Hu & _ & Husers).
  - right. eexists _, _. reflexivity.
  - exists u. split; [exact Hu|]. rewrite Husers, lookup_insert_eq.
    injection Hu as <-. reflexivity.
Defined.

(** X3.  When the requested count is positive and at least that many
    contacts are pending, a batch holds exactly that many contacts and the
    new balance is the old one less, in double precision, the product of
    [CALL_COST] and the number of contacts returned. *)
Theorem full_batch_charged_per_contact now db caller id count u batch newBalance :
  Double.users db !! caller = Some u ->
  0 < batchSizeOf count ->
  (Z.to_nat (batchSizeOf count) <= length (Double.findNewContacts db id))%nat ->
  snd (Double.next_contacts now db caller id count)
  = Double.Reply 200 (Double.ContactsBody batch newBalance) ->
  Z.of_nat (length batch) = batchSizeOf count
  /\ newBalance
     = (Double.balance u - Double.CALL_COST * Double.ofZ (Z.of_nat (length batch)))%float.
Proof.
  intros Hu Hpos Hpending Hr.
  destruct (Double_next_contacts_path now db caller id count)
    as [Hu' | u' Hu' Hlt | u' Hu' Hle Hc | u' c Hu' Hle Hc Hown Hact Hnan
        | u' c Hu' Hle Hc Hown Hact Hnan Hl | u' c Hu' Hle Hc Hown Hact Hnan Hl];
    simpl in Hr; try discriminate Hr.
  injection Hr as <- <-. assert (u' = u) by congruence. subst u'.
  rewrite limit_take by apply batchSizeOf_nonzero.
  assert (Hn : Z.abs_nat (batchSizeOf count) = Z.to_nat (batchSizeOf count)).
  { rewrite Zabs2Nat.abs_nat_nonneg; lia. }
  rewrite length_take, Hn, Nat.min_l by done.
  rewrite Z2Nat.id by lia. done.
Qed.

Lemma full_batch_charged_per_contact_witness :
  exists batch,
    snd (Double.next_contacts 1%N (Double.demoDb 0x1.6666666666666p-1 6) aliceId demoId "3")
    = Double.Reply 200 (Double.ContactsBody batch 0x1.1999999999999p-1)
    /\ Z.of_nat (length batch) = 3.
Proof.
  eexists. split; [reflexivity|].
  refine (proj1 (full_batch_charged_per_contact 1%N (Double.demoDb 0x1.6666666666666p-1 6)
                   aliceId demoId "3" _ _ _ eq_refl _ _ eq_refl)).
  - reflexivity.
  - vm_compute. lia.
Defined.

(** X4.  A count that parses to a negative number is not refused.  For an
    active campaign of the caller's and a balance that is not negative, the
    cost - the double-precision product of [CALL_COST] and the count - is
    not positive, the funds check passes whatever the balance, the answer is
    a batch or 404 'No new contacts to call.', and the balance stored is the
    old balance less that cost, again not negative: the account is credited
    instead of debited. *)
Theorem negative_count_credits_balance now db caller id count u c :
  Double.users db !! caller = Some u -> (0 <=? Double.balance u)%float = true ->
  Double.campaigns db !! id = Some c -> user c = caller -> isActive c = true ->
  batchSizeOf count < 0 ->
  let result := Double.next_contacts now db caller id count in
  let cost := (Double.CALL_COST * Double.ofZ (batchSizeOf count))%float in
  (cost <=? 0)%float = true
  /\ Double.users (fst result)
     = <[caller := Double.setBalance (Double.balance u - cost)%float u]> (Double.users db)
  /\ (0 <=? Double.balance u - cost)%float = true
  /\ (snd result = Double.Reply 404 (Double.Message "No new contacts to call.")
      \/ exists batch,
           snd result
           = Double.Reply 200 (Double.ContactsBody batch (Double.balance u - cost)%float)).
Proof.
  intros Hu Hbal Hc Hown Hact Hneg result cost. subst result cost.
  apply nonNegative_leb in Hbal.
  assert (Hcost : Double.nonPositive
                    (Prim2SF (Double.CALL_COST * Double.ofZ (batchSizeOf count))%float))
    by (apply cost_nonPositive, ofZ_nonPositive; lia).
  pose proof (funds_cover_nonPositive_cost _ _ Hbal Hcost) as Hfunds.
  pose proof (sub_nonNegative _ _ Hbal Hcost) as Hnew.
  pose proof (nonNegative_not_nan _ Hnew) as Hsaved.
  split; [by apply nonPositive_leb|].
  destruct (Double_next_contacts_path now db caller id count)
    as [Hu' | u' Hu' Hlt | u' Hu' Hle Hc' | u' c' Hu' Hle Hc' Hown' Hact' Hnan
        | u' c' Hu' Hle Hc' Hown' Hact' Hnan Hl | u' c' Hu' Hle Hc' Hown' Hact' Hnan Hl];
    simpl.
  - congruence.
  - assert (u' = u) by congruence. subst u'. congruence.
  - rewrite (Hc' c Hc Hown) in Hact. discriminate.
  - assert (u' = u) by congruence. subst u'. congruence.
  - assert (u' = u) by congruence. subst u'.
    split; [done|]. split; [by apply nonNegative_leb | by left].
  - assert (u' = u) by congruence. subst u'.
    split; [done|]. split; [by apply nonNegative_leb | right; by eexists].
Qed.

Lemma negative_count_credits_balance_witness :
  exists batch,
    snd (Double.next_contacts 1%N (Double.demoDb 0x1.999999999999ap-4 3) aliceId demoId "-4")
    = Double.Reply 200 (Double.ContactsBody batch 0x1.3333333333334p-2)
    /\ (0x1.999999999999ap-4 <? 0x1.3333333333334p-2)%float = true.
Proof.
  destruct (negative_count_credits_balance 1%N (Double.demoDb 0x1.999999999999ap-4 3)
              aliceId demoId "-4"
              (Double.mkUser "alice" (Bcrypt "secret") "user" 0x1.999999999999ap-4 0%N) demo
              eq_refl eq_refl eq_refl eq_refl eq_refl eq_refl)
    as (_ & _ & _ & [H404 | [batch Hbatch]]).
  - discriminate H404.
  - exists batch. split; [exact Hbatch | reflexivity].
Defined.

Lemma Double_next_contacts_balances now db caller id count :
  Double.balancesNonNegative db ->
  Double.balancesNonNegative (fst (Double.next_contacts now db caller id count)).
Proof.
  intros Hinv.
  destruct (Double_next_contacts_path now db caller id count)
    as [Hu | u Hu Hlt | u Hu Hle Hc | u c Hu Hle Hc Hown Hact Hnan
        | u c Hu Hle Hc Hown Hact Hnan Hl | u c Hu Hle Hc Hown Hact Hnan Hl]; try done.
  - unfold Double.balancesNonNegative; simpl. apply map_Forall_insert_2; [|done].
    simpl. apply nonNegative_leb, debit_nonNegative; [|done|done].
    apply nonNegative_leb. exact (Hinv _ _ Hu).
  - unfold Double.balancesNonNegative; simpl. apply map_Forall_insert_2; [|done].
    simpl. apply nonNegative_leb, debit_nonNegative; [|done|done].
    apply nonNegative_leb. exact (Hinv _ _ Hu).
Qed.

Lemma Double_add_balance_balances db caller userId amount :
  Double.balancesNonNegative db ->
  Double.balancesNonNegative (fst (Double.add_balance db caller userId amount)).
Proof.
  intros Hinv. unfold Double.add_balance, Double.adminMiddleware.
  destruct (Double.users db !! caller) as [admin|]; [|done].
  destruct (String.eqb _ _); [|done].
  destruct amount as [| |b|a|s]; try done.
  destruct (a <=? 0)%float eqn:Ha; [done|].
  destruct (is_nan a) eqn:Hnan; [done|].
  destruct (Double.users db !! userId) as [u|] eqn:Hu; [|done].
  unfold Double.balancesNonNegative; simpl. apply map_Forall_insert_2; [|done].
  simpl. apply nonNegative_leb, credit_nonNegative; [|done|done].
  apply nonNegative_leb. exact (Hinv _ _ Hu).
Qed.

(** X30.  The balance invariant in the program's own arithmetic.  With
    balances held as doubles, and starting from balances that are all
    numbers not below 0, every balance is a number not below 0 - never
    negative and never NaN - after each operation of any sequence of
    dispatch-tick debits and administrative credits, infinite amounts
    and counts of any size included. *)
Theorem balance_never_negative_in_doubles ops db :
  Double.balancesNonNegative db ->
  Forall Double.balancesNonNegative (Double.ledgerTrace db ops).
Proof.
  revert db. induction ops as [|op ops IH]; intros db Hinv; simpl.
  - constructor.
  - assert (Hstep : Double.balancesNonNegative (Double.applyLedgerOp db op)).
    { destruct op; simpl;
        [by apply Double_next_contacts_balances | by apply Double_add_balance_balances]. }
    constructor; [done | by apply IH].
Qed.

Lemma balance_never_negative_in_doubles_witness :
  Forall Double.balancesNonNegative
    (Double.ledgerTrace (Double.demoDb 0x1.3333333333333p-3 3)
       [Double.Debit 1%N aliceId demoId "3";
        Double.Credit rootId aliceId (Double.JNumber infinity);
        Double.Debit 2%N aliceId demoId "-3";
        Double.Debit 3%N aliceId demoId "99999999999999999999"]).
Proof.
  apply balance_never_negative_in_doubles.
  unfold Double.balancesNonNegative, Double.demoDb; simpl.
  apply map_Forall_insert_2; [reflexivity|]. apply map_Forall_singleton. reflexivity.
Defined.



(** ** What each route leaves alone *)

Lemma adminMiddleware_check db caller next :
  adminMiddleware db caller next =
    match adminCheck db caller with
    | None => next
    | Some r => (db, r)
    end.
Proof.
  unfold adminMiddleware, adminCheck. destruct (users db !! caller) as [u|]; [|done].
  by destruct (String.eqb (role u) "admin").
Qed.

Lemma adminCheck_None db caller : adminCheck db caller = None <-> isAdmin db caller.
Proof.
  unfold adminCheck, isAdmin. destruct (users db !! caller) as [u|]; simpl.
  - destruct (String.eqb_spec (role u) "admin") as [He|Hne]; split; try done.
    + intros _. by exists u.
    + intros (u' & [= <-] & Hr). done.
  - split; [done|]. by intros (? & ? & _).
Qed.

Lemma auth_register_frame now newId db body :
  (fst (auth_register now newId db body) = db
   /\ forall tokenBody, snd (auth_register now newId db body) <> Reply 200 tokenBody)
  \/ (users db !! newId = None /\
      exists u,
        fst (auth_register now newId db body) = setUsers (<[newId := u]> (users db)) db
        /\ snd (auth_register now newId db body) = Reply 200 (Token newId)
        /\ username u = Js.str (Js.trim (Js.chars (reqUsername body)))
        /\ password u = Bcrypt (reqPassword body)
        /\ role u = default "user" (reqRole body)
        /\ balance u = 0%Q
        /\ usernameTaken db (username u) = false).
Proof.
  unfold auth_register.
  destruct (usernameTaken db _) eqn:Htaken; [by left|].
  destruct (String.eqb _ EmptyString); [by left|].
  case_bool_decide; simpl; [|by left].
  destruct (users db !! newId) eqn:Hid; [by left|].
  right. split; [done|]. eexists. by repeat split.
Qed.

Lemma add_balance_frame db caller userId amount :
  add_balance db caller userId amount = (db, snd (add_balance db caller userId amount))
  \/ (isAdmin db caller /\
      exists u a,
        amount = JNumber a /\ (0 < a)%Q /\ users db !! userId = Some u
        /\ fst (add_balance db caller userId amount)
           = setUsers (<[userId := setBalance (balance u + a) u]> (users db)) db).
Proof.
  unfold add_balance. rewrite adminMiddleware_check.
  destruct (adminCheck db caller) eqn:Hadm; [by left|].
  apply adminCheck_None in Hadm.
  destruct amount as [| |b|a|s]; try by left.
  destruct (Qle_bool a 0) eqn:Ha; [by left|]. apply Qle_bool_false in Ha.
  destruct (users db !! userId) as [u|] eqn:Hu; [|by left].
  right. split; [done|]. by exists u, a.
Qed.

Lemma post_blocklist_frame db caller numbers :
  let db' := fst (post_blocklist db caller numbers) in
  users db' = users db /\ campaigns db' = campaigns db /\ contactDocs db' = contactDocs db
  /\ (is_Some (settings db) -> is_Some (settings db')).
Proof.
  unfold post_blocklist. rewrite adminMiddleware_check.
  destruct (adminCheck db caller); simpl; by repeat split.
Qed.

Lemma delete_blocklist_frame db caller n :
  let db' := fst (delete_blocklist db caller n) in
  users db' = users db /\ campaigns db' = campaigns db /\ contactDocs db' = contactDocs db
  /\ (is_Some (settings db) -> is_Some (settings db')).
Proof.
  unfold delete_blocklist. rewrite adminMiddleware_check.
  destruct (adminCheck db caller); simpl; [by repeat split|].
  destruct (settings db); simpl; by repeat split.
Qed.

Lemma insertUnordered_spec coll docs :
  let '(coll', inserted, failed) := insertUnordered coll docs in
  coll' = coll ++ inserted /\ sublist inserted docs
  /\ (failed = false -> inserted = docs).
Proof.
  revert coll. induction docs as [|d ds IH]; intros coll; simpl.
  - by rewrite app_nil_r.
  - destruct (duplicateKey coll d).
    + specialize (IH coll). destruct (insertUnordered coll ds) as [[coll' ins] e].
      destruct IH as (-> & Hsub & _). split; [done|]. split; [by constructor|done].
    + specialize (IH (coll ++ [d])).
      destruct (insertUnordered (coll ++ [d]) ds) as [[coll' ins] e].
      destruct IH as (-> & Hsub & He). split; [by rewrite <- app_assoc|].
      split; [by constructor|]. intros ->. by rewrite He.
Qed.

Lemma submittedContacts_spec newId contactIdOf data d :
  d ∈ submittedContacts newId contactIdOf data ->
  campaign d = newId /\ validContact d = true
  /\ exists i x, data !! i = Some x /\ d = contactDocument newId contactIdOf i x.
Proof.
  unfold submittedContacts. intros [Hvalid Hd]%list_elem_of_filter.
  apply elem_of_lookup_imap in Hd as (i & x & -> & Hx). repeat split; [done|].
  by exists i, x.
Qed.

(** What a creation request writes, whatever the verdict. *)
Lemma create_campaign_after_frame verdict now newId contactIdOf db caller body :
  let result := create_campaign_after verdict now newId contactIdOf db caller body in
  users (fst result) = users db /\ settings (fst result) = settings db
  /\ (campaigns (fst result) = campaigns db
      \/ (campaigns db !! newId = None /\
          exists c, campaigns (fst result) = <[newId := c]> (campaigns db)
                    /\ user c = caller
                    /\ isActive c = default false (bodyIsActive body)))
  /\ exists added,
       contactDocs (fst result) = contactDocs db ++ added
       /\ Forall (fun d => campaign d = newId) added.
Proof.
  assert (Hsame : users db = users db /\ settings db = settings db
                  /\ (campaigns db = campaigns db
                      \/ (campaigns db !! newId = None /\
                          exists c, campaigns db = <[newId := c]> (campaigns db)
                                    /\ user c = caller
                                    /\ isActive c = default false (bodyIsActive body)))
                  /\ exists added, contactDocs db = contactDocs db ++ added
                                   /\ Forall (fun d => campaign d = newId) added).
  { repeat split; [by left|]. exists []. by rewrite app_nil_r. }
  unfold create_campaign_after. destruct verdict; [done| |done].
  case_bool_decide; [done|].
  destruct (negb (validCampaign _)); [done|].
  destruct (campaigns db !! newId) eqn:Hid; [done|].
  destruct (bodyContactsData body) as [data|].
  2:{ simpl. repeat split.
      - right. split; [done|]. eexists. by repeat split.
      - exists []. by rewrite app_nil_r. }
  simpl.
  pose proof (insertUnordered_spec (contactDocs db) (submittedContacts newId contactIdOf data))
    as Hins.
  destruct (insertUnordered _ _) as [[coll' inserted] failed].
  destruct Hins as (-> & Hsub & _).
  assert (Hadded : Forall (fun d => campaign d = newId) inserted).
  { apply Forall_forall. intros d Hd.
    assert (Hin : d ∈ submittedContacts newId contactIdOf data) by by eapply elem_of_sublist.
    by apply submittedContacts_spec in Hin as [? _]. }
  destruct failed; simpl.
  - repeat split.
    + right. split; [done|]. eexists. by repeat split.
    + by exists inserted.
  - repeat split.
    + right. split; [done|]. eexists. split; [by rewrite insert_insert_eq|]. done.
    + by exists inserted.
Qed.

Lemma sameIdentity_refl u : sameIdentity u u.
Proof. by repeat split. Qed.

Lemma sameCampaignData_refl c : sameCampaignData c c.
Proof. by repeat split. Qed.

(** X6.  What a tick does to the campaigns, the contacts and the settings.
    The contact collection and the settings are never written.  Of the
    campaigns only the requested one can change: with a batch its
    [lastBatchFetchTime] becomes the time of the request, with 402 its
    [isActive] becomes false, and with any other answer it is as it was. *)
Theorem next_contacts_touches_one_campaign now db caller id count :
  let result := next_contacts now db caller id count in
  contactDocs (fst result) = contactDocs db
  /\ settings (fst result) = settings db
  /\ (forall other, other <> id ->
        (campaigns (fst result) !! other) = (campaigns db !! other))
  /\ (campaigns db !! id = None -> campaigns (fst result) !! id = None)
  /\ (forall c, campaigns db !! id = Some c ->
        exists c', campaigns (fst result) !! id = Some c' /\ sameCampaignData c c'
          /\ (answersWithBatch (snd result) ->
              isActive c' = isActive c /\ lastBatchFetchTime c' = Some now)
          /\ (snd result = Reply 402 (Message "Insufficient balance. Campaign paused.") ->
              isActive c' = false /\ lastBatchFetchTime c' = lastBatchFetchTime c)
          /\ (~ answersWithBatch (snd result) ->
              snd result <> Reply 402 (Message "Insufficient balance. Campaign paused.") ->
              c' = c)).
Proof.
  intros result. subst result.
  assert (H500 : ~ answersWithBatch (Reply 500 (Message "Error fetching contacts.")))
    by (intros (? & ? & [=])).
  assert (H404 : ~ answersWithBatch (Reply 404 (Message "Campaign not found or is inactive.")))
    by (intros (? & ? & [=])).
  assert (H404' : ~ answersWithBatch (Reply 404 (Message "No new contacts to call.")))
    by (intros (? & ? & [=])).
  assert (H402 : ~ answersWithBatch (Reply 402 (Message "Insufficient balance. Campaign paused.")))
    by (intros (? & ? & [=])).
  destruct (next_contacts_path now db caller id count)
    as [Hu | u Hu Hlt | u Hu Hle Hc | u c Hu Hle Hc Hown Hact Hl
        | u c Hu Hle Hc Hown Hact Hl]; simpl.
  - split; [done|]. split; [done|]. split; [done|]. split; [done|].
    intros c Hc. exists c. split; [done|]. split; [apply sameCampaignData_refl|].
    split; [by intros ?%H500|]. split; [discriminate | done].
  - split; [done|]. split; [done|].
    split; [intros other Hne; by rewrite lookup_alter_ne|].
    split; [intros Hnone; by rewrite lookup_alter_eq, Hnone|].
    intros c Hc. exists (setIsActive false c). rewrite lookup_alter_eq, Hc.
    split; [done|]. split; [by repeat split|].
    split; [by intros ?%H402|]. split; [done|]. intros _ Hne. by destruct Hne.
  - split; [done|]. split; [done|]. split; [done|]. split; [done|].
    intros c Hc'. exists c. split; [done|]. split; [apply sameCampaignData_refl|].
    split; [by intros ?%H404|]. split; [discriminate | done].
  - split; [done|]. split; [done|]. split; [done|]. split; [done|].
    intros c' Hc'. exists c'. split; [done|]. split; [apply sameCampaignData_refl|].
    split; [by intros ?%H404'|]. split; [discriminate | done].
  - split; [done|]. split; [done|].
    split; [intros other Hne; by rewrite lookup_insert_ne|].
    split; [intros Hnone; congruence|].
    intros c' Hc'. assert (c' = c) by congruence. subst c'.
    exists (setLastBatchFetchTime now c). rewrite lookup_insert_eq.
    split; [done|]. split; [by repeat split|].
    split; [done|]. split; [discriminate|].
    intros Hnot. destruct Hnot. by eexists _, _.
Qed.

Lemma next_contacts_touches_one_campaign_witness :
  exists c',
    campaigns (fst (next_contacts 9%N (demoDb 3 0) aliceId demoId "2")) !! demoId = Some c'
    /\ sameCampaignData demo c'.
Proof.
  destruct (next_contacts_touches_one_campaign 9%N (demoDb 3 0) aliceId demoId "2")
    as (_ & _ & _ & _ & Hid).
  destruct (Hid demo eq_refl) as (c' & Hc' & Hsame & _).
  exists c'. split; [exact Hc' | exact Hsame].
Defined.

(** ** Invariants of the whole interface *)

Lemma evolves_refl db : evolves db db.
Proof.
  repeat split; try done.
  - intros i u Hu. exists u. split; [done | apply sameIdentity_refl].
  - intros i c Hc. exists c. split; [done|]. split; [apply sameCampaignData_refl | done].
  - exists []. by rewrite app_nil_r.
Qed.

Lemma evolves_trans db1 db2 db3 : evolves db1 db2 -> evolves db2 db3 -> evolves db1 db3.
Proof.
  intros (Hu1 & Hc1 & (a1 & Ha1) & Hs1) (Hu2 & Hc2 & (a2 & Ha2) & Hs2).
  repeat split.
  - intros i u Hu. destruct (Hu1 i u Hu) as (u' & Hu' & H1).
    destruct (Hu2 i u' Hu') as (u'' & Hu'' & H2). exists u''. split; [done|].
    destruct H1 as (? & ? & ? & ?), H2 as (? & ? & ? & ?).
    repeat split; congruence.
  - intros i c Hc. destruct (Hc1 i c Hc) as (c' & Hc' & H1 & Hact1).
    destruct (Hc2 i c' Hc') as (c'' & Hc'' & H2 & Hact2). exists c''. split; [done|].
    split; [|auto].
    destruct H1 as (? & ? & ? & ? & ? & ? & ? & ? & ?),
             H2 as (? & ? & ? & ? & ? & ? & ? & ? & ?).
    repeat split; congruence.
  - exists (a1 ++ a2). by rewrite Ha2, Ha1, app_assoc.
  - auto.
Qed.

Lemma evolves_users_insert db i u u' :
  users db !! i = Some u -> sameIdentity u u' ->
  evolves db (setUsers (<[i := u']> (users db)) db).
Proof.
  intros Hu Hsame. repeat split; try done.
  - intros j v Hv. simpl. destruct (decide (i = j)) as [<-|Hne].
    + rewrite lookup_insert_eq. exists u'. split; [done|]. congruence.
    + rewrite lookup_insert_ne by done. exists v. split; [done | apply sameIdentity_refl].
  - intros j c Hc. exists c. split; [done|]. split; [apply sameCampaignData_refl | done].
  - exists []. by rewrite app_nil_r.
Qed.

Lemma evolves_campaign_insert db i c c' :
  campaigns db !! i = Some c -> sameCampaignData c c' ->
  (isActive c' = true -> isActive c = true) ->
  evolves db (setCampaigns (<[i := c']> (campaigns db)) db).
Proof.
  intros Hc Hsame Hact. split; [|split; [|split]]; simpl; [| | |done].
  - intros j v Hv. exists v. split; [done | apply sameIdentity_refl].
  - intros j d Hd. destruct (decide (i = j)) as [<-|Hne].
    + rewrite lookup_insert_eq. exists c'. assert (d = c) by congruence. by subst d.
    + rewrite lookup_insert_ne by done. exists d. split; [done|].
      split; [apply sameCampaignData_refl | done].
  - exists []. by rewrite app_nil_r.
Qed.

Lemma evolves_campaigns_paused db id :
  evolves db (setCampaigns (alter (setIsActive false) id (campaigns db)) db).
Proof.
  split; [|split; [|split]]; simpl; [| | |done].
  - intros j v Hv. exists v. split; [done | apply sameIdentity_refl].
  - intros j d Hd. destruct (decide (id = j)) as [<-|Hne].
    + rewrite lookup_alter_eq, Hd. exists (setIsActive false d).
      split; [done|]. split; [by repeat split | discriminate].
    + rewrite lookup_alter_ne by done. exists d. split; [done|].
      split; [apply sameCampaignData_refl | done].
  - exists []. by rewrite app_nil_r.
Qed.

(** A step that leaves accounts, campaigns and contacts alone. *)
Lemma evolves_settings db db' :
  users db' = users db -> campaigns db' = campaigns db ->
  contactDocs db' = contactDocs db ->
  (is_Some (settings db) -> is_Some (settings db')) ->
  evolves db db'.
Proof.
  intros Hu Hc Hd Hs. split; [|split; [|split]]; [| | |done].
  - intros j v Hv. exists v. rewrite Hu. split; [done | apply sameIdentity_refl].
  - intros j c Hc'. exists c. rewrite Hc. split; [done|].
    split; [apply sameCampaignData_refl | done].
  - exists []. by rewrite Hd, app_nil_r.
Qed.

Lemma create_campaign_after_evolves verdict now newId contactIdOf db caller body :
  evolves db (fst (create_campaign_after verdict now newId contactIdOf db caller body)).
Proof.
  destruct (create_campaign_after_frame verdict now newId contactIdOf db caller body)
    as (Hu & Hs & Hc & added & Hadd & _).
  split; [|split; [|split]].
  - intros j v Hv. exists v. rewrite Hu. split; [done | apply sameIdentity_refl].
  - intros j c Hc'. exists c.
    destruct Hc as [-> | (Hfresh & c0 & -> & _)].
    + split; [done|]. split; [apply sameCampaignData_refl | done].
    + rewrite lookup_insert_ne by congruence. split; [done|].
      split; [apply sameCampaignData_refl | done].
  - by exists added.
  - by rewrite Hs.
Qed.

Lemma next_contacts_evolves now db caller id count :
  evolves db (fst (next_contacts now db caller id count)).
Proof.
  destruct (next_contacts_path now db caller id count)
    as [Hu | u Hu Hlt | u Hu Hle Hc | u c Hu Hle Hc Hown Hact Hl
        | u c Hu Hle Hc Hown Hact Hl]; simpl.
  - apply evolves_refl.
  - apply evolves_campaigns_paused.
  - apply evolves_refl.
  - eapply evolves_users_insert; [exact Hu | by repeat split].
  - unfold stamped, debited. eapply evolves_trans.
    + eapply (evolves_users_insert db caller u (setBalance _ u));
        [exact Hu | by repeat split].
    + apply (evolves_campaign_insert _ id c (setLastBatchFetchTime now c));
        [done | by repeat split | done].
Qed.

Lemma applyApiOp_evolves db op : evolves db (applyApiOp db op).
Proof.
  destruct op as [now newId body | caller userId amount | caller numbers | caller n
                  | key perspective outside now newId contactIdOf caller body
                  | now caller id count]; simpl.
  - destruct (auth_register_frame now newId db body) as [[-> _] | (Hfresh & u & -> & _)].
    + apply evolves_refl.
    + repeat split; try done; simpl.
      * intros j v Hv. exists v. rewrite lookup_insert_ne by congruence.
        split; [done | apply sameIdentity_refl].
      * intros j c Hc. exists c. split; [done|].
        split; [apply sameCampaignData_refl | done].
      * exists []. by rewrite app_nil_r.
  - destruct (add_balance_frame db caller userId amount)
      as [-> | (_ & u & a & _ & _ & Hu & ->)].
    + apply evolves_refl.
    + eapply evolves_users_insert; [exact Hu | by repeat split].
  - destruct (post_blocklist_frame db caller numbers) as (Hu & Hc & Hd & Hs).
    by apply evolves_settings.
  - destruct (delete_blocklist_frame db caller n) as (Hu & Hc & Hd & Hs).
    by apply evolves_settings.
  - apply create_campaign_after_evolves.
  - apply next_contacts_evolves.
Qed.

Lemma runApiOps_cons db op ops : runApiOps db (op :: ops) = runApiOps (applyApiOp db op) ops.
Proof. reflexivity. Qed.

Lemma runApiOps_evolves ops db : evolves db (runApiOps db ops).
Proof.
  revert db. induction ops as [|op ops IH]; intros db.
  - apply evolves_refl.
  - rewrite runApiOps_cons. eapply evolves_trans; [apply applyApiOp_evolves | apply IH].
Qed.

(** X7.  No route turns a campaign active.  Once a campaign is inactive it
    is inactive after every sequence of requests, and no tick on it is
    answered with a batch. *)
Theorem inactive_campaign_stays_idle ops db id :
  inactiveCampaign db id ->
  inactiveCampaign (runApiOps db ops) id
  /\ forall now caller count,
       ~ answersWithBatch (snd (next_contacts now (runApiOps db ops) caller id count)).
Proof.
  intros (c & Hc & Hoff).
  destruct (runApiOps_evolves ops db) as (_ & Hcs & _ & _).
  destruct (Hcs id c Hc) as (c' & Hc' & _ & Hact).
  assert (Hoff' : isActive c' = false).
  { destruct (isActive c') eqn:E; [|done]. rewrite Hact in Hoff; done. }
  split; [by exists c'|].
  intros now caller count (batch & nb & Hr).
  destruct (next_contacts_path now (runApiOps db ops) caller id count)
    as [Hu | u Hu Hlt | u Hu Hle Hc0 | u c0 Hu Hle Hc0 Hown Hact0 Hl
        | u c0 Hu Hle Hc0 Hown Hact0 Hl]; simpl in Hr; try discriminate Hr.
  congruence.
Qed.

Lemma inactive_campaign_stays_idle_witness :
  inactiveCampaign
    (runApiOps (pausedDb 1)
       [OpAddBalance rootId aliceId (JNumber 10);
        OpCreateCampaign None FetchRejected NotFlagged 2%N 8%N (fun i => N.of_nat i)
          aliceId starredBody;
        OpNextContacts 3%N aliceId demoId "5";
        OpBlocklistAdd rootId (Some "+15550100")])
    demoId.
Proof.
  refine (proj1 (inactive_campaign_stays_idle
                   [OpAddBalance rootId aliceId (JNumber 10);
                    OpCreateCampaign None FetchRejected NotFlagged 2%N 8%N
                      (fun i => N.of_nat i) aliceId starredBody;
                    OpNextContacts 3%N aliceId demoId "5";
                    OpBlocklistAdd rootId (Some "+15550100")]
                   (pausedDb 1) demoId _)).
  exists (setIsActive false demo). split; reflexivity.
Defined.

(** X8.  No route removes an account or changes its username, its password
    hash, its role or its creation date: after every sequence of requests an
    account differs from what it was at most in its balance. *)
Theorem accounts_keep_identity ops db i u :
  users db !! i = Some u ->
  exists u', users (runApiOps db ops) !! i = Some u' /\ sameIdentity u u'.
Proof.
  intros Hu. destruct (runApiOps_evolves ops db) as (Hus & _). by apply Hus.
Qed.

Lemma accounts_keep_identity_witness :
  exists u',
    users (runApiOps (demoDb 2 0)
             [OpRegister 3%N 9%N (mkRegisterBody "alice" "x" (Some "admin"));
              OpNextContacts 1%N aliceId demoId "2";
              OpCreateCampaign None FetchRejected Thrown 2%N 8%N (fun i => N.of_nat i)
                aliceId starredBody;
              OpAddBalance rootId aliceId (JNumber 3)]) !! aliceId = Some u'
    /\ sameIdentity alice u'.
Proof.
  exact (accounts_keep_identity
           [OpRegister 3%N 9%N (mkRegisterBody "alice" "x" (Some "admin"));
            OpNextContacts 1%N aliceId demoId "2";
            OpCreateCampaign None FetchRejected Thrown 2%N 8%N (fun i => N.of_nat i)
              aliceId starredBody;
            OpAddBalance rootId aliceId (JNumber 3)]
           (demoDb 2 0) aliceId alice eq_refl).
Defined.

Lemma applyApiOp_keeps_contacts db op :
  isCreation op = false -> contactDocs (applyApiOp db op) = contactDocs db.
Proof.
  destruct op as [now newId body | caller userId amount | caller numbers | caller n
                  | key perspective outside now newId contactIdOf caller body
                  | now caller id count]; simpl; intros Hop; try discriminate Hop.
  - by destruct (auth_register_frame now newId db body) as [[-> _] | (_ & u & -> & _)].
  - by destruct (add_balance_frame db caller userId amount)
      as [-> | (_ & u & a & _ & _ & _ & ->)].
  - by destruct (post_blocklist_frame db caller numbers) as (_ & _ & Hd & _).
  - by destruct (delete_blocklist_frame db caller n) as (_ & _ & Hd & _).
  - apply next_contacts_keeps_contacts.
Qed.

Lemma callsMade_app db db' added :
  contactDocs db' = contactDocs db ++ added ->
  callsMade db' = (callsMade db + length (filter (fun c => status c <> new) added))%nat.
Proof. intros Hadd. unfold callsMade. by rewrite Hadd, filter_app, length_app. Qed.

(** X9.  No route rewrites or removes a stored contact.  After every
    sequence of requests the contacts that were on record are still there,
    unchanged and in the same order, followed by those inserted since; so
    the number of contacts whose status is not 'new' - the figure the admin
    overview reports as calls made - never goes down.  Only campaign
    creation inserts contacts: a sequence without one leaves the collection
    and the figure as they were.  A creation does raise the figure when an
    entry of its request carries a status other than 'new'. *)
Theorem stored_contacts_are_never_rewritten :
  (forall ops db,
     (exists added, contactDocs (runApiOps db ops) = contactDocs db ++ added)
     /\ (callsMade db <= callsMade (runApiOps db ops))%nat)
  /\ (forall ops db,
        forallb (fun op => negb (isCreation op)) ops = true ->
        contactDocs (runApiOps db ops) = contactDocs db
        /\ forall caller overview,
             admin_overview (runApiOps db ops) caller = Success 200 overview ->
             totalCallsMade overview = callsMade db)
  /\ (callsMade (demoDb 0 0) = 0%nat
      /\ forall outside,
           callsMade (runApiOps (demoDb 0 0)
                        [OpCreateCampaign None FetchRejected outside 2%N 8%N
                           (fun i => N.of_nat i) aliceId calledBody]) = 1%nat).
Proof.
  split; [|split].
  - intros ops db. destruct (runApiOps_evolves ops db) as (_ & _ & (added & Hadd) & _).
    split; [by exists added|]. rewrite (callsMade_app db _ added Hadd). lia.
  - intros ops. induction ops as [|op ops IH]; intros db Hops.
    + split; [done|]. intros caller overview. unfold admin_overview.
      destruct (adminCheck _ caller); [discriminate|]. by intros [= <-].
    + simpl in Hops. apply andb_true_iff in Hops as [Hop Hops].
      apply negb_true_iff in Hop. rewrite runApiOps_cons.
      destruct (IH (applyApiOp db op) Hops) as [Hdocs Hover].
      pose proof (applyApiOp_keeps_contacts db op Hop) as Hstep.
      split; [by rewrite Hdocs|].
      intros caller overview Hr. rewrite (Hover caller overview Hr).
      unfold callsMade. by rewrite Hstep.
  - split; [reflexivity | by intros []].
Qed.

Lemma stored_contacts_are_never_rewritten_witness :
  contactDocs (runApiOps (demoDb 4 1)
                 [OpNextContacts 1%N aliceId demoId "2"; OpAddBalance rootId aliceId (JNumber 1);
                  OpNextContacts 2%N aliceId demoId "2"])
  = contactDocs (demoDb 4 1).
Proof.
  exact (proj1 (proj1 (proj2 stored_contacts_are_never_rewritten)
                  [OpNextContacts 1%N aliceId demoId "2";
                   OpAddBalance rootId aliceId (JNumber 1);
                   OpNextContacts 2%N aliceId demoId "2"]
                  (demoDb 4 1) eq_refl)).
Defined.

(** X10.  The settings document.  While it is missing, reading the
    blocklist or removing a number from it sends no reply at all, even for
    an admin.  The initialisation at startup creates it, no route removes
    it, and from then on both routes reply to every caller. *)
Theorem settings_document_persists :
  (forall db caller n,
     isAdmin db caller -> settings db = None ->
     get_blocklist db caller = (db, NoReply)
     /\ delete_blocklist db caller n = (db, NoReply))
  /\ (forall db, is_Some (settings (initializeSettings db)))
  /\ (forall ops db caller n,
        is_Some (settings db) ->
        is_Some (settings (runApiOps db ops))
        /\ snd (get_blocklist (runApiOps db ops) caller) <> NoReply
        /\ snd (delete_blocklist (runApiOps db ops) caller n) <> NoReply).
Proof.
  split; [|split].
  - intros db caller n Hadm Hnone. unfold get_blocklist, delete_blocklist.
    rewrite !adminMiddleware_admin by done. by rewrite Hnone.
  - intros db. unfold initializeSettings. destruct (settings db) eqn:Hs; simpl; eauto.
  - intros ops db caller n Hs.
    destruct (runApiOps_evolves ops db) as (_ & _ & _ & Hkeep).
    destruct (Hkeep Hs) as [l Hl]. split; [by exists l|].
    unfold get_blocklist, delete_blocklist. rewrite !adminMiddleware_check, Hl.
    unfold adminCheck. destruct (users (runApiOps db ops) !! caller) as [u|]; [|done].
    by destruct (String.eqb (role u) "admin").
Qed.

Lemma settings_document_persists_witness :
  get_blocklist (setSettings None (demoDb 0 0)) rootId
  = (setSettings None (demoDb 0 0), NoReply)
  /\ snd (get_blocklist
            (runApiOps (initializeSettings (setSettings None (demoDb 0 0)))
               [OpCreateCampaign None FetchRejected Flagged 2%N 8%N (fun i => N.of_nat i)
                  aliceId starredBody;
                OpBlocklistRemove rootId "+15550100"])
            rootId) <> NoReply.
Proof.
  split.
  - refine (proj1 (proj1 settings_document_persists (setSettings None (demoDb 0 0)) rootId
                     EmptyString _ eq_refl)).
    exists root. split; reflexivity.
  - refine (proj1 (proj2 (proj2 (proj2 settings_document_persists)
                     [OpCreateCampaign None FetchRejected Flagged 2%N 8%N
                        (fun i => N.of_nat i) aliceId starredBody;
                      OpBlocklistRemove rootId "+15550100"]
                     (initializeSettings (setSettings None (demoDb 0 0))) rootId EmptyString _))).
    by eexists.
Defined.

Lemma usernameTaken_false db name :
  usernameTaken db name = false <->
  forall i u, users db !! i = Some u -> username u <> name.
Proof. unfold usernameTaken. by rewrite bool_decide_eq_false, map_not_Exists. Qed.

Lemma usernamesUnique_update db i u u' :
  usernamesUnique db -> users db !! i = Some u -> username u' = username u ->
  usernamesUnique (setUsers (<[i := u']> (users db)) db).
Proof.
  intros Huniq Hu Hname j k v w; simpl.
  destruct (decide (i = j)) as [<-|Hj], (decide (i = k)) as [<-|Hk]; [done|..].
  - rewrite lookup_insert_eq, lookup_insert_ne by done. intros [= <-] Hw Heq.
    apply (Huniq i k u w); congruence.
  - rewrite lookup_insert_eq, lookup_insert_ne by done. intros Hv [= <-] Heq.
    apply (Huniq j i v u); congruence.
  - rewrite !lookup_insert_ne by done. apply Huniq.
Qed.

Lemma applyApiOp_users db op :
  users (applyApiOp db op) = users db
  \/ (exists i u u', users db !! i = Some u /\ sameIdentity u u'
                     /\ (0 <= balance u -> 0 <= balance u')%Q
                     /\ users (applyApiOp db op) = <[i := u']> (users db))
  \/ (exists i u, users db !! i = None /\ usernameTaken db (username u) = false
                  /\ balance u = 0%Q /\ users (applyApiOp db op) = <[i := u]> (users db)).
Proof.
  destruct op as [now newId body | caller userId amount | caller numbers | caller n
                  | key perspective outside now newId contactIdOf caller body
                  | now caller id count]; simpl.
  - destruct (auth_register_frame now newId db body)
      as [[-> _] | (Hfresh & u & -> & _ & _ & _ & _ & Hbal & Htaken)]; [by left|].
    right; right. by exists newId, u.
  - destruct (add_balance_frame db caller userId amount)
      as [-> | (_ & u & a & _ & Ha & Hu & ->)]; [by left|].
    right; left. exists userId, u, (setBalance (balance u + a) u).
    split; [done|]. split; [by repeat split|]. split; [simpl; lra | done].
  - left. pose proof (post_blocklist_frame db caller numbers) as H. simpl in H. tauto.
  - left. pose proof (delete_blocklist_frame db caller n) as H. simpl in H. tauto.
  - left. by destruct (create_campaign_after_frame (moderation key perspective body outside)
                         now newId contactIdOf db caller body).
  - destruct (next_contacts_path now db caller id count)
      as [Hu | u Hu Hlt | u Hu Hle Hc | u c Hu Hle Hc Hown Hact Hl
          | u c Hu Hle Hc Hown Hact Hl]; simpl; try by left.
    + right; left. eexists caller, u, _. split; [done|]. split; [|split; [|done]].
      * by repeat split.
      * simpl. lra.
    + right; left. eexists caller, u, _. split; [done|]. split; [|split; [|done]].
      * by repeat split.
      * simpl. lra.
Qed.

(** X11.  Over every route that writes - registration and campaign
    creation included - balances that are all non-negative stay
    non-negative, and usernames that are pairwise distinct stay pairwise
    distinct. *)
Theorem accounts_stay_well_formed ops db :
  (balancesNonNegative db -> balancesNonNegative (runApiOps db ops))
  /\ (usernamesUnique db -> usernamesUnique (runApiOps db ops)).
Proof.
  revert db. induction ops as [|op ops IH]; intros db.
  - done.
  - rewrite runApiOps_cons. destruct (IH (applyApiOp db op)) as [IHbal IHuniq].
    destruct (applyApiOp_users db op)
      as [Heq | [(i & u & u' & Hu & Hsame & Hbal & Hdb) | (i & u & Hfresh & Htaken & Hzero & Heq)]].
    + split; intros H.
      * apply IHbal. unfold balancesNonNegative. by rewrite Heq.
      * apply IHuniq. unfold usernamesUnique. by rewrite Heq.
    + rename Hdb into Hus. split; intros H.
      * apply IHbal. unfold balancesNonNegative. rewrite Hus.
        apply map_Forall_insert_2; [|done]. apply Hbal. by apply (H i u).
      * apply IHuniq. destruct Hsame as (Hname & _).
        pose proof (usernamesUnique_update db i u u' H Hu Hname) as Huniq.
        unfold usernamesUnique in *. rewrite Hus. exact Huniq.
    + split; intros H.
      * apply IHbal. unfold balancesNonNegative. rewrite Heq.
        apply map_Forall_insert_2; [|done]. simpl. rewrite Hzero. apply Qle_refl.
      * apply IHuniq. unfold usernamesUnique. rewrite Heq.
        rewrite usernameTaken_false in Htaken.
        intros j k v w. destruct (decide (i = j)) as [<-|Hj], (decide (i = k)) as [<-|Hk];
          [done|..].
        -- rewrite lookup_insert_eq, lookup_insert_ne by done. intros [= <-] Hw Hn.
           by destruct (Htaken k w Hw).
        -- rewrite lookup_insert_eq, lookup_insert_ne by done. intros Hv [= <-] Hn.
           by destruct (Htaken j v Hv).
        -- rewrite !lookup_insert_ne by done. apply H.
Qed.

Lemma demoDb_usernamesUnique n m : usernamesUnique (demoDb n m).
Proof.
  intros i j u v Hu Hv Hname. unfold demoDb in *; simpl in *.
  destruct (decide (i = aliceId)) as [->|Hi], (decide (j = aliceId)) as [->|Hj]; [done|..].
  - rewrite lookup_insert_eq in Hu. rewrite lookup_insert_ne in Hv by done.
    apply lookup_singleton_Some in Hv as [<- <-]. injection Hu as <-. discriminate Hname.
  - rewrite lookup_insert_eq in Hv. rewrite lookup_insert_ne in Hu by done.
    apply lookup_singleton_Some in Hu as [<- <-]. injection Hv as <-. discriminate Hname.
  - rewrite lookup_insert_ne in Hu, Hv by done.
    apply lookup_singleton_Some in Hu as [<- _]. by apply lookup_singleton_Some in Hv as [<- _].
Qed.

Lemma accounts_stay_well_formed_witness :
  balancesNonNegative
    (runApiOps (demoDb 2 0)
       [OpRegister 3%N 9%N (mkRegisterBody " alice " "x" None);
        OpRegister 4%N 10%N (mkRegisterBody "carol" "y" None);
        OpCreateCampaign None FetchRejected NotFlagged 2%N 8%N (fun i => N.of_nat i)
          aliceId starredBody;
        OpNextContacts 5%N aliceId demoId "-3"])
  /\ usernamesUnique
       (runApiOps (demoDb 2 0)
          [OpRegister 3%N 9%N (mkRegisterBody " alice " "x" None);
           OpRegister 4%N 10%N (mkRegisterBody "carol" "y" None);
           OpCreateCampaign None FetchRejected NotFlagged 2%N 8%N (fun i => N.of_nat i)
             aliceId starredBody;
           OpNextContacts 5%N aliceId demoId "-3"]).
Proof.
  pose proof (accounts_stay_well_formed
                [OpRegister 3%N 9%N (mkRegisterBody " alice " "x" None);
                 OpRegister 4%N 10%N (mkRegisterBody "carol" "y" None);
                 OpCreateCampaign None FetchRejected NotFlagged 2%N 8%N
                   (fun i => N.of_nat i) aliceId starredBody;
                 OpNextContacts 5%N aliceId demoId "-3"]
                (demoDb 2 0)) as [Hbal Huniq].
  split; [apply Hbal, demoDb_balances | apply Huniq, demoDb_usernamesUnique].
Defined.

(** X12.  Registration grants no funds: the new account holds 0, so its
    first tick with a positive count, on any campaign, is answered 402. *)
Theorem registered_account_cannot_dispatch now newId db body tokenBody now' id count :
  snd (auth_register now newId db body) = Reply 200 tokenBody ->
  0 < batchSizeOf count ->
  let db' := fst (auth_register now newId db body) in
  (exists u, users db' !! newId = Some u /\ balance u = 0%Q)
  /\ snd (next_contacts now' db' newId id count)
     = Reply 402 (Message "Insufficient balance. Campaign paused.").
Proof.
  intros Hreg Hpos db'. subst db'.
  destruct (auth_register_frame now newId db body)
    as [[_ Hno] | (Hfresh & u & Hdb & Hr & _ & _ & _ & Hbal & _)].
  { by destruct (Hno tokenBody). }
  rewrite Hdb.
  assert (Hu : users (setUsers (<[newId := u]> (users db)) db) !! newId = Some u)
    by apply lookup_insert_eq.
  split; [by exists u|].
  unfold next_contacts. rewrite Hu.
  assert (Hlt : Qltb (balance u) (CALL_COST * inject_Z (batchSizeOf count)) = true).
  { apply Qltb_true. rewrite Hbal. unfold CALL_COST, Qlt, Qmult; simpl. lia. }
  by rewrite Hlt.
Qed.

Lemma registered_account_cannot_dispatch_witness :
  snd (next_contacts 6%N
         (fst (auth_register 5%N 9%N (demoDb 3 0) (mkRegisterBody "dave" "pw" None)))
         9%N demoId "1")
  = Reply 402 (Message "Insufficient balance. Campaign paused.").
Proof.
  refine (proj2 (registered_account_cannot_dispatch 5%N 9%N (demoDb 3 0)
                   (mkRegisterBody "dave" "pw" None) (Token 9%N) 6%N demoId "1" _ _));
    reflexivity.
Defined.

(** ** The admin routes *)

(** X13.  Every admin route refuses a caller whose role is not 'admin' with
    403 and writes nothing; a caller without a user document gets 500. *)
Theorem admin_routes_refuse_other_callers db caller :
  let denied := Reply 403 (Message "Access denied. Admin role required.") in
  let broken := Reply 500 (Message "Server error.") in
  forall r, (r = denied /\ exists u, users db !! caller = Some u /\ role u <> "admin")
            \/ (r = broken /\ users db !! caller = None) ->
  (forall userId amount, add_balance db caller userId amount = (db, r))
  /\ (forall numbers, post_blocklist db caller numbers = (db, r))
  /\ (forall n, delete_blocklist db caller n = (db, r))
  /\ get_blocklist db caller = (db, r)
  /\ admin_overview db caller = Failure r
  /\ (forall pageQuery limitQuery, admin_users db caller pageQuery limitQuery = Failure r).
Proof.
  intros denied broken r Hr.
  assert (Hcheck : adminCheck db caller = Some r).
  { unfold adminCheck. destruct Hr as [[-> (u & -> & Hrole)] | [-> ->]]; [|done].
    by destruct (String.eqb_spec (role u) "admin"). }
  unfold add_balance, post_blocklist, delete_blocklist, get_blocklist, admin_overview,
    admin_users.
  repeat split; intros; by rewrite ?adminMiddleware_check, Hcheck.
Qed.

Lemma admin_routes_refuse_other_callers_witness :
  add_balance (demoDb 0 0) aliceId aliceId (JNumber 1000)
  = (demoDb 0 0, Reply 403 (Message "Access denied. Admin role required.")).
Proof.
  refine (proj1 (admin_routes_refuse_other_callers (demoDb 0 0) aliceId _ _) aliceId
            (JNumber 1000)).
  left. split; [reflexivity|]. exists alice. split; [reflexivity | discriminate].
Defined.

(** ** The global blocklist *)

Lemma post_blocklist_admin db caller numbers :
  isAdmin db caller ->
  post_blocklist db caller numbers =
    (let updated := addToSetEach (blocklistOf db) (from_option splitNumbers [] numbers) in
     (setSettings (Some updated) db, Reply 200 (BlocklistBody updated))).
Proof.
  intros Hadm. unfold post_blocklist. rewrite adminMiddleware_admin by done.
  destruct numbers as [s|]; simpl; [|done].
  destruct (String.eqb_spec s EmptyString) as [->|]; done.
Qed.

Lemma delete_blocklist_admin db caller n l :
  isAdmin db caller -> settings db = Some l ->
  delete_blocklist db caller n
  = (setSettings (Some (pull l n)) db, Reply 200 (BlocklistBody (pull l n))).
Proof.
  intros Hadm Hl. unfold delete_blocklist. rewrite adminMiddleware_admin by done.
  by rewrite Hl.
Qed.

Lemma addToSet_prefix arr v : arr `prefix_of` addToSet arr v.
Proof. unfold addToSet. case_bool_decide; [done|]. by apply prefix_app_r. Qed.

Lemma addToSet_elem arr v x : x ∈ addToSet arr v <-> x ∈ arr \/ x = v.
Proof.
  unfold addToSet. case_bool_decide as Hin.
  - split; [by left|]. intros [?| ->]; done.
  - rewrite elem_of_app, list_elem_of_singleton. done.
Qed.

Lemma addToSetEach_prefix arr vs : arr `prefix_of` addToSetEach arr vs.
Proof.
  unfold addToSetEach. revert arr. induction vs as [|v vs IH]; intros arr; simpl; [done|].
  etrans; [apply addToSet_prefix | apply IH].
Qed.

Lemma addToSetEach_elem arr vs x : x ∈ addToSetEach arr vs <-> x ∈ arr \/ x ∈ vs.
Proof.
  unfold addToSetEach. revert arr. induction vs as [|v vs IH]; intros arr; simpl.
  - split; [by left|]. intros [?|H]; [done|]. by apply elem_of_nil in H.
  - rewrite IH, addToSet_elem, elem_of_cons. tauto.
Qed.

(** X14.  An admin's addition puts every number of the request on the
    blocklist, keeps the numbers that were there, in their order and in
    front, adds nothing else, and answers with the new blocklist. *)
Theorem post_blocklist_adds_every_number db caller numbers :
  isAdmin db caller ->
  let result := post_blocklist db caller (Some numbers) in
  snd result = Reply 200 (BlocklistBody (blocklistOf (fst result)))
  /\ blocklistOf db `prefix_of` blocklistOf (fst result)
  /\ (forall n, n ∈ blocklistOf (fst result) <->
                n ∈ blocklistOf db \/ n ∈ splitNumbers numbers).
Proof.
  intros Hadm result. subst result. rewrite post_blocklist_admin by done. simpl.
  split; [done|]. split; [apply addToSetEach_prefix|]. intros n. apply addToSetEach_elem.
Qed.

Lemma post_blocklist_adds_every_number_witness :
  "+15550101" ∈ blocklistOf (fst (post_blocklist (demoDb 0 0) rootId
                                    (Some " +15550100, +15550101 "))).
Proof.
  assert (Hadm : isAdmin (demoDb 0 0) rootId) by (exists root; split; reflexivity).
  apply (proj2 (proj2 (post_blocklist_adds_every_number (demoDb 0 0) rootId
                         " +15550100, +15550101 " Hadm))).
  right. vm_compute. right. left.
Defined.

Lemma pull_absent l n : n ∉ l -> pull l n = l.
Proof.
  unfold pull. induction l as [|x l IH]; [done|].
  intros [Hx Hl]%not_elem_of_cons. rewrite filter_cons_True by done. by rewrite IH.
Qed.

(** X15.  An admin's removal, when the settings document exists, takes
    every occurrence of the number off the blocklist and keeps every other
    number, in order; removing a number that is not on the blocklist changes
    nothing. *)
Theorem delete_blocklist_removes_number db caller n l :
  isAdmin db caller -> settings db = Some l ->
  let result := delete_blocklist db caller n in
  snd result = Reply 200 (BlocklistBody (blocklistOf (fst result)))
  /\ (n ∉ blocklistOf (fst result))
  /\ (forall m, m <> n -> (m ∈ blocklistOf (fst result) <-> m ∈ l))
  /\ blocklistOf (fst result) `sublist_of` l
  /\ (n ∉ l -> blocklistOf (fst result) = l).
Proof.
  intros Hadm Hl result. subst result. rewrite (delete_blocklist_admin _ _ _ l) by done.
  unfold blocklistOf. simpl. split; [done|]. split; [|split; [|split]].
  - unfold pull. rewrite list_elem_of_filter. by intros [Hne _].
  - intros m Hne. unfold pull. rewrite list_elem_of_filter. tauto.
  - apply sublist_filter.
  - apply pull_absent.
Qed.

Lemma delete_blocklist_removes_number_witness :
  "b" ∉ blocklistOf (fst (delete_blocklist (setSettings (Some ["a"; "b"; "c"; "b"]) (demoDb 0 0))
                            rootId "b")).
Proof.
  refine (proj1 (proj2 (delete_blocklist_removes_number
                          (setSettings (Some ["a"; "b"; "c"; "b"]) (demoDb 0 0))
                          rootId "b" ["a"; "b"; "c"; "b"] _ eq_refl))).
  exists root. split; reflexivity.
Defined.

(** X16.  Adding a number that was not on the blocklist and then removing
    it restores the blocklist. *)
Theorem blocklist_add_then_remove db caller numbers n :
  isAdmin db caller ->
  splitNumbers numbers = [n] -> n ∉ blocklistOf db ->
  let db1 := fst (post_blocklist db caller (Some numbers)) in
  let db2 := fst (delete_blocklist db1 caller n) in
  blocklistOf db1 = blocklistOf db ++ [n]
  /\ blocklistOf db2 = blocklistOf db.
Proof.
  intros Hadm Hsplit Hnew db1 db2.
  assert (H1 : db1 = setSettings (Some (blocklistOf db ++ [n])) db).
  { subst db1. rewrite post_blocklist_admin by done. simpl. rewrite Hsplit.
    unfold addToSetEach; simpl. unfold addToSet. by rewrite bool_decide_eq_false_2. }
  assert (Hadm1 : isAdmin db1 caller) by (by rewrite H1).
  split; [by rewrite H1|].
  subst db2. rewrite (delete_blocklist_admin _ _ _ (blocklistOf db ++ [n])) by (by rewrite ?H1).
  unfold blocklistOf at 1. simpl. unfold pull.
  rewrite filter_app, filter_cons_False, filter_nil, app_nil_r by (intros H; by apply H).
  by apply pull_absent.
Qed.

Lemma blocklist_add_then_remove_witness :
  blocklistOf (fst (delete_blocklist
                      (fst (post_blocklist (demoDb 0 0) rootId (Some " +15550100 ")))
                      rootId "+15550100")) = [].
Proof.
  refine (proj2 (blocklist_add_then_remove (demoDb 0 0) rootId " +15550100 " "+15550100"
                   _ eq_refl _)).
  - exists root. split; reflexivity.
  - apply not_elem_of_nil.
Defined.

(** ** Parsing the request of an addition *)

Lemma split_no_separator sep s : Forall (fun seg => sep ∉ seg) (Js.split sep s).
Proof.
  induction s as [|c s IH]; simpl.
  - constructor; [apply not_elem_of_nil | constructor].
  - destruct (Ascii.eqb_spec c sep) as [->|Hne].
    + constructor; [apply not_elem_of_nil | done].
    + destruct (Js.split sep s) as [|seg segs]; inversion IH; subst.
      * constructor; [|constructor]. intros Hin. apply list_elem_of_singleton in Hin. done.
      * constructor; [|done]. intros [?|?]%elem_of_cons; [congruence | done].
Qed.

Lemma dropWhile_suffix {A} (p : A -> bool) l : Js.dropWhile p l `suffix_of` l.
Proof.
  induction l as [|x l IH]; simpl; [done|].
  destruct (p x); [by apply suffix_cons_r | done].
Qed.

Lemma dropWhile_head {A} (p : A -> bool) l :
  from_option p false (head (Js.dropWhile p l)) = false.
Proof.
  induction l as [|x l IH]; simpl; [done|]. destruct (p x) eqn:Hx; [done|]. simpl. done.
Qed.

Lemma elem_of_dropWhile {A} (p : A -> bool) l x : x ∈ Js.dropWhile p l -> x ∈ l.
Proof.
  destruct (dropWhile_suffix p l) as [k Hk]. intros Hx.
  rewrite Hk. apply elem_of_app. by right.
Qed.

Lemma elem_of_trim s x : x ∈ Js.trim s -> x ∈ s.
Proof.
  unfold Js.trim. intros Hx.
  apply (proj1 (elem_of_reverse _ _)) in Hx. apply elem_of_dropWhile in Hx.
  apply (proj1 (elem_of_reverse _ _)) in Hx. by apply elem_of_dropWhile in Hx.
Qed.

Lemma trim_ends s :
  from_option Js.isStrWhiteSpace false (head (Js.trim s)) = false
  /\ from_option Js.isStrWhiteSpace false (last (Js.trim s)) = false.
Proof.
  unfold Js.trim. set (t := Js.dropWhile Js.isStrWhiteSpace s).
  set (r := Js.dropWhile Js.isStrWhiteSpace (reverse t)). split.
  - rewrite head_reverse.
    destruct (dropWhile_suffix Js.isStrWhiteSpace (reverse t)) as [k Hk]. fold r in Hk.
    destruct (last r) as [x|] eqn:Hlast; [|done]. simpl.
    assert (Hx : last (reverse t) = Some x).
    { rewrite Hk, last_app, Hlast. done. }
    rewrite last_reverse in Hx. pose proof (dropWhile_head Js.isStrWhiteSpace s) as Hh.
    fold t in Hh. by rewrite Hx in Hh.
  - rewrite last_reverse. apply dropWhile_head.
Qed.

Lemma chars_str l : Js.chars (Js.str l) = l.
Proof. apply list_ascii_of_string_of_list_ascii. Qed.

(** X17.  Every number a blocklist addition stores is non-empty, contains
    no comma and neither begins nor ends with white space. *)
Theorem splitNumbers_entries_are_trimmed numbers n :
  n ∈ splitNumbers numbers ->
  n <> EmptyString
  /\ (","%char ∉ Js.chars n)
  /\ from_option Js.isStrWhiteSpace false (head (Js.chars n)) = false
  /\ from_option Js.isStrWhiteSpace false (last (Js.chars n)) = false.
Proof.
  unfold splitNumbers. intros Hin.
  apply list_elem_of_fmap in Hin as (seg & -> & Hin).
  apply list_elem_of_filter in Hin as [Hne Hin].
  apply list_elem_of_fmap in Hin as (raw & -> & Hraw).
  rewrite chars_str. split; [|split].
  - destruct (Js.trim raw); [done | discriminate].
  - intros Hcomma. pose proof (split_no_separator ","%char (Js.chars numbers)) as Hsep.
    rewrite Forall_forall in Hsep. apply (Hsep raw Hraw).
    by apply elem_of_trim.
  - apply trim_ends.
Qed.

Lemma splitNumbers_entries_are_trimmed_witness :
  ","%char ∉ Js.chars "+15550101".
Proof.
  refine (proj1 (proj2 (splitNumbers_entries_are_trimmed ",, +15550101 ,x" "+15550101" _))).
  vm_compute. left.
Defined.

(** ** Campaign creation *)

Lemma duplicateKey_true coll d :
  duplicateKey coll d = true <-> contactKey d ∈ contactKey <$> coll.
Proof.
  unfold duplicateKey. rewrite bool_decide_eq_true, Exists_exists, list_elem_of_fmap.
  unfold contactKey. split.
  - intros (x & Hx & Hp & Hc). exists x. split; [by rewrite Hp, Hc | done].
  - intros (x & [= Hp Hc] & Hx). exists x. done.
Qed.

Lemma insertUnordered_keys coll docs :
  let '(coll', inserted, failed) := insertUnordered coll docs in
  (forall d, d ∈ docs -> contactKey d ∈ contactKey <$> coll')
  /\ (failed = false ->
      NoDup (contactKey <$> docs)
      /\ Forall (fun d => contactKey d ∉ contactKey <$> coll) docs).
Proof.
  revert coll. induction docs as [|d ds IH]; intros coll; simpl.
  - split; [intros d Hd; by apply elem_of_nil in Hd|]. intros _. split; constructor.
  - destruct (duplicateKey coll d) eqn:Hdup.
    + specialize (IH coll). pose proof (insertUnordered_spec coll ds) as Hspec.
      destruct (insertUnordered coll ds) as [[coll' ins] e].
      destruct IH as [IHk _]. destruct Hspec as (-> & _). split; [|done].
      intros x [->|Hx]%elem_of_cons; [|by apply IHk].
      apply duplicateKey_true in Hdup. rewrite fmap_app. apply elem_of_app. by left.
    + specialize (IH (coll ++ [d])). pose proof (insertUnordered_spec (coll ++ [d]) ds) as Hspec.
      destruct (insertUnordered (coll ++ [d]) ds) as [[coll' ins] e].
      destruct IH as [IHk IHok]. destruct Hspec as (-> & _). split.
      * intros x [->|Hx]%elem_of_cons; [|by apply IHk].
        rewrite !fmap_app. apply elem_of_app. left. apply elem_of_app. right. by left.
      * intros ->. destruct (IHok eq_refl) as [Hnd Hall].
        assert (Hd : contactKey d ∉ contactKey <$> coll).
        { intros Hin. apply duplicateKey_true in Hin. congruence. }
        split.
        -- apply NoDup_cons. split; [|done].
           intros Hin. apply list_elem_of_fmap in Hin as (x & Hkey & Hx).
           rewrite Forall_forall in Hall. apply (Hall x Hx).
           rewrite fmap_app. apply elem_of_app. right. rewrite <- Hkey. by left.
        -- constructor; [done|]. eapply Forall_impl; [exact Hall|].
           intros x Hx Hin. apply Hx. rewrite fmap_app. apply elem_of_app. by left.
Qed.


(** X18.  A number an admin has added to the blocklist cannot be used as a
    From Number: a creation request with that number whose message is not
    flagged is answered 403 and nothing is stored. *)
Theorem added_number_blocks_creation db admin numbers n key perspective now newId
    contactIdOf caller body :
  isAdmin db admin ->
  n ∈ splitNumbers numbers ->
  bodyFromNumber body = n ->
  isTextFlagged key perspective (bodyTtsMessage body)
    (blocklistArrayOf (bodyCustomBlocklist body)) = Some false ->
  let db1 := fst (post_blocklist db admin (Some numbers)) in
  create_campaign key perspective now newId contactIdOf db1 caller body
  = Some (db1, Failure (Reply 403 (Message "This From Number is blocked."))).
Proof.
  intros Hadm Hn Hfrom Hflag db1.
  assert (Hin : n ∈ blocklistOf db1).
  { subst db1. rewrite post_blocklist_admin by done. unfold blocklistOf at 1. simpl.
    apply addToSetEach_elem. by right. }
  unfold create_campaign, create_campaign_after.
  rewrite Hflag, Hfrom. by rewrite bool_decide_eq_true_2.
Qed.

Lemma added_number_blocks_creation_witness :
  create_campaign None FetchRejected 5%N 8%N (fun i => N.of_nat i)
    (fst (post_blocklist (demoDb 0 0) rootId (Some "+15550100, +15550199")))
    aliceId
    (mkCampaignBody "spring" "+15550199" "Hello {name}" (Some []) None None None None)
  = Some (fst (post_blocklist (demoDb 0 0) rootId (Some "+15550100, +15550199")),
          Failure (Reply 403 (Message "This From Number is blocked."))).
Proof.
  apply (added_number_blocks_creation (demoDb 0 0) rootId "+15550100, +15550199"
           "+15550199").
  - exists root. split; reflexivity.
  - vm_compute. right. left.
  - reflexivity.
  - reflexivity.
Defined.

(** X19.  A campaign whose message contains, as a whole word in any letter
    case, an entry of its own custom blocklist is rejected with 400 and
    nothing is stored, whatever the classifier says; the entries are those of
    the comma-separated field, trimmed and lower-cased, taken here to be
    literal words. *)
Theorem message_with_blocked_word_rejected key perspective now newId contactIdOf db caller
    body w :
  Forall literalWord (blocklistArrayOf (bodyCustomBlocklist body)) ->
  w ∈ blocklistArrayOf (bodyCustomBlocklist body) ->
  containsWholeWord (bodyTtsMessage body) w ->
  create_campaign key perspective now newId contactIdOf db caller body
  = Some (db, Failure (Reply 400 (Message "Message content flagged."))).
Proof.
  intros Hlit Hw Hcontains.
  assert (Hflag : isTextFlagged key perspective (bodyTtsMessage body)
                    (blocklistArrayOf (bodyCustomBlocklist body)) = Some true).
  { unfold isTextFlagged.
    destruct (perspectiveConfigured key && perspectiveFlags perspective); [done|].
    destruct (anyBlockedWord_spec (bodyTtsMessage body) _ Hlit) as (b & -> & Hb).
    f_equal. apply Hb. by exists w. }
  unfold create_campaign. by rewrite Hflag.
Qed.

Lemma message_with_blocked_word_rejected_witness :
  create_campaign None FetchRejected 5%N 8%N (fun i => N.of_nat i) (demoDb 0 0) aliceId
    (mkCampaignBody "spring" "+15550199" "Claim your FREE prize" (Some [])
       (Some " Free , loan") None None None)
  = Some (demoDb 0 0, Failure (Reply 400 (Message "Message content flagged."))).
Proof.
  apply (message_with_blocked_word_rejected None FetchRejected 5%N 8%N _ (demoDb 0 0) aliceId
           (mkCampaignBody "spring" "+15550199" "Claim your FREE prize" (Some [])
              (Some " Free , loan") None None None) "free").
  - repeat constructor.
  - vm_compute. left.
  - exists (Js.chars "Claim your "), (Js.chars "FREE"), (Js.chars " prize").
    repeat split.
Defined.

Lemma nonEmpty_true s : nonEmpty s = true <-> s <> EmptyString.
Proof. unfold nonEmpty. rewrite negb_true_iff. apply String.eqb_neq. Qed.

Lemma submittedContacts_elem newId contactIdOf data d :
  d ∈ submittedContacts newId contactIdOf data <->
  exists i x, data !! i = Some x
    /\ dataName x <> EmptyString /\ dataPhoneNumber x <> EmptyString
    /\ d = mkContact (contactIdOf i) (dataName x) (dataPhoneNumber x)
             (default new (dataStatus x)) (default EmptyString (dataCallNotes x)) newId.
Proof.
  unfold submittedContacts. rewrite list_elem_of_filter, elem_of_lookup_imap.
  unfold validContact. rewrite andb_true_iff, !nonEmpty_true. split.
  - intros ([Hn Hp] & i & x & -> & Hx). by exists i, x.
  - intros (i & x & Hx & Hn & Hp & ->). split; [done|]. by exists i, x.
Qed.

(** The successful way through the handler. *)
Lemma create_campaign_after_created verdict now newId contactIdOf db caller body db'
    statusCode cid c :
  create_campaign_after verdict now newId contactIdOf db caller body
  = (db', Success statusCode (cid, c)) ->
  verdict = NotFlagged /\ statusCode = 201%N /\ cid = newId
  /\ (bodyFromNumber body ∉ blocklistOf db)
  /\ campaigns db !! newId = None
  /\ exists data,
       bodyContactsData body = Some data
       /\ c = mkCampaign (bodyName body) caller (bodyFromNumber body)
                (bodyTtsMessage body) (default 5 (bodyCallsPerMinute body))
                (default 60 (bodyBatchDelaySeconds body))
                (blocklistArrayOf (bodyCustomBlocklist body))
                (default false (bodyIsActive body))
                (contactId <$> submittedContacts newId contactIdOf data) now None
       /\ db' = mkDb (users db) (<[newId := c]> (campaigns db))
                  (contactDocs db ++ submittedContacts newId contactIdOf data) (settings db)
       /\ NoDup (contactKey <$> submittedContacts newId contactIdOf data).
Proof.
  unfold create_campaign_after. destruct verdict; [discriminate| |discriminate].
  case_bool_decide as Hblock; [discriminate|].
  destruct (negb (validCampaign _)); [discriminate|].
  destruct (campaigns db !! newId) eqn:Hfresh; [discriminate|].
  destruct (bodyContactsData body) as [data|]; [|discriminate]. simpl.
  pose proof (insertUnordered_spec (contactDocs db) (submittedContacts newId contactIdOf data))
    as Hspec.
  pose proof (insertUnordered_keys (contactDocs db) (submittedContacts newId contactIdOf data))
    as Hkeys.
  destruct (insertUnordered _ _) as [[coll inserted] failed].
  destruct failed; [discriminate|]. intros [= <- <- <- <-].
  destruct Hspec as (-> & _ & Hall). rewrite (Hall eq_refl) in *.
  destruct Hkeys as [_ Hok]. destruct (Hok eq_refl) as [Hnd _].
  split; [done|]. split; [done|]. split; [done|]. split; [done|]. split; [done|].
  exists data. split; [done|]. split; [done|]. split; [|done].
  unfold setCampaigns, setContactDocs; simpl. by rewrite insert_insert_eq.
Qed.





Lemma find_by_id (docs : list Contact) d :
  NoDup (contactId <$> docs) -> d ∈ docs ->
  find (fun c => bool_decide (contactId c = contactId d)) docs = Some d.
Proof.
  induction docs as [|x docs IH]; intros Hnd Hd; [by apply elem_of_nil in Hd|].
  simpl in *. apply NoDup_cons in Hnd as [Hx Hnd].
  apply elem_of_cons in Hd as [->|Hd].
  - by rewrite bool_decide_eq_true_2.
  - rewrite bool_decide_eq_false_2; [by apply IH|].
    intros Heq. apply Hx. rewrite Heq. by apply list_elem_of_fmap_2.
Qed.

Lemma populate_own_documents db docs :
  NoDup (contactId <$> contactDocs db) ->
  Forall (fun d => d ∈ contactDocs db) docs ->
  populate db (contactId <$> docs) = docs.
Proof.
  intros Hnd. induction 1 as [|d docs Hd _ IH]; [done|].
  rewrite fmap_cons. unfold populate in *. cbn [omap list_omap].
  rewrite find_by_id by done. by rewrite IH.
Qed.

(** X22.  A campaign just created is listed for its owner.  When the ids
    generated for the new contacts are fresh and distinct, GET /campaigns
    returns to the caller the new campaign together with the documents of
    the contacts that were stored, in the order submitted. *)
Theorem created_campaign_is_listed key perspective now newId contactIdOf db caller body db'
    statusCode c :
  create_campaign key perspective now newId contactIdOf db caller body
  = Some (db', Success statusCode (newId, c)) ->
  NoDup (contactId <$> contactDocs db') ->
  exists data,
    bodyContactsData body = Some data
    /\ (newId, c, submittedContacts newId contactIdOf data) ∈ get_campaigns db' caller.
Proof.
  intros Hcreate Hids.
  unfold create_campaign in Hcreate.
  destruct (isTextFlagged _ _ _ _) as [[]|];
    [simpl in Hcreate; discriminate Hcreate| |discriminate Hcreate].
  assert (Hafter : create_campaign_after NotFlagged now newId contactIdOf db caller body
                   = (db', Success statusCode (newId, c))) by congruence.
  apply create_campaign_after_created in Hafter
    as (_ & _ & _ & _ & Hfresh & data & Hdata & -> & -> & _).
  simpl in *. exists data. split; [done|]. unfold get_campaigns.
  apply list_elem_of_fmap.
  eexists (newId, _). split.
  - simpl. f_equal. symmetry. apply populate_own_documents; [done|].
    apply Forall_forall. intros d Hd. simpl. apply elem_of_app. by right.
  - apply list_elem_of_filter. split; [done|].
    apply elem_of_map_to_list. simpl. by rewrite lookup_insert_eq.
Qed.

Lemma created_campaign_is_listed_witness :
  exists c docs,
    (8%N, c, docs) ∈
      get_campaigns
        (from_option fst (demoDb 1 0)
           (create_campaign None FetchRejected 5%N 8%N (fun i => (200 + N.of_nat i)%N)
              (demoDb 1 0) aliceId
              (mkCampaignBody "spring" "+15550199" "Hello {name}"
                 (Some [plainContact "Ann" "+1"; plainContact "Cy" "+3"])
                 None None None None)))
        aliceId
    /\ contactName <$> docs = ["Ann"; "Cy"].
Proof.
  eexists _, _. split.
  - destruct (created_campaign_is_listed None FetchRejected 5%N 8%N
                (fun i => (200 + N.of_nat i)%N) (demoDb 1 0) aliceId
                (mkCampaignBody "spring" "+15550199" "Hello {name}"
                   (Some [plainContact "Ann" "+1"; plainContact "Cy" "+3"])
                   None None None None) _ _ _ eq_refl) as (data & [= <-] & Hin).
    + apply (bool_decide_unpack _). vm_compute. exact I.
    + exact Hin.
  - reflexivity.
Defined.

Lemma inactive_never_batches db id now caller count :
  inactiveCampaign db id -> ~ answersWithBatch (snd (next_contacts now db caller id count)).
Proof.
  intros (c & Hc & Hoff) (batch & nb & Hr).
  destruct (next_contacts_path now db caller id count)
    as [Hu | u Hu Hlt | u Hu Hle Hc0 | u c0 Hu Hle Hc0 Hown Hact0 Hl
        | u c0 Hu Hle Hc0 Hown Hact0 Hl]; simpl in Hr; try discriminate Hr.
  congruence.
Qed.

Lemma evolves_inactive db db' id :
  evolves db db' -> inactiveCampaign db id -> inactiveCampaign db' id.
Proof.
  intros (_ & Hcs & _) (c & Hc & Hoff).
  destruct (Hcs id c Hc) as (c' & Hc' & _ & Hact). exists c'. split; [done|].
  destruct (isActive c') eqn:E; [|done]. rewrite Hact in Hoff; done.
Qed.

(** X23.  A campaign created without [isActive: true] in the request never
    releases a contact: it is stored inactive, and after any sequence of
    further requests no tick on it is answered with a batch. *)
Theorem campaign_created_inactive_never_dispatches verdict now newId contactIdOf db
    caller body db' statusCode cid c ops :
  create_campaign_after verdict now newId contactIdOf db caller body
  = (db', Success statusCode (cid, c)) ->
  bodyIsActive body <> Some true ->
  isActive c = false
  /\ forall now' caller' count,
       ~ answersWithBatch (snd (next_contacts now' (runApiOps db' ops) caller' newId count)).
Proof.
  intros Hcreate Hbody.
  apply create_campaign_after_created in Hcreate
    as (_ & _ & _ & _ & _ & data & _ & -> & -> & _).
  assert (Hoff : default false (bodyIsActive body) = false)
    by (destruct (bodyIsActive body) as [[]|]; done).
  split; [done|]. intros now' caller' count.
  apply inactive_never_batches. eapply evolves_inactive; [apply runApiOps_evolves|].
  eexists. split; [apply lookup_insert_eq | done].
Qed.

Lemma campaign_created_inactive_never_dispatches_witness :
  ~ answersWithBatch
      (snd (next_contacts 6%N
              (runApiOps
                 (fst (create_campaign_after NotFlagged 5%N 8%N (fun i => (200 + N.of_nat i)%N)
                         (demoDb 0 0) aliceId
                         (mkCampaignBody "spring" "+15550199" "Hello {name}"
                            (Some [plainContact "Ann" "+1"]) None None None None)))
                 [OpCreateCampaign None FetchRejected NotFlagged 7%N 9%N
                    (fun i => (300 + N.of_nat i)%N) aliceId starredBody;
                  OpAddBalance rootId aliceId (JNumber 5)])
              aliceId 8%N "1")).
Proof.
  refine (proj2 (campaign_created_inactive_never_dispatches NotFlagged 5%N 8%N
                   (fun i => (200 + N.of_nat i)%N) (demoDb 0 0) aliceId
                   (mkCampaignBody "spring" "+15550199" "Hello {name}"
                      (Some [plainContact "Ann" "+1"]) None None None None)
                   _ _ _ _
                   [OpCreateCampaign None FetchRejected NotFlagged 7%N 9%N
                      (fun i => (300 + N.of_nat i)%N) aliceId starredBody;
                    OpAddBalance rootId aliceId (JNumber 5)]
                   eq_refl _) 6%N aliceId "1").
  discriminate.
Defined.




(** ** The list of users *)

Lemma Qceiling_div (t l : Z) :
  0 < l -> Qceiling (inject_Z t / inject_Z l) = (t + l - 1) / l.
Proof.
  intros Hl. destruct l as [|p|p]; try lia.
  unfold Qceiling, Qfloor, Qdiv, Qmult, Qinv, Qopp, inject_Z; simpl.
  rewrite Z.mul_1_r, Pos.mul_1_l.
  set (q := Z.div (Z.opp t) (Z.pos p)). set (q' := Z.div (t + Z.pos p - 1) (Z.pos p)).
  assert (H1 : q * Z.pos p <= - t < (q + 1) * Z.pos p).
  { subst q. pose proof (Z.mul_div_le (Z.opp t) (Z.pos p) ltac:(lia)).
    pose proof (Z.mul_succ_div_gt (Z.opp t) (Z.pos p) ltac:(lia)). lia. }
  assert (H2 : q' * Z.pos p <= t + Z.pos p - 1 < (q' + 1) * Z.pos p).
  { subst q'. pose proof (Z.mul_div_le (t + Z.pos p - 1) (Z.pos p) ltac:(lia)).
    pose proof (Z.mul_succ_div_gt (t + Z.pos p - 1) (Z.pos p) ltac:(lia)). lia. }
  clearbody q q'. nia.
Qed.

Lemma newerFirst_total : Total newerFirst.
Proof. intros a b. unfold newerFirst. lia. Qed.

Lemma newerFirst_trans : Transitive newerFirst.
Proof. intros a b c. unfold newerFirst. lia. Qed.

Lemma admin_users_admin db caller pageQuery limitQuery :
  isAdmin db caller ->
  admin_users db caller pageQuery limitQuery =
    (let page := queryInt pageQuery 1 in
     let lim := queryInt limitQuery 5 in
     if (page - 1) * lim <? 0 then Failure (Reply 500 (Text "Server error"))
     else Success 200
            (mkUsersPage
               (publicUser <$> limit lim (drop (Z.to_nat ((page - 1) * lim)) (usersNewestFirst db)))
               (Qceiling (inject_Z (Z.of_nat (size (users db))) / inject_Z lim))
               page)).
Proof.
  intros Hadm. unfold admin_users. apply adminCheck_None in Hadm. by rewrite Hadm.
Qed.

(** X25.  The pages of the user list, for an admin and a positive page
    size.  The list is every account once, newest first.  Page [p >= 1]
    holds the accounts at positions [(p-1)*size .. p*size - 1] of that list
    (so the account at position [i] is entry [i mod size] of page
    [i / size + 1]), the number of pages is the total divided by the page
    size rounded up, and a page past the last is empty.  A negative page
    number is answered 500. *)
Theorem admin_users_pagination db caller pageQuery limitQuery :
  isAdmin db caller ->
  let page := queryInt pageQuery 1 in
  let lim := queryInt limitQuery 5 in
  0 < lim ->
  usersNewestFirst db ≡ₚ map_to_list (users db)
  /\ StronglySorted newerFirst (usersNewestFirst db)
  /\ (page < 0 ->
      admin_users db caller pageQuery limitQuery = Failure (Reply 500 (Text "Server error")))
  /\ (1 <= page ->
      exists pg,
        admin_users db caller pageQuery limitQuery = Success 200 pg
        /\ currentPage pg = page
        /\ totalPages pg = (Z.of_nat (size (users db)) + lim - 1) / lim
        /\ (forall j : nat,
              pageUsers pg !! j =
                if decide (Z.of_nat j < lim)
                then publicUser <$> (usersNewestFirst db !! (Z.to_nat ((page - 1) * lim) + j)%nat)
                else None)
        /\ (totalPages pg < page -> pageUsers pg = [])).
Proof.
  intros Hadm page lim Hlim.
  split; [apply merge_sort_Permutation|].
  split; [apply StronglySorted_merge_sort; [apply newerFirst_trans | apply newerFirst_total]|].
  rewrite admin_users_admin by done. fold page lim. cbv zeta. split.
  - intros Hneg. assert (Hskip : ((page - 1) * lim <? 0) = true) by (apply Z.ltb_lt; nia).
    by rewrite Hskip.
  - intros Hpage. assert (Hskip : ((page - 1) * lim <? 0) = false) by (apply Z.ltb_ge; nia).
    rewrite Hskip. eexists. split; [done|]. simpl. split; [done|].
    split; [exact (Qceiling_div _ lim Hlim)|].
    rewrite limit_take by lia. rewrite Zabs2Nat.abs_nat_nonneg by lia.
    assert (Hlen : length (usersNewestFirst db) = size (users db)).
    { unfold usersNewestFirst. rewrite merge_sort_Permutation.
      apply length_map_to_list. }
    split.
    + intros j. rewrite list_lookup_fmap. destruct (decide (Z.of_nat j < lim)).
      * rewrite lookup_take_lt by lia. by rewrite lookup_drop.
      * rewrite lookup_take_ge by lia. done.
    + rewrite (Qceiling_div _ lim Hlim). intros Hpast.
      rewrite drop_ge; [by rewrite take_nil|]. rewrite Hlen.
      assert (Hq : (Z.of_nat (size (users db)) + lim - 1) / lim * lim
                   >= Z.of_nat (size (users db))).
      { pose proof (Z.div_mod (Z.of_nat (size (users db)) + lim - 1) lim ltac:(lia)).
        pose proof (Z.mod_pos_bound (Z.of_nat (size (users db)) + lim - 1) lim ltac:(lia)).
        nia. }
      nia.
Qed.

Lemma admin_users_pagination_witness :
  exists pg,
    admin_users (demoDb 0 0) rootId (Some "2") (Some "1") = Success 200 pg
    /\ currentPage pg = 2 /\ totalPages pg = 2.
Proof.
  assert (Hadm : isAdmin (demoDb 0 0) rootId) by (exists root; split; reflexivity).
  destruct (admin_users_pagination (demoDb 0 0) rootId (Some "2") (Some "1") Hadm)
    as (_ & _ & _ & Hpg); [reflexivity|].
  destruct Hpg as (pg & Hr & Hcur & Htot & _); [discriminate|].
  exists pg. split; [exact Hr|]. split; [exact Hcur | exact Htot].
Defined.

(** ** Logging in *)

Lemma findUserByName_unique db name i u :
  users db !! i = Some u -> username u = name ->
  (forall j v, users db !! j = Some v -> username v = name -> j = i) ->
  findUserByName db name = Some (i, u).
Proof.
  intros Hu Hname Huniq. unfold findUserByName.
  destruct (list_find _ _) as [[k [j v]]|] eqn:Hfind; simpl.
  - apply list_find_Some in Hfind as (Hk & Hv & _). simpl in Hv.
    apply list_elem_of_lookup_2, elem_of_map_to_list in Hk.
    assert (j = i) by (by apply (Huniq j v)). subst j. congruence.
  - apply list_find_None in Hfind. rewrite Forall_forall in Hfind.
    destruct (Hfind (i, u)); [|done]. by apply elem_of_map_to_list.
Qed.

Lemma findUserByName_None db name :
  usernameTaken db name = false -> findUserByName db name = None.
Proof.
  intros Hfree. unfold findUserByName.
  destruct (list_find _ _) as [[k [j v]]|] eqn:Hfind; [|done].
  apply list_find_Some in Hfind as (Hk & Hv & _). simpl in Hv.
  apply list_elem_of_lookup_2, elem_of_map_to_list in Hk.
  rewrite usernameTaken_false in Hfree. by destruct (Hfree j v Hk).
Qed.

(** X26.  Registration and login round trip.  Provided [bcrypt.compare]
    accepts a password against its own hash, a login with the username and
    password of a registration that has just succeeded is answered with a
    token for the account created; a login under a username that no account
    has is answered 400. *)
Theorem register_then_login (bcrypt_compare : string -> PasswordHash -> bool) now newId db
    body tokenBody :
  (forall p, bcrypt_compare p (Bcrypt p) = true) ->
  snd (auth_register now newId db body) = Reply 200 tokenBody ->
  tokenBody = Token newId
  /\ auth_login bcrypt_compare (fst (auth_register now newId db body))
       (reqUsername body) (reqPassword body) = Reply 200 (Token newId)
  /\ forall name pass,
       usernameTaken db (Js.str (Js.trim (Js.chars name))) = false ->
       auth_login bcrypt_compare db name pass = Reply 400 (Message "Invalid credentials.").
Proof.
  intros Hbcrypt Hreg. split; [|split].
  - destruct (auth_register_frame now newId db body)
      as [[_ Hno] | (_ & u & _ & Hr & _)]; [by destruct (Hno tokenBody)|]. congruence.
  - destruct (auth_register_frame now newId db body)
      as [[_ Hno] | (Hfresh & u & -> & _ & Hname & Hpass & _ & _ & Htaken)];
      [by destruct (Hno tokenBody)|].
    unfold auth_login. rewrite <- Hname.
    rewrite (findUserByName_unique _ _ newId u); simpl.
    + by rewrite Hpass, Hbcrypt.
    + apply lookup_insert_eq.
    + done.
    + intros j v Hv Hjname. destruct (decide (newId = j)) as [<-|Hne]; [done|].
      rewrite lookup_insert_ne in Hv by done.
      rewrite usernameTaken_false in Htaken. by destruct (Htaken j v Hv).
  - intros name pass Hfree. unfold auth_login. by rewrite findUserByName_None.
Qed.

Lemma register_then_login_witness :
  auth_login (fun p h => match h with Bcrypt q => String.eqb p q end)
    (fst (auth_register 5%N 9%N (demoDb 0 0) (mkRegisterBody " dave " "pw" None)))
    " dave " "pw"
  = Reply 200 (Token 9%N).
Proof.
  refine (proj1 (proj2 (register_then_login _ 5%N 9%N (demoDb 0 0)
                          (mkRegisterBody " dave " "pw" None) (Token 9%N) _ eq_refl))).
  intros p. apply String.eqb_refl.
Defined.

(** ** A blank entry of the custom blocklist *)

Lemma dropWhile_all {A} (p : A -> bool) l :
  Forall (fun x => p x = true) l -> Js.dropWhile p l = [].
Proof. induction 1 as [|x l Hx _ IH]; simpl; [done|]. by rewrite Hx. Qed.

Lemma searchFrom_boundary prev s :
  isWordCharAt prev = false ->
  searchFrom [WordBoundary; WordBoundary] prev s = existsb isWordChar s.
Proof.
  revert prev. induction s as [|t s IH]; intros prev Hprev; simpl.
  - unfold atWordBoundary. by rewrite Hprev.
  - unfold atWordBoundary. rewrite Hprev. simpl. destruct (isWordChar t) eqn:Ht; simpl.
    + done.
    + by apply IH.
Qed.

Lemma existsb_toLowerCase s :
  existsb isWordChar (Js.toLowerCase s) = existsb isWordChar s.
Proof.
  induction s as [|c s IH]; simpl; [done|]. by rewrite isWordChar_lowerChar, IH.
Qed.

(** X27.  An entry of the custom blocklist that consists of white space
    only - the empty string included - flags exactly the texts that contain
    a letter, a digit or an underscore, when the classifier does not flag. *)
Theorem blank_entry_flags_any_word key perspective text entry :
  Forall (fun c => Js.isStrWhiteSpace c = true) (Js.chars entry) ->
  perspectiveConfigured key && perspectiveFlags perspective = false ->
  isTextFlagged key perspective text [entry]
  = Some (existsb isWordChar (Js.chars text)).
Proof.
  intros Hblank Hext. unfold isTextFlagged. rewrite Hext. simpl.
  assert (Hre : blockedWordRegExp entry = Some [WordBoundary; WordBoundary]).
  { unfold blockedWordRegExp, Js.trim. by rewrite (dropWhile_all _ _ Hblank). }
  rewrite Hre. unfold regexTest. rewrite searchFrom_boundary, existsb_toLowerCase by done.
  by destruct (existsb isWordChar (Js.chars text)).
Qed.

Lemma blank_entry_flags_any_word_witness :
  isTextFlagged None FetchRejected "hi" ["  "] = Some true
  /\ isTextFlagged None FetchRejected "?!" ["  "] = Some false.
Proof.
  split.
  - apply (blank_entry_flags_any_word None FetchRejected "hi" "  ");
      [repeat constructor | reflexivity].
  - apply (blank_entry_flags_any_word None FetchRejected "?!" "  ");
      [repeat constructor | reflexivity].
Defined.

(** ** Listing campaigns *)

(** X28.  GET /campaigns discloses the caller's campaigns and no others: an
    entry is listed exactly when it is a campaign on record whose owner is
    the caller, and it comes with the documents its contact references
    resolve to. *)
Theorem get_campaigns_only_own db caller id c docs :
  (id, c, docs) ∈ get_campaigns db caller <->
  campaigns db !! id = Some c /\ user c = caller /\ docs = populate db (contacts c).
Proof.
  unfold get_campaigns. rewrite list_elem_of_fmap. split.
  - intros ([id' c'] & [= -> -> ->] & Hin).
    apply list_elem_of_filter in Hin as [Hown Hin]. apply elem_of_map_to_list in Hin. done.
  - intros (Hc & Hown & ->). exists (id, c). split; [done|].
    apply list_elem_of_filter. split; [done|]. by apply elem_of_map_to_list.
Qed.

Lemma get_campaigns_only_own_witness :
  (demoId, demo, []) ∈ get_campaigns (demoDb 2 0) aliceId.
Proof.
  apply (proj2 (get_campaigns_only_own (demoDb 2 0) aliceId demoId demo [])).
  split; [reflexivity|]. split; reflexivity.
Defined.

(** ** Moderation: where the rule holds and where it misses *)

(** X29.  Where the moderation rule does hold.  For every text, every
    custom word list whose entries are literal words (they begin and end
    with a letter, digit or underscore and hold no character of the pattern
    syntax) and every outcome of the classifier call whose successful
    responses carry all three requested scores, [isTextFlagged] returns true
    if and only if (a) the classifier is configured, responds successfully
    and some per-category score exceeds 0.8, or (b) the text contains a
    case-insensitive whole-word match of some entry.  A failed classifier
    call counts as not flagged: with the classifier unreachable, "call about
    foo now" is flagged by the list ["foo"], and "foobar" is not flagged by
    it whenever the classifier does not flag.  The condition on the entries
    is needed in both directions: besides an entry with pattern syntax,
    which can flag a text that does not hold it, an entry that begins with a
    character that is no letter, digit or underscore cannot match after a
    space, so "we are #1 in town", which holds the entry [#1] as a word of
    its own, is not flagged by it. *)
Theorem isTextFlagged_iff :
  (forall key r text words,
     completeResponse r -> Forall literalWord words ->
     exists flagged,
       isTextFlagged key r text words = Some flagged /\
       (flagged = true <->
        classifierFlags key r \/ exists w, w ∈ words /\ containsWholeWord text w))
  /\ (forall key, isTextFlagged key FetchRejected "call about foo now" ["foo"] = Some true)
  /\ (forall key r, perspectiveFlags r = false ->
        isTextFlagged key r "foobar" ["foo"] = Some false)
  /\ (isTextFlagged None FetchRejected "we are #1 in town" ["#1"] = Some false
      /\ containsWholeWord "we are #1 in town" "#1").
Proof.
  split; [|split; [|split]].
  - intros key r text words Hr Hwords. unfold isTextFlagged.
    pose proof (perspectiveFlags_spec key r Hr) as Hext.
    destruct (perspectiveConfigured key && perspectiveFlags r).
    + exists true. split; [done|]. split; [|done]. intros _. left. by apply Hext.
    + destruct (anyBlockedWord_spec text words Hwords) as (b & -> & Hb).
      exists b. split; [done|]. rewrite Hb. split; [by right|].
      intros [Hc | Hw]; [|done]. apply Hext in Hc. discriminate.
  - intros key. unfold isTextFlagged. simpl. by rewrite andb_false_r.
  - intros key r Hr. unfold isTextFlagged. rewrite Hr, andb_false_r. reflexivity.
  - split; [reflexivity|].
    exists (Js.chars "we are "), (Js.chars "#1"), (Js.chars " in town"). by repeat split.
Qed.

Lemma isTextFlagged_iff_witness :
  exists flagged,
    isTextFlagged (Some "key")
      (FetchResponse true (Some (mkScores (Some 0.875%float) (Some 0.125%float) (Some 0%float))))
      "an ordinary reminder" ["foo"; "free money"] = Some flagged /\
    (flagged = true <->
     classifierFlags (Some "key")
       (FetchResponse true (Some (mkScores (Some 0.875%float) (Some 0.125%float) (Some 0%float))))
     \/ exists w, w ∈ ["foo"; "free money"] /\ containsWholeWord "an ordinary reminder" w).
Proof.
  apply (proj1 isTextFlagged_iff).
  - intros scores [= <-]. simpl. by repeat split; eexists.
  - repeat constructor.
Defined.

